(** * Worker lifecycle supervisor: [runner.py] and [notifier.py]

    A shallow embedding of [Runner] (the registry of worker records, spawn,
    kill, cleanup, listing, the status monitor's sweep and thread, and the
    completion pipeline), of [Notifier]'s message formatting, and of what
    their callers compute from them ([Blaude.status] of [blaude.py], the
    boxes and the selection of the dashboard of [worker_tui.py]), followed
    by the properties of the lifecycle that hold of this code.

    Conventions of the embedding.
    - A Python [str] is a [string]; characters are the code points below
      256, which is what [ascii] holds.
    - A Python [dict] is an association list in insertion order
      ([dict] below); [for ... in d.items()] walks it front to back.
    - Python floats ([time.time()], the budget) are idealised as [Q].
    - Everything outside the interpreter (process creation, signals, the
      clock, the file system, [json.loads], the text of an exception) is
      read from a [World], which describes the surroundings during one
      call (the clock is read once per call); every external effect is
      appended to the runner's [trace].
    - A statement that can raise lives in [outcome]; a method of [Runner]
      is a function [Runner -> outcome A * Runner], so the mutations made
      before an exception are kept, as in Python.
    - The runner takes no lock. A method is first given as one step; the
      kill call and the sweep of the monitor are then cut into the pieces
      between which the other thread may run. *)

From Stdlib Require Import List String Ascii ZArith QArith_base Lia Bool
  PeanoNat DecimalString DecimalPos DecimalZ.
Import ListNotations.

Close Scope Q_scope.
Open Scope string_scope.
Open Scope nat_scope.

Set Implicit Arguments.
Set Warnings "-register-all".

(* ------------------------------------------------------------------ *)
(** ** Python strings *)

Module PyStr.

Definition LF : ascii := "010"%char.
Definition DQUOTE : ascii := "034"%char.

(** [str.isspace] restricted to one character below U+0100. *)
Definition isspace (c : ascii) : bool :=
  let n := nat_of_ascii c in
  ((9 <=? n) && (n <=? 13)) || ((28 <=? n) && (n <=? 32))
  || (n =? 133) || (n =? 160).

(** [s.split(sep)] for a one-character separator: never empty. *)
Fixpoint split (sep : ascii) (s : string) : list string :=
  match s with
  | EmptyString => [EmptyString]
  | String c rest =>
      if Ascii.eqb c sep then EmptyString :: split sep rest
      else match split sep rest with
           | [] => [String c EmptyString]
           | hd :: tl => String c hd :: tl
           end
  end.

(** [needle in hay]. *)
Fixpoint contains (needle hay : string) : bool :=
  prefix needle hay
  || match hay with
     | EmptyString => false
     | String _ rest => contains needle rest
     end.

(** [s.startswith(p)]. *)
Definition startswith (p s : string) : bool := prefix p s.

(** [s[:n]]. *)
Fixpoint slice_to (n : nat) (s : string) : string :=
  match n, s with
  | S k, String c rest => String c (slice_to k rest)
  | _, _ => EmptyString
  end.

Fixpoint lstrip (s : string) : string :=
  match s with
  | String c rest => if isspace c then lstrip rest else s
  | EmptyString => EmptyString
  end.

Fixpoint rstrip (s : string) : string :=
  match s with
  | EmptyString => EmptyString
  | String c rest =>
      match rstrip rest with
      | EmptyString => if isspace c then EmptyString else String c EmptyString
      | kept => String c kept
      end
  end.

(** [s.strip()]. *)
Definition strip (s : string) : string := rstrip (lstrip s).

(** Truth value of a [str]: non-empty. *)
Definition truthy (s : string) : bool :=
  match s with EmptyString => false | _ => true end.

(** [sep.join(parts)]. *)
Definition join (sep : string) (parts : list string) : string :=
  String.concat sep parts.

(** [any(ch in s for ch in chars)]. *)
Definition contains_any (chars : list ascii) (s : string) : bool :=
  existsb (fun ch => contains (String ch EmptyString) s) chars.

(** [str(n)] for an [int]. *)
Definition of_int (z : Z) : string := NilZero.string_of_int (Z.to_int z).

End PyStr.

(** [l[-n:]] for [n > 0]: the last [n] elements, all of [l] when shorter. *)
Definition last_n {A : Type} (n : nat) (l : list A) : list A :=
  skipn (List.length l - n) l.

(* ------------------------------------------------------------------ *)
(** ** Python values, exceptions *)

(** The values [json.loads] can produce. *)
Inductive pyval : Type :=
| PNone
| PBool (b : bool)
| PInt (z : Z)
| PFloat (q : Q)
| PStr (s : string)
| PList (xs : list pyval)
| PDict (kvs : list (string * pyval)).

Inductive exn : Type :=
| OSError (detail : string)
| UnicodeDecodeError (detail : string)
| ValueError (detail : string)
| RecursionError (detail : string)
| TypeError
| KeyError
| AttributeError.

(** The outcome of evaluating something that may raise. *)
Inductive outcome (A : Type) : Type :=
| Ok (a : A)
| Raise (e : exn).
Arguments Ok {A} a.
Arguments Raise {A} e.

Definition and_then {A B : Type} (m : outcome A) (k : A -> outcome B)
  : outcome B :=
  match m with
  | Ok a => k a
  | Raise e => Raise e
  end.

Module PyVal.

(** [key in data], [key] a [str]. *)
Definition contains (key : string) (data : pyval) : outcome bool :=
  match data with
  | PDict kvs => Ok (existsb (fun kv => String.eqb (fst kv) key) kvs)
  | PStr s => Ok (PyStr.contains key s)
  | PList xs =>
      Ok (existsb (fun x => match x with
                            | PStr s => String.eqb s key
                            | _ => false
                            end) xs)
  | _ => Raise TypeError
  end.

(** [data[key]], [key] a [str]. *)
Definition getitem (key : string) (data : pyval) : outcome pyval :=
  match data with
  | PDict kvs =>
      match find (fun kv => String.eqb (fst kv) key) kvs with
      | Some kv => Ok (snd kv)
      | None => Raise KeyError
      end
  | _ => Raise TypeError
  end.

(** [len(v)]. *)
Definition len (v : pyval) : outcome nat :=
  match v with
  | PStr s => Ok (String.length s)
  | PList xs => Ok (List.length xs)
  | PDict kvs => Ok (List.length kvs)
  | _ => Raise TypeError
  end.

(** [v[:n] + suffix], [suffix] a [str]. *)
Definition slice_then_add (n : nat) (suffix : string) (v : pyval)
  : outcome pyval :=
  match v with
  | PStr s => Ok (PStr (PyStr.slice_to n s ++ suffix))
  | _ => Raise TypeError
  end.

End PyVal.

(* ------------------------------------------------------------------ *)
(** ** The world outside the interpreter *)

(** What [json.loads] does with a line: it returns a value, or raises
    [JSONDecodeError] (the line is not JSON), or raises something else
    ([RecursionError] on a value nested too deep, a plain [ValueError] on
    an integer with more digits than the interpreter converts). *)
Inductive parse : Type :=
| Parsed (data : pyval)
| JSONDecodeError
| ParseRaises (e : exn).

(** What [Path.exists] and [open(...).read()] find at a path. *)
Inductive file_state : Type :=
| Missing
| Unreadable (e : exn)
| Readable (content : string).

Record World : Type := {
  (** [claude auth status] reports an authenticated session *)
  auth_ok : bool;
  (** [str(uuid.uuid4())] *)
  uuid4 : string;
  (** [time.time()] *)
  now : Q;
  (** [str(logs_dir / (name + ".log"))] *)
  log_path : string -> string -> string;
  (** [str(budget)] *)
  str_float : Q -> string;
  (** [subprocess.Popen(cmd, ...).pid] *)
  popen : list string -> outcome Z;
  (** [subprocess.run(cmd, ...).returncode] *)
  subprocess_run : list string -> outcome Z;
  (** the [openclaw agent] call exits with code 0 *)
  openclaw : list string -> bool;
  (** [os.killpg(pid, SIGTERM)] returns; [false]: it raises [OSError] *)
  killpg : Z -> bool;
  (** [os.kill(pid, 0)] returns; [false]: it raises [OSError] *)
  kill0 : Z -> bool;
  (** the file system, by path *)
  fs : string -> file_state;
  (** [json.loads(line)] *)
  json_loads : string -> parse;
  (** [str(e)] *)
  str_exn : exn -> string
}.

(* ------------------------------------------------------------------ *)
(** ** [Runner._extract_summary] *)

(** The text looked for in a line: a double quote, [result], a double
    quote, a colon. *)
Definition RESULT_MARKER : string :=
  String PyStr.DQUOTE ("result" ++ String PyStr.DQUOTE ":").

Definition NO_OUTPUT : string := "No output captured".

Section Summary.

Variable w : World.

(** [result[:300] + "..." if len(result) > 300 else result] *)
Definition truncate_result (result : pyval) : outcome pyval :=
  and_then (PyVal.len result) (fun n =>
    if 300 <? n then PyVal.slice_then_add 300 "..." result
    else Ok result).

(** The [for line in reversed(lines)] loop, on the reversed list.
    [Ok (Some v)] is [return v]; [Ok None] is the loop running out;
    only [JSONDecodeError] is caught inside, anything else [json.loads]
    raises leaves the loop. *)
Fixpoint scan_result (rev_lines : list string) : outcome (option pyval) :=
  match rev_lines with
  | [] => Ok None
  | line :: rest =>
      if PyStr.contains RESULT_MARKER line then
        match json_loads w line with
        | JSONDecodeError => scan_result rest
        | ParseRaises e => Raise e
        | Parsed data =>
            match PyVal.contains "result" data with
            | Raise e => Raise e
            | Ok false => scan_result rest
            | Ok true =>
                and_then (PyVal.getitem "result" data) (fun result =>
                and_then (truncate_result result) (fun v => Ok (Some v)))
            end
        end
      else scan_result rest
  end.

(** A line kept by the fallback: not blank, not starting with [2026-]. *)
Definition meaningful (line : string) : bool :=
  PyStr.truthy (PyStr.strip line) && negb (PyStr.startswith "2026-" line).

Definition fallback_summary (lines : list string) : string :=
  let meaningful_lines := filter meaningful (last_n 20 lines) in
  PyStr.slice_to 200
    (PyStr.join (String PyStr.LF "") (last_n 5 meaningful_lines)).

(** What the summariser makes of the text of a log. *)
Definition summarize_content (content : string) : outcome pyval :=
  let lines := PyStr.split PyStr.LF content in
  match scan_result (rev lines) with
  | Raise e => Raise e
  | Ok (Some v) => Ok v
  | Ok None => Ok (PStr (fallback_summary lines))
  end.

(** The body of the [try]. *)
Definition extract_summary_body (log_file : string) : outcome pyval :=
  match fs w log_file with
  | Missing => Ok (PStr NO_OUTPUT)
  | Unreadable e => Raise e
  | Readable content => summarize_content content
  end.

Definition _extract_summary (log_file : string) : outcome pyval :=
  match extract_summary_body log_file with
  | Ok v => Ok v
  | Raise e => Ok (PStr ("Error reading output: " ++ str_exn w e))
  end.

End Summary.

(* ------------------------------------------------------------------ *)
(** ** [Notifier]: formatting *)

Module Notifier.

Definition duration_str (duration : Z) : string :=
  if (duration <? 60)%Z then PyStr.of_int duration ++ "s"
  else if (duration <? 3600)%Z then
    PyStr.of_int (duration / 60) ++ "m "
    ++ PyStr.of_int (duration mod 60) ++ "s"
  else
    PyStr.of_int (duration / 3600) ++ "h "
    ++ PyStr.of_int ((duration mod 3600) / 60) ++ "m".

(** [clean_summary] as the first three statements of
    [_format_completion_message] leave it. *)
Definition clean_summary (summary : string) : string :=
  let clean := PyStr.strip summary in
  if 500 <? String.length clean then PyStr.slice_to 500 clean ++ "..."
  else clean.

(** [clean_summary and clean_summary != "No output captured"] *)
Definition shown (clean : string) : bool :=
  PyStr.truthy clean && negb (String.eqb clean NO_OUTPUT).

Definition _format_completion_message
  (worker_name : string) (summary : pyval) (duration_str : string)
  : outcome string :=
  match summary with
  | PStr s =>
      let clean := clean_summary s in
      let nl := String PyStr.LF "" in
      let message :=
        "🎯 Worker **" ++ worker_name ++ "** completed ("
        ++ duration_str ++ ")" in
      if shown clean then
        if PyStr.contains_any ["{"%char; "["%char; ":"%char; PyStr.LF] clean
        then Ok (message ++ nl ++ "```" ++ nl ++ clean ++ nl ++ "```")
        else Ok (message ++ nl ++ nl ++ clean)
      else Ok message
  | _ => Raise AttributeError
  end.

(** The summary text a completion message carries, if it carries one. *)
Definition embedded_summary (summary : pyval) : option string :=
  match summary with
  | PStr s => if shown (clean_summary s) then Some (clean_summary s)
              else None
  | _ => None
  end.

End Notifier.

(* ------------------------------------------------------------------ *)
(** ** Worker records and the registry *)

Record Worker : Type := {
  pid : option Z;
  session_id : string;
  model : string;
  budget : Q;
  notify_target : string;
  prompt : string;
  start_time : Q;
  status : string;
  log_file : string;
  background : bool;
  (** [None]: the record has no ["end_time"] key *)
  end_time : option Q
}.

Definition set_status (s : string) (wk : Worker) : Worker :=
  {| pid := pid wk; session_id := session_id wk; model := model wk;
     budget := budget wk; notify_target := notify_target wk;
     prompt := prompt wk; start_time := start_time wk; status := s;
     log_file := log_file wk; background := background wk;
     end_time := end_time wk |}.

Definition set_end_time (t : Q) (wk : Worker) : Worker :=
  {| pid := pid wk; session_id := session_id wk; model := model wk;
     budget := budget wk; notify_target := notify_target wk;
     prompt := prompt wk; start_time := start_time wk; status := status wk;
     log_file := log_file wk; background := background wk;
     end_time := Some t |}.

(** [worker.get("pid")] as a condition: neither [None] nor [0]. *)
Definition live_pid (wk : Worker) : option Z :=
  match pid wk with
  | Some p => if (p =? 0)%Z then None else Some p
  | None => None
  end.

Definition dict (V : Type) : Type := list (string * V).

Module Dict.

Section Ops.
Context {V : Type}.

(** [d.get(k)] *)
Fixpoint get (k : string) (d : dict V) : option V :=
  match d with
  | [] => None
  | (k', v) :: rest => if String.eqb k' k then Some v else get k rest
  end.

(** [k in d] *)
Definition mem (k : string) (d : dict V) : bool :=
  match get k d with Some _ => true | None => false end.

(** [d[k] = v]: in place when [k] is there, at the end otherwise. *)
Fixpoint set (k : string) (v : V) (d : dict V) : dict V :=
  match d with
  | [] => [(k, v)]
  | (k', v') :: rest =>
      if String.eqb k' k then (k, v) :: rest
      else (k', v') :: set k v rest
  end.

(** [del d[k]], for a key that is there. *)
Definition del (k : string) (d : dict V) : dict V :=
  filter (fun kv => negb (String.eqb (fst kv) k)) d.

(** [for k in names: del d[k]] *)
Definition del_all (names : list string) (d : dict V) : dict V :=
  fold_left (fun d name => del name d) names d.

(** A mutation of the object stored under [k]. *)
Definition mutate (k : string) (f : V -> V) (d : dict V) : dict V :=
  match get k d with
  | Some v => set k (f v) d
  | None => d
  end.

(** Keys are unique: what makes the list a dictionary. *)
Definition wf (d : dict V) : Prop := NoDup (map fst d).

End Ops.

End Dict.

(* ------------------------------------------------------------------ *)
(** ** [Runner] *)

(** The effects a runner has on the outside, in the order they happen. *)
Inductive event : Type :=
| EvAuthStatus                       (* subprocess.run(claude auth status) *)
| EvPopen (cmd : list string)        (* subprocess.Popen(cmd, ...) *)
| EvRun (cmd : list string)          (* subprocess.run(cmd, ...) *)
| EvKillpg (p : Z)                   (* os.killpg(p, SIGTERM) *)
| EvKill0 (p : Z)                    (* os.kill(p, 0) *)
| EvSave (snapshot : dict Worker)    (* json.dump(self.workers, f) *)
| EvNotify (worker_name target message : string).
                                     (* notify_completion's openclaw call *)

Record Runner : Type := {
  workers : dict Worker;
  logs_dir : string;
  trace : list event
}.

(** How many completion notifications for [name] a trace holds. *)
Fixpoint notified (name : string) (tr : list event) : nat :=
  match tr with
  | [] => 0
  | EvNotify n _ _ :: rest =>
      (if String.eqb n name then 1 else 0) + notified name rest
  | _ :: rest => notified name rest
  end.

(** A method of [Runner]. *)
Definition M (A : Type) : Type := Runner -> outcome A * Runner.

Definition ret {A : Type} (a : A) : M A := fun r => (Ok a, r).

Definition raise {A : Type} (e : exn) : M A := fun r => (Raise e, r).

Definition bind {A B : Type} (m : M A) (k : A -> M B) : M B :=
  fun r =>
    match m r with
    | (Ok a, r') => k a r'
    | (Raise e, r') => (Raise e, r')
    end.

(** [try: m  except Exception: handler] *)
Definition try_except {A : Type} (m : M A) (handler : exn -> M A) : M A :=
  fun r =>
    match m r with
    | (Ok a, r') => (Ok a, r')
    | (Raise e, r') => handler e r'
    end.

Definition lift {A : Type} (o : outcome A) : M A := fun r => (o, r).

Definition gets {A : Type} (f : Runner -> A) : M A := fun r => (Ok (f r), r).

Definition emit (ev : event) : M unit :=
  fun r => (Ok tt, {| workers := workers r; logs_dir := logs_dir r;
                      trace := trace r ++ [ev] |}).

Definition modify_workers (f : dict Worker -> dict Worker) : M unit :=
  fun r => (Ok tt, {| workers := f (workers r); logs_dir := logs_dir r;
                      trace := trace r |}).

Declare Scope runner_scope.
Delimit Scope runner_scope with runner.
Notation "x <- m ;; k" := (bind m (fun x => k))
  (at level 61, m at next level, right associativity) : runner_scope.
Notation "m ;; k" := (bind m (fun _ => k))
  (at level 61, right associativity) : runner_scope.
Open Scope runner_scope.

(** Python's [int(x)] on a float: truncation towards zero. *)
Definition py_int (q : Q) : Z := Z.quot (Qnum q) (Zpos (Qden q)).

Definition TERMINAL_FOR_CLEANUP : list string :=
  ["completed"; "killed"; "dead"].

(** [s in names] on a list of [str]. *)
Definition str_in (s : string) (names : list string) : bool :=
  existsb (String.eqb s) names.

Section RunnerMethods.

Variable w : World.

(** [save_workers]: a failure to write is caught and printed. *)
Definition save_workers : M unit :=
  ws <- gets workers ;; emit (EvSave ws).

Definition set_env_wizard : M bool :=
  emit EvAuthStatus ;; ret (auth_ok w).

(** [Notifier.notify_completion]; [_send_openclaw_message] catches
    whatever its [subprocess.run] raises. *)
Definition notify_completion
  (worker_name : string) (summary : pyval) (duration : Z) (target : string)
  : M bool :=
  message <- lift (Notifier._format_completion_message
                     worker_name summary (Notifier.duration_str duration)) ;;
  emit (EvNotify worker_name target message) ;;
  ret (openclaw w ["openclaw"; "agent"; "--agent"; target; "-m"; message]).

Definition _handle_completion (name : string) : M unit :=
  ws <- gets workers ;;
  match Dict.get name ws with
  | None => ret tt
  | Some worker =>
      let ended :=
        match end_time worker with Some t => t | None => now w end in
      let duration := py_int (Qminus ended (start_time worker)) in
      summary <- lift (_extract_summary w (log_file worker)) ;;
      notify_completion name summary duration (notify_target worker) ;;
      ret tt
  end.

(** The command line of the agent, before any [nohup]. *)
Definition claude_cmd
  (session_id model : string) (budget : Q) (log_file prompt : string)
  : list string :=
  ["claude"; "--print";
   "--session-id"; session_id;
   "--model"; model;
   "--max-budget-usd"; str_float w budget;
   "--debug-file"; log_file;
   "--output-format"; "json";
   prompt].

(** The two ways of launching: [Ok (Some pid)] goes on to store the
    record with that [pid], [Ok None] is the [return False] of a
    foreground run that exits with a non-zero code. *)
Definition launch (background : bool) (cmd : list string)
  : M (option (option Z)) :=
  if background then
    emit (EvPopen ("nohup" :: cmd)) ;;
    p <- lift (popen w ("nohup" :: cmd)) ;;
    ret (Some (Some p))
  else
    emit (EvRun cmd) ;;
    returncode <- lift (subprocess_run w cmd) ;;
    if (returncode =? 0)%Z then ret (Some None) else ret None.

(** The record [run] stores: no ["end_time"] key. *)
Definition new_worker
  (p : option Z) (session_id model : string) (budget : Q)
  (notify_target prompt log_file : string) (background : bool) : Worker :=
  {| pid := p; session_id := session_id; model := model;
     budget := budget; notify_target := notify_target;
     prompt := prompt; start_time := now w;
     status := if background then "running" else "completed";
     log_file := log_file; background := background;
     end_time := None |}.

Definition run
  (name prompt model : string) (budget : Q) (notify_target : string)
  (background : bool) : M bool :=
  ws <- gets workers ;;
  if Dict.mem name ws then ret false
  else
    authed <- set_env_wizard ;;
    if negb authed then ret false
    else
      dir <- gets logs_dir ;;
      let session_id := uuid4 w in
      let log_file := log_path w dir name in
      let cmd := claude_cmd session_id model budget log_file prompt in
      try_except
        (launched <- launch background cmd ;;
         match launched with
         | None => ret false
         | Some p =>
             modify_workers (Dict.set name
               (new_worker p session_id model budget notify_target prompt
                  log_file background)) ;;
             save_workers ;;
             (if background then ret tt else _handle_completion name) ;;
             ret true
         end)
        (fun _ => ret false).

(** [worker["status"] = s; worker["end_time"] = time.time()], on the
    record stored under [name]. *)
Definition finish (name s : string) : M unit :=
  modify_workers (Dict.mutate name (set_status s)) ;;
  modify_workers (Dict.mutate name (set_end_time (now w))).

Definition kill_worker (name : string) : M bool :=
  ws <- gets workers ;;
  match Dict.get name ws with
  | None => ret false
  | Some worker =>
      match String.eqb (status worker) "running", live_pid worker with
      | true, Some p =>
          emit (EvKillpg p) ;;
          (if killpg w p then finish name "killed"
           else finish name "dead") ;;
          save_workers ;;
          ret true
      | _, _ => ret false
      end
  end.

Definition cleanup_completed : M nat :=
  ws <- gets workers ;;
  let to_remove :=
    map fst (filter (fun kv => str_in (status (snd kv)) TERMINAL_FOR_CLEANUP)
                    ws) in
  modify_workers (Dict.del_all to_remove) ;;
  (match to_remove with
   | [] => ret tt
   | _ :: _ => save_workers
   end) ;;
  ret (List.length to_remove).

(** The loop of [_check_worker_statuses] over the snapshot
    [list(self.workers.items())]; [updated] is the flag. *)
Fixpoint check_loop (items : list (string * Worker)) (updated : bool)
  : M bool :=
  match items with
  | [] => ret updated
  | (name, worker) :: rest =>
      match String.eqb (status worker) "running", live_pid worker with
      | true, Some p =>
          emit (EvKill0 p) ;;
          if kill0 w p then check_loop rest updated
          else
            finish name "completed" ;;
            _handle_completion name ;;
            check_loop rest true
      | _, _ => check_loop rest updated
      end
  end.

Definition _check_worker_statuses : M unit :=
  snapshot <- gets workers ;;
  updated <- check_loop snapshot false ;;
  if updated then save_workers else ret tt.

End RunnerMethods.

(* ------------------------------------------------------------------ *)
(** ** The kill call and the monitor as two threads

    The runner takes no lock: the monitor thread and a caller of
    [kill_worker] can take turns between any two accesses of the registry.
    Each method is cut here into the pieces between which the other thread
    may run; a piece returns the place where its thread stands next. Every
    piece runs in the world of its moment: what a signal, a probe and the
    clock answer may differ from one piece to the next, and from one sweep
    to the next. *)

(** The places of [kill_worker name]. *)
Inductive kill_pc : Type :=
| KGuard                   (* before the tests on the record *)
| KSignal (p : Z)          (* before os.killpg(p, SIGTERM) *)
| KStatus (s : string)     (* before worker["status"] = s *)
| KEndTime                 (* before worker["end_time"] = time.time() *)
| KSave                    (* before self.save_workers() *)
| KReturned (b : bool).

(** The places of [_check_worker_statuses]. *)
Inductive sweep_pc : Type :=
| SSnapshot                (* before list(self.workers.items()) *)
| STurn (items : list (string * Worker)) (updated : bool)
                           (* before the test on the next item *)
| SProbe (name : string) (p : Z) (rest : list (string * Worker))
         (updated : bool)  (* before os.kill(p, 0) *)
| SStatus (name : string) (rest : list (string * Worker))
                           (* before worker["status"] = "completed" *)
| SEndTime (name : string) (rest : list (string * Worker))
                           (* before worker["end_time"] = time.time() *)
| SHandle (name : string) (rest : list (string * Worker))
                           (* before self._handle_completion(name) *)
| SReturned (o : outcome unit).

Section Threads.

(** The world at the moment of the piece. *)
Variable w : World.

Definition kill_piece (name : string) (pc : kill_pc) : M kill_pc :=
  match pc with
  | KGuard =>
      ws <- gets workers ;;
      match Dict.get name ws with
      | None => ret (KReturned false)
      | Some worker =>
          match String.eqb (status worker) "running", live_pid worker with
          | true, Some p => ret (KSignal p)
          | _, _ => ret (KReturned false)
          end
      end
  | KSignal p =>
      emit (EvKillpg p) ;;
      ret (KStatus (if killpg w p then "killed" else "dead"))
  | KStatus s =>
      modify_workers (Dict.mutate name (set_status s)) ;; ret KEndTime
  | KEndTime =>
      modify_workers (Dict.mutate name (set_end_time (now w))) ;;
      ret KSave
  | KSave => save_workers ;; ret (KReturned true)
  | KReturned b => ret (KReturned b)
  end.

(** The items of the snapshot are the worker objects themselves: the test
    reads the record as it is when the turn comes ([snap] only stands in
    for a record no longer stored under its name). *)
Definition sweep_piece (pc : sweep_pc) : M sweep_pc :=
  match pc with
  | SSnapshot => snapshot <- gets workers ;; ret (STurn snapshot false)
  | STurn [] updated =>
      (if updated then save_workers else ret tt) ;; ret (SReturned (Ok tt))
  | STurn ((name, snap) :: rest) updated =>
      ws <- gets workers ;;
      let worker :=
        match Dict.get name ws with Some live => live | None => snap end in
      match String.eqb (status worker) "running", live_pid worker with
      | true, Some p => ret (SProbe name p rest updated)
      | _, _ => ret (STurn rest updated)
      end
  | SProbe name p rest updated =>
      emit (EvKill0 p) ;;
      if kill0 w p then ret (STurn rest updated)
      else ret (SStatus name rest)
  | SStatus name rest =>
      modify_workers (Dict.mutate name (set_status "completed")) ;;
      ret (SEndTime name rest)
  | SEndTime name rest =>
      modify_workers (Dict.mutate name (set_end_time (now w))) ;;
      ret (SHandle name rest)
  | SHandle name rest => _handle_completion w name ;; ret (STurn rest true)
  | SReturned o => ret (SReturned o)
  end.

(** The pieces of one thread run with nothing in between. *)
Fixpoint kill_alone (fuel : nat) (name : string) (pc : kill_pc) (r : Runner)
  : kill_pc * Runner :=
  match fuel with
  | O => (pc, r)
  | S fuel' =>
      match kill_piece name pc r with
      | (Ok pc', r') => kill_alone fuel' name pc' r'
      | (Raise _, r') => (pc, r')
      end
  end.

Fixpoint sweep_alone (fuel : nat) (pc : sweep_pc) (r : Runner)
  : sweep_pc * Runner :=
  match fuel with
  | O => (pc, r)
  | S fuel' =>
      match sweep_piece pc r with
      | (Ok pc', r') => sweep_alone fuel' pc' r'
      | (Raise e, r') => (SReturned (Raise e), r')
      end
  end.

End Threads.

(** Both threads and the runner they share. *)
Definition config : Type := kill_pc * sweep_pc * Runner.

(** One piece of one of the threads, in the world [w] of its moment. An
    exception ends the monitor; a sweep that returns is followed by the
    next one. *)
Inductive thread_step (name : string) : config -> config -> Prop :=
| kill_moves (w : World) (kpc kpc' : kill_pc) (spc : sweep_pc)
    (r r' : Runner) :
    kill_piece w name kpc r = (Ok kpc', r') ->
    thread_step name (kpc, spc, r) (kpc', spc, r')
| sweep_moves (w : World) (kpc : kill_pc) (spc spc' : sweep_pc)
    (r r' : Runner) :
    sweep_piece w spc r = (Ok spc', r') ->
    thread_step name (kpc, spc, r) (kpc, spc', r')
| sweep_raises (w : World) (kpc : kill_pc) (spc : sweep_pc) (e : exn)
    (r r' : Runner) :
    sweep_piece w spc r = (Raise e, r') ->
    thread_step name (kpc, spc, r) (kpc, SReturned (Raise e), r')
| sweep_again (kpc : kill_pc) (r : Runner) :
    thread_step name (kpc, SReturned (Ok tt), r) (kpc, SSnapshot, r).

(** Any number of pieces, in any order. *)
Inductive interleaving (name : string) : config -> config -> Prop :=
| interleaving_done (c : config) : interleaving name c c
| interleaving_step (c1 c2 c3 : config) :
    thread_step name c1 c2 -> interleaving name c2 c3 ->
    interleaving name c1 c3.


(** What is left of [_check_worker_statuses] once the loop is over. *)
Definition after_loop (looped : outcome bool * Runner) : outcome unit * Runner :=
  match looped with
  | (Ok true, r) => save_workers r
  | (Ok false, r) => (Ok tt, r)
  | (Raise e, r) => (Raise e, r)
  end.

(** The sweep has found [name] running and has not yet come out of the
    completion pipeline for it. *)
Definition in_flight (name : string) (pc : sweep_pc) : bool :=
  match pc with
  | SProbe n _ _ _ | SStatus n _ | SEndTime n _ | SHandle n _ =>
      String.eqb n name
  | _ => false
  end.

(** The sweep has written [completed] on [name] in this turn. *)
Definition past_write (name : string) (pc : sweep_pc) : bool :=
  match pc with
  | SEndTime n _ | SHandle n _ => String.eqb n name
  | _ => false
  end.

(** The statuses a record ends in. *)
Definition FINAL_STATUSES : list string := ["completed"; "killed"; "dead"].

(** The kill call has written its status, or has returned. *)
Definition kill_settled (pc : kill_pc) : bool :=
  match pc with
  | KEndTime | KSave | KReturned _ => true
  | _ => false
  end.

(** What holds of the two threads at every moment of a race over the
    worker [name] with process [p], when [base] notifications for it had
    been sent at the start. *)
Definition race_invariant (name : string) (p : Z) (base : nat) (c : config)
  : Prop :=
  let '(kpc, spc, r) := c in
  (exists wk,
      Dict.get name (workers r) = Some wk
      /\ live_pid wk = Some p
      /\ (status wk = "running" \/ In (status wk) FINAL_STATUSES)
      /\ (kill_settled kpc = true -> In (status wk) FINAL_STATUSES)
      /\ (past_write name spc = true -> In (status wk) FINAL_STATUSES)
      /\ (status wk = "running" -> notified name (trace r) <= base))
  /\ match kpc with
     | KStatus s => s = "killed" \/ s = "dead"
     | _ => True
     end
  /\ notified name (trace r) <= base + 1
  /\ (in_flight name spc = true -> notified name (trace r) <= base).

(* ------------------------------------------------------------------ *)
(** ** Scenarios *)

(** A world given by its log files, its JSON reader, and whether signals
    and probes find their process. *)
Definition mk_world
  (files : string -> file_state) (loads : string -> parse)
  (signal_lands probe_finds : bool) : World :=
  {| auth_ok := true;
     uuid4 := "6f1c0a52-3f0e-4b7a-9d55-0c8f2a1e7b90";
     now := 1700 # 1;
     log_path := fun dir name => dir ++ "/" ++ name ++ ".log";
     str_float := fun _ => "2.0";
     popen := fun _ => Ok 4242%Z;
     subprocess_run := fun _ => Ok 0%Z;
     openclaw := fun _ => true;
     killpg := fun _ => signal_lands;
     kill0 := fun _ => probe_finds;
     fs := files;
     json_loads := loads;
     str_exn := fun e =>
       match e with
       | OSError detail => detail
       | UnicodeDecodeError detail => detail
       | ValueError detail => detail
       | RecursionError detail => detail
       | TypeError => "TypeError"
       | KeyError => "KeyError"
       | AttributeError => "AttributeError"
       end |}.

Definition no_files : string -> file_state := fun _ => Missing.
Definition no_json : string -> parse := fun _ => JSONDecodeError.

Definition one_file (path : string) (st : file_state) : string -> file_state :=
  fun p => if String.eqb p path then st else Missing.

Definition one_json (line : string) (v : pyval) : string -> parse :=
  fun l => if String.eqb l line then Parsed v else JSONDecodeError.

(** A result record as the agent prints it, with nothing around the colon. *)
Definition done_line : string :=
  "{" ++ RESULT_MARKER ++ String PyStr.DQUOTE ("Done" ++ String PyStr.DQUOTE "}").

(** The same object with a space before the colon. *)
Definition done_line_spaced : string :=
  "{" ++ String PyStr.DQUOTE ("result" ++ String PyStr.DQUOTE " : ")
  ++ String PyStr.DQUOTE ("Done" ++ String PyStr.DQUOTE "}").

Definition done_value : pyval := PDict [("result", PStr "Done")].

Definition t1_log : string := "/tmp/blaude-logs/t1.log".

Definition done_world : World :=
  mk_world
    (one_file t1_log
       (Readable ("starting" ++ String PyStr.LF done_line
                  ++ String PyStr.LF "")))
    (one_json done_line done_value) true true.

Definition spaced_world : World :=
  mk_world (one_file t1_log (Readable done_line_spaced))
           (one_json done_line_spaced done_value) true true.

Definition denied_world : World :=
  mk_world (one_file t1_log (Unreadable (OSError "[Errno 13] Permission denied")))
           no_json true true.

(** [n] copies of a character. *)
Fixpoint replicate (n : nat) (c : ascii) : string :=
  match n with
  | O => EmptyString
  | S k => String c (replicate k c)
  end.

(** A log three directories deep, each with a long name. *)
Definition deep_log : string :=
  "/srv/" ++ replicate 200 "a" ++ "/" ++ replicate 200 "b" ++ "/"
  ++ replicate 200 "c" ++ "/t1.log".

(** That log cannot be opened. *)
Definition deep_log_denied_world : World :=
  mk_world
    (one_file deep_log
       (Unreadable (OSError ("[Errno 13] Permission denied: '"
                             ++ deep_log ++ "'"))))
    no_json true true.

Definition t1_running : Worker :=
  {| pid := Some 4242%Z;
     session_id := "6f1c0a52-3f0e-4b7a-9d55-0c8f2a1e7b90";
     model := "haiku"; budget := 2 # 1; notify_target := "main";
     prompt := "Fix the failing tests"; start_time := 1600 # 1;
     status := "running"; log_file := t1_log; background := true;
     end_time := None |}.

Definition empty_runner : Runner :=
  {| workers := []; logs_dir := "/tmp/blaude-logs"; trace := [] |}.

Definition t1_runner : Runner :=
  {| workers := [("t1", t1_running)]; logs_dir := "/tmp/blaude-logs";
     trace := [] |}.

(** The process is alive when signalled and gone when probed. *)
Definition kill_lands_world : World := mk_world no_files no_json true false.

(** The process group is gone when signalled. *)
Definition already_gone_world : World := mk_world no_files no_json false false.

(** A foreground run that exits with code 0. *)
Definition foreground_world : World := mk_world no_files no_json true true.

(** A result record whose [result] is an empty list. *)
Definition list_line : string := "{" ++ RESULT_MARKER ++ " []}".

(** A foreground run that exits with code 0 and leaves that record in its
    log. *)
Definition list_result_world : World :=
  mk_world (one_file "/tmp/blaude-logs/fg.log" (Readable list_line))
           (one_json list_line (PDict [("result", PList [])])) true true.

(** A result record followed by an integer of 5000 digits: valid JSON that
    [json.loads] refuses with a plain [ValueError]. *)
Definition long_number_line : string :=
  "{" ++ RESULT_MARKER ++ " "
  ++ String PyStr.DQUOTE ("Done" ++ String PyStr.DQUOTE ", ")
  ++ String PyStr.DQUOTE ("n" ++ String PyStr.DQUOTE ": ")
  ++ replicate 5000 "9" ++ "}".

Definition DIGIT_LIMIT_MESSAGE : string :=
  "Exceeds the limit (4300 digits) for integer string conversion: "
  ++ "value has 5000 digits; use sys.set_int_max_str_digits() "
  ++ "to increase the limit".

Definition long_number_world : World :=
  mk_world (one_file t1_log (Readable ("starting" ++ String PyStr.LF
                                        long_number_line)))
           (fun l => if String.eqb l long_number_line
                     then ParseRaises (ValueError DIGIT_LIMIT_MESSAGE)
                     else JSONDecodeError)
           true true.


(* ------------------------------------------------------------------ *)
(** ** The words of the statements *)

(** A line the scan passes over: no marker, or [json.loads] raises
    [JSONDecodeError] on it, or it returns a value without [result] in
    it. *)
Definition passed_over (w : World) (line : string) : bool :=
  negb (PyStr.contains RESULT_MARKER line)
  || match json_loads w line with
     | JSONDecodeError => true
     | ParseRaises _ => false
     | Parsed data =>
         match PyVal.contains "result" data with
         | Ok false => true
         | _ => false
         end
     end.

(** The operations that change the registry. *)
Inductive operation : Type :=
| OpRun (name prompt model : string) (budget : Q) (notify_target : string)
        (background : bool)
| OpKill (name : string)
| OpCleanup
| OpCheck.

(** The runner an operation leaves behind. *)
Definition after (w : World) (op : operation) (r : Runner) : Runner :=
  match op with
  | OpRun name prompt model budget target bg =>
      snd (run w name prompt model budget target bg r)
  | OpKill name => snd (kill_worker w name r)
  | OpCleanup => snd (cleanup_completed r)
  | OpCheck => snd (_check_worker_statuses w r)
  end.




(** A relation between registries, as one between runners. *)
Definition on_registry (Rd : dict Worker -> dict Worker -> Prop)
  (r r' : Runner) : Prop :=
  Rd (workers r) (workers r').


(** The runner after a probe of [p]. *)
Definition probed (p : Z) (r : Runner) : Runner :=
  {| workers := workers r; logs_dir := logs_dir r;
     trace := trace r ++ [EvKill0 p] |}.

(** A record once [finish] has gone over it. *)
Definition finished (w : World) (s : string) (wk : Worker) : Worker :=
  set_end_time (now w) (set_status s wk).

(** The runner after [finish name s]. *)
Definition flipped (w : World) (name s : string) (r : Runner) : Runner :=
  {| workers := Dict.mutate name (finished w s) (workers r);
     logs_dir := logs_dir r; trace := trace r |}.

(** Between [r] and [r'] the record of [name] and the count of its
    notifications are the same. *)
Definition untouched (name : string) (r r' : Runner) : Prop :=
  Dict.get name (workers r') = Dict.get name (workers r)
  /\ notified name (trace r') = notified name (trace r).

(** Between [r] and [r'] the monitor has moved the record [v] of [name]
    to [completed] and run the completion pipeline for it; [returned]
    says the sweep went on to its end. *)
Definition completed_by_monitor
  (w : World) (name : string) (v : Worker) (returned : bool) (r r' : Runner)
  : Prop :=
  status v = "running"
  /\ (exists p, live_pid v = Some p /\ kill0 w p = false)
  /\ Dict.get name (workers r') = Some (finished w "completed" v)
  /\ notified name (trace r') <= notified name (trace r) + 1
  /\ (returned = true ->
      notified name (trace r') = notified name (trace r) + 1).

Definition returns {A : Type} (o : outcome A) : bool :=
  match o with Ok _ => true | Raise _ => false end.

(** The registry is as it was. *)
Definition same_registry : Runner -> Runner -> Prop :=
  on_registry (fun d d' => d' = d).

(** The statuses after which nothing more happens to a record. *)
Definition TERMINAL_STATUSES : list string :=
  ["completed"; "killed"; "dead"; "failed"].

(** Every record has an [end_time] exactly when its status is terminal. *)
Definition end_time_iff_terminal (d : dict Worker) : Prop :=
  forall name wk,
    Dict.get name d = Some wk ->
    (end_time wk <> None <-> In (status wk) TERMINAL_STATUSES).

(** A spawn in the foreground. *)
Definition foreground_spawn (op : operation) : bool :=
  match op with
  | OpRun _ _ _ _ _ background => negb background
  | _ => false
  end.

(** A method relates the runner it is called on to the runner it leaves
    by [R], whether it returns or raises. *)
Definition preserves (R : Runner -> Runner -> Prop) {A : Type} (m : M A)
  : Prop :=
  forall r, R r (snd (m r)).

(* ------------------------------------------------------------------ *)
(** ** [Runner.list_workers], the monitor's thread, the authentication test *)

(** A [pid] entry as a Python value. *)
Definition pid_value (p : option Z) : pyval :=
  match p with
  | Some z => PInt z
  | None => PNone
  end.

Section Listing.

Variable w : World.

(** The dict [list_workers] appends for one record. *)
Definition worker_row (name : string) (worker : Worker) : dict pyval :=
  [("name", PStr name);
   ("status", PStr (status worker));
   ("model", PStr (model worker));
   ("age_seconds", PInt (py_int (Qminus (now w) (start_time worker))));
   ("pid", pid_value (pid worker));
   ("notify_target", PStr (notify_target worker))].

(** [for name, worker in self.workers.items(): workers_list.append(...)] *)
Fixpoint list_loop (items : list (string * Worker))
  (workers_list : list (dict pyval)) : list (dict pyval) :=
  match items with
  | [] => workers_list
  | (name, worker) :: rest =>
      list_loop rest (workers_list ++ [worker_row name worker])
  end.

Definition list_workers : M (list (dict pyval)) :=
  ws <- gets workers ;; ret (list_loop ws []).

End Listing.


(** [str.lower] on a character below U+0100: the letters [A] to [Z] and
    the capital letters of Latin-1. *)
Definition lower_char (c : ascii) : ascii :=
  let n := nat_of_ascii c in
  if ((65 <=? n) && (n <=? 90))
     || ((192 <=? n) && (n <=? 222) && negb (n =? 215))
  then ascii_of_nat (n + 32)
  else c.

Fixpoint lower (s : string) : string :=
  match s with
  | EmptyString => EmptyString
  | String c rest => String (lower_char c) (lower rest)
  end.

(** The test [set_env_wizard] makes on what [claude auth status] prints;
    [auth_ok] of a world is its result. *)
Definition reports_authenticated (stdout : string) : bool :=
  PyStr.contains "authenticated" (lower stdout).

(* ------------------------------------------------------------------ *)
(** ** [blaude.py]: the numbers of [Blaude.status] *)

Module Blaude.

(** [len([w for w in rows if w[key] == value])], [value] a [str]. *)
Fixpoint count_equal (key value : string) (rows : list (dict pyval))
  : outcome nat :=
  match rows with
  | [] => Ok 0
  | row :: rest =>
      and_then (PyVal.getitem key (PDict row)) (fun v =>
      and_then (count_equal key value rest) (fun n =>
        Ok (match v with
            | PStr s => if String.eqb s value then S n else n
            | _ => n
            end)))
  end.

(** The three numbers [status] prints: [Running], [Completed], [Total]. *)
Definition status (w : World) : M (nat * nat * nat) :=
  workers <- list_workers w ;;
  running <- lift (count_equal "status" "running" workers) ;;
  completed <- lift (count_equal "status" "completed" workers) ;;
  ret (running, completed, List.length workers).

End Blaude.

(* ------------------------------------------------------------------ *)
(** ** [worker_tui.py]: what a box shows, which box is selected *)

Module WorkerBox.

(** The texts [update_worker] hands to the three widgets of a box. *)
Record Box : Type := {
  header : string;
  content : string;
  controls : string
}.

(** [d.get(key, default)] *)
Definition get_or (key : string) (default : pyval) (d : dict pyval) : pyval :=
  match Dict.get key d with
  | Some v => v
  | None => default
  end.

(** The truth value of a Python value. *)
Definition truthy (v : pyval) : bool :=
  match v with
  | PNone => false
  | PBool b => b
  | PInt z => negb (z =? 0)%Z
  | PFloat q => negb (Qnum q =? 0)%Z
  | PStr s => PyStr.truthy s
  | PList xs => match xs with [] => false | _ => true end
  | PDict kvs => match kvs with [] => false | _ => true end
  end.

(** A value as an operand of [float - value]. *)
Definition as_number (v : pyval) : outcome Q :=
  match v with
  | PBool b => Ok (if b then 1 # 1 else 0 # 1)%Q
  | PInt z => Ok (z # 1)%Q
  | PFloat q => Ok q
  | _ => Raise TypeError
  end.

(** The icon [status_icons] has for a status text, the default for any
    other text. *)
Definition icon_for (s : string) : string :=
  if String.eqb s "running" then "🟢"
  else if String.eqb s "completed" then "✅"
  else if String.eqb s "killed" then "🔴"
  else if String.eqb s "dead" then "💀"
  else if String.eqb s "failed" then "❌"
  else "⚪".

(** [status_icons.get(status, default)]: a list or a dict is no key. *)
Definition status_icon (status : pyval) : outcome string :=
  match status with
  | PStr s => Ok (icon_for s)
  | PList _ | PDict _ => Raise TypeError
  | _ => Ok "⚪"
  end.

(** The duration text of a box header. *)
Definition duration (age : Z) : string :=
  if (age <? 60)%Z then PyStr.of_int age ++ "s"
  else if (age <? 3600)%Z then
    PyStr.of_int (age / 60) ++ "m " ++ PyStr.of_int (age mod 60) ++ "s"
  else
    PyStr.of_int (age / 3600) ++ "h "
    ++ PyStr.of_int ((age mod 3600) / 60) ++ "m".

(** [status == text] *)
Definition is_text (text : string) (v : pyval) : bool :=
  match v with
  | PStr s => String.eqb s text
  | _ => false
  end.

Definition controls_for (status : pyval) : string :=
  if is_text "running" status then "[k]Kill [s]Steer [l]Logs [p]Pause"
  else if is_text "completed" status
       then "[v]View Result [r]Restart [x]Remove"
       else "[r]Restart [x]Remove [l]Logs".

Definition get_empty_slot_content : string :=
  let nl := String PyStr.LF "" in
  "[n] New Worker" ++ nl ++ nl
  ++ "[t] Quick Templates:" ++ nl
  ++ "  • Fix Tests  " ++ nl
  ++ "  • Update Docs" ++ nl
  ++ "  • Deploy Staging" ++ nl
  ++ "  • Code Review" ++ nl
  ++ "  • Debug Issue".

Section Box.

Variable w : World.

(** [f"{budget:.2f}"] *)
Variable format_2f : pyval -> outcome string.

(** [str(v)], as an f-string interpolates a value *)
Variable py_str : pyval -> string.

(** The loop over [lines[-30:]]; whatever is raised while a result line is
    looked at is caught, and the loop goes on to the next line. *)
Fixpoint reasoning_loop (lines meaningful_lines : list string)
  : list string :=
  match lines with
  | [] => meaningful_lines
  | line :: rest =>
      if meaningful line then
        if PyStr.contains RESULT_MARKER line then
          match json_loads w line with
          | JSONDecodeError | ParseRaises _ =>
              reasoning_loop rest meaningful_lines
          | Parsed data =>
              match PyVal.contains "result" data with
              | Ok true =>
                  match PyVal.getitem "result" data with
                  | Ok (PStr result) =>
                      reasoning_loop rest
                        (meaningful_lines
                         ++ firstn 5 (PyStr.split PyStr.LF result))
                  | _ => reasoning_loop rest meaningful_lines
                  end
              | _ => reasoning_loop rest meaningful_lines
              end
          end
        else reasoning_loop rest (meaningful_lines ++ [PyStr.strip line])
      else reasoning_loop rest meaningful_lines
  end.

(** The body of the [try] of [get_worker_reasoning]. *)
Definition reasoning_body (worker_data : dict pyval) : outcome string :=
  let log_file := get_or "log_file" (PStr "") worker_data in
  if negb (truthy log_file) then Ok "No log file available"
  else
    match log_file with
    | PStr path =>
        match fs w path with
        | Missing => Ok "No log file available"
        | Unreadable e => Raise e
        | Readable content =>
            let lines := PyStr.split PyStr.LF content in
            let display_lines :=
              last_n 8 (reasoning_loop (last_n 30 lines) []) in
            match display_lines with
            | [] => Ok "Worker starting..."
            | _ :: _ => Ok (PyStr.join (String PyStr.LF "") display_lines)
            end
        end
    | _ => Raise TypeError
    end.

Definition get_worker_reasoning (worker_data : dict pyval) : string :=
  match reasoning_body worker_data with
  | Ok text => text
  | Raise e => "Error reading log: " ++ str_exn w e
  end.

(** [update_worker]: [None] and the empty dict give the empty slot.
    Everything that can raise comes before the first widget is touched. *)
Definition update_worker (worker_data : option (dict pyval)) : outcome Box :=
  match worker_data with
  | Some ((_ :: _) as data) =>
      and_then (PyVal.getitem "name" (PDict data)) (fun name =>
      and_then (PyVal.getitem "status" (PDict data)) (fun status =>
      let model := get_or "model" (PStr "unknown") data in
      and_then (as_number (get_or "start_time" (PFloat (now w)) data))
        (fun started =>
      let age := py_int (Qminus (now w) started) in
      let budget := get_or "budget" (PInt 0) data in
      and_then (status_icon status) (fun icon =>
      and_then (format_2f budget) (fun budget_text =>
      Ok {| header := icon ++ " " ++ py_str name ++ " | " ++ py_str model
                      ++ " | $" ++ budget_text ++ " | " ++ duration age;
            content := get_worker_reasoning data;
            controls := controls_for status |})))))
  | _ =>
      Ok {| header := "[ Empty Slot ]";
            content := get_empty_slot_content;
            controls := "[n]New Worker [t]Templates" |}
  end.

End Box.

End WorkerBox.

Module BlaudeTUI.

(** [on_key]: the selected box once the key has been handled. *)
Definition on_key (key : string) (selected_worker : Z) : Z :=
  if String.eqb key "h" && (0 <? selected_worker)%Z
  then (selected_worker - 1) mod 8
  else if String.eqb key "l" && (selected_worker <? 7)%Z
  then (selected_worker + 1) mod 8
  else if String.eqb key "j" && (selected_worker <? 4)%Z
  then selected_worker + 4
  else if String.eqb key "k" && (4 <=? selected_worker)%Z
  then selected_worker - 4
  else selected_worker.

End BlaudeTUI.

(* ------------------------------------------------------------------ *)
(** ** More scenarios and words *)

(** The agent of [t1] has exited and left a result record whose [result]
    is an empty list. *)
Definition list_log_world : World :=
  mk_world (one_file t1_log (Readable list_line))
           (one_json list_line (PDict [("result", PList [])])) true false.

(** A second worker, stored before [t1], whose agent has exited and left
    that record in its own log. *)
Definition a_log : string := "/tmp/blaude-logs/a.log".

Definition a_running : Worker :=
  {| pid := Some 4141%Z;
     session_id := "0b9d3c6e-52a1-4c1f-8a77-3e5d9f2c4a10";
     model := "haiku"; budget := (2 # 1)%Q; notify_target := "main";
     prompt := "Update the changelog"; start_time := (1600 # 1)%Q;
     status := "running"; log_file := a_log; background := true;
     end_time := None |}.

Definition a_t1_runner : Runner :=
  {| workers := [("a", a_running); ("t1", t1_running)];
     logs_dir := "/tmp/blaude-logs"; trace := [] |}.

Definition a_list_world : World :=
  mk_world (one_file a_log (Readable list_line))
           (one_json list_line (PDict [("result", PList [])])) true false.

(** The runner after a sequence of operations, each in the world of its
    moment. *)
Fixpoint after_all (steps : list (World * operation)) (r : Runner) : Runner :=
  match steps with
  | [] => r
  | (w, op) :: rest => after_all rest (after w op r)
  end.

(** The record is one the monitor and [kill_worker] act on: [running],
    with a [pid] that is neither [None] nor [0]. *)
Definition supervised (wk : Worker) : bool :=
  String.eqb (status wk) "running"
  && match live_pid wk with Some _ => true | None => false end.

(** The registries handed to [json.dump], in the order of the calls. *)
Definition saved (tr : list event) : list (dict Worker) :=
  flat_map (fun ev => match ev with
                      | EvSave snapshot => [snapshot]
                      | _ => []
                      end) tr.

(** The registry last handed to [json.dump], if any. *)
Definition last_saved (tr : list event) : option (dict Worker) :=
  last (map Some (saved tr)) None.

(** No save between [r] and [r']. *)
Definition same_saved (r r' : Runner) : Prop :=
  saved (trace r') = saved (trace r).

(** Between [r] and [r'] either nothing was saved and the registry is the
    same, or the last save was of the registry as [r'] has it. *)
Definition persisted (r r' : Runner) : Prop :=
  (workers r' = workers r /\ same_saved r r')
  \/ last_saved (trace r') = Some (workers r').

(** The process groups [os.killpg] was called on, in the order of the
    calls. *)
Definition signalled (tr : list event) : list Z :=
  flat_map (fun ev => match ev with
                      | EvKillpg p => [p]
                      | _ => []
                      end) tr.

(** No [os.killpg] between [r] and [r']. *)
Definition same_signalled (r r' : Runner) : Prop :=
  signalled (trace r') = signalled (trace r).

(** The count of the notifications for [name] is the same in [r'] as in
    [r]. *)
Definition same_count (name : string) (r r' : Runner) : Prop :=
  notified name (trace r') = notified name (trace r).

(** How many records of a registry have the status [s]. *)
Definition count_status (s : string) (d : dict Worker) : nat :=
  List.length (filter (fun kv => String.eqb (status (snd kv)) s) d).

(** A decimal digit. *)
Definition isdigit (c : ascii) : bool :=
  (48 <=? nat_of_ascii c) && (nat_of_ascii c <=? 57).

Fixpoint all_digits (s : string) : bool :=
  match s with
  | EmptyString => true
  | String c rest => isdigit c && all_digits rest
  end.

(* ================================================================== *)
(** * Properties *)

(* ------------------------------------------------------------------ *)
(** ** Lengths of strings *)

Lemma length_app (a b : string) :
  String.length (a ++ b) = String.length a + String.length b.
Proof.
  induction a as [|c a IH]; simpl; [reflexivity | now rewrite IH].
Qed.

Lemma length_slice_to (n : nat) (s : string) :
  String.length (PyStr.slice_to n s) <= n.
Proof.
  revert s; induction n as [|n IH]; intros [|c s]; simpl; try lia.
  specialize (IH s); lia.
Qed.

Lemma length_lstrip (s : string) :
  String.length (PyStr.lstrip s) <= String.length s.
Proof.
  induction s as [|c s IH]; simpl; [lia|].
  destruct (PyStr.isspace c); simpl; lia.
Qed.

Lemma length_rstrip (s : string) :
  String.length (PyStr.rstrip s) <= String.length s.
Proof.
  induction s as [|c s IH]; simpl; [lia|].
  destruct (PyStr.rstrip s) as [|c' kept]; simpl in *.
  - destruct (PyStr.isspace c); simpl; lia.
  - lia.
Qed.

Lemma length_strip (s : string) :
  String.length (PyStr.strip s) <= String.length s.
Proof.
  unfold PyStr.strip.
  pose proof (length_rstrip (PyStr.lstrip s)).
  pose proof (length_lstrip s). lia.
Qed.

Lemma length_clean_summary (s : string) :
  String.length (Notifier.clean_summary s) <= 503
  /\ (String.length s <= 500 ->
      String.length (Notifier.clean_summary s) <= String.length s).
Proof.
  unfold Notifier.clean_summary.
  pose proof (length_strip s) as Hs.
  destruct (500 <? String.length (PyStr.strip s)) eqn:E.
  - apply Nat.ltb_lt in E. split; [|lia].
    rewrite length_app.
    pose proof (length_slice_to 500 (PyStr.strip s)).
    change (String.length "...") with 3. lia.
  - apply Nat.ltb_ge in E. split; lia.
Qed.

(* ------------------------------------------------------------------ *)
(** ** The summariser *)

Section SummaryFacts.

Variable w : World.

Lemma truncate_result_text (s : string) :
  truncate_result (PStr s)
  = Ok (PStr (if 300 <? String.length s
              then PyStr.slice_to 300 s ++ "..." else s)).
Proof.
  unfold truncate_result; simpl.
  now destruct (300 <? String.length s).
Qed.

Lemma truncate_result_bound (v : pyval) (s : string) :
  truncate_result v = Ok (PStr s) -> String.length s <= 303.
Proof.
  destruct v; try discriminate.
  - rewrite truncate_result_text.
    destruct (300 <? String.length s0) eqn:E; intros H.
    + assert (Hs : s = PyStr.slice_to 300 s0 ++ "...") by congruence.
      rewrite Hs, length_app. pose proof (length_slice_to 300 s0).
      change (String.length "...") with 3. lia.
    + assert (Hs : s = s0) by congruence.
      apply Nat.ltb_ge in E. rewrite Hs. lia.
  - unfold truncate_result; simpl.
    destruct (300 <? List.length xs); discriminate.
  - unfold truncate_result; simpl.
    destruct (300 <? List.length kvs); discriminate.
Qed.

(** The scan goes past every line it passes over. *)
Lemma scan_result_passes (pre rest : list string) :
  (forall l, In l pre -> passed_over w l = true) ->
  scan_result w (pre ++ rest) = scan_result w rest.
Proof.
  induction pre as [|l pre IH]; intros Hpre; simpl; [reflexivity|].
  assert (Hl : passed_over w l = true) by (apply Hpre; now left).
  assert (IH' : scan_result w (pre ++ rest) = scan_result w rest)
    by (apply IH; intros; apply Hpre; now right).
  unfold passed_over in Hl.
  destruct (PyStr.contains RESULT_MARKER l); simpl in Hl; [|exact IH'].
  destruct (json_loads w l) as [data| |e]; [|exact IH'|discriminate].
  destruct (PyVal.contains "result" data) as [[|]|]; try discriminate.
  exact IH'.
Qed.

Lemma scan_result_none (lines : list string) :
  (forall l, In l lines -> passed_over w l = true) ->
  scan_result w lines = Ok None.
Proof.
  intros H. rewrite <- (app_nil_r lines).
  now rewrite scan_result_passes.
Qed.

(** The scan stops at an object whose [result] is text. *)
Lemma scan_result_hit (line : string) (rest : list string)
  (kvs : list (string * pyval)) (s : string) :
  PyStr.contains RESULT_MARKER line = true ->
  json_loads w line = Parsed (PDict kvs) ->
  Dict.get "result" kvs = Some (PStr s) ->
  scan_result w (line :: rest)
  = Ok (Some (PStr (if 300 <? String.length s
                    then PyStr.slice_to 300 s ++ "..." else s))).
Proof.
  intros Hm Hj Hget. simpl. rewrite Hm, Hj.
  assert (Hfind : exists k, find (fun kv => String.eqb (fst kv) "result") kvs
                            = Some (k, PStr s)).
  { clear Hj. induction kvs as [|[k v] kvs IH]; simpl in *; [discriminate|].
    destruct (String.eqb k "result").
    - inversion Hget; subst. now exists k.
    - now apply IH. }
  destruct Hfind as [k Hfind].
  assert (Hex : existsb (fun kv : string * pyval =>
                           String.eqb (fst kv) "result") kvs = true).
  { apply existsb_exists. apply find_some in Hfind. now exists (k, PStr s). }
  unfold PyVal.contains. rewrite Hex.
  unfold PyVal.getitem. rewrite Hfind. simpl.
  now rewrite truncate_result_text.
Qed.

(** The scan ends at a line on which [json.loads] raises something that
    is not [JSONDecodeError]. *)
Lemma scan_result_raises (line : string) (rest : list string) (e : exn) :
  PyStr.contains RESULT_MARKER line = true ->
  json_loads w line = ParseRaises e ->
  scan_result w (line :: rest) = Raise e.
Proof. intros Hm Hj. simpl. now rewrite Hm, Hj. Qed.

Lemma scan_result_bound (lines : list string) (s : string) :
  scan_result w lines = Ok (Some (PStr s)) -> String.length s <= 303.
Proof.
  induction lines as [|l lines IH]; simpl; [discriminate|].
  destruct (PyStr.contains RESULT_MARKER l); [|exact IH].
  destruct (json_loads w l) as [data| |e]; [|exact IH|discriminate].
  destruct (PyVal.contains "result" data) as [[|]|]; [|exact IH|discriminate].
  destruct (PyVal.getitem "result" data) as [result|]; simpl; [|discriminate].
  destruct (truncate_result result) as [v|] eqn:E; simpl; [|discriminate].
  intros [= ->].
  now apply truncate_result_bound in E.
Qed.

Lemma fallback_summary_bound (lines : list string) :
  String.length (fallback_summary lines) <= 200.
Proof. apply length_slice_to. Qed.

Lemma summarize_content_bound (content s : string) :
  summarize_content w content = Ok (PStr s) -> String.length s <= 303.
Proof.
  unfold summarize_content.
  destruct (scan_result w (rev (PyStr.split PyStr.LF content)))
    as [[v|]|] eqn:E; intros H.
  - assert (Hv : v = PStr s) by congruence. subst v.
    now apply scan_result_bound in E.
  - assert (Hs : s = fallback_summary (PyStr.split PyStr.LF content))
      by congruence.
    rewrite Hs. etransitivity; [apply fallback_summary_bound | lia].
  - discriminate.
Qed.

Lemma extract_summary_body_bound (path s : string) :
  extract_summary_body w path = Ok (PStr s) -> String.length s <= 303.
Proof.
  unfold extract_summary_body.
  destruct (fs w path) as [|e|content].
  - intros H. assert (Hs : s = NO_OUTPUT) by congruence.
    rewrite Hs. simpl. lia.
  - discriminate.
  - apply summarize_content_bound.
Qed.

Lemma extract_summary_ok (path : string) :
  exists v, _extract_summary w path = Ok v.
Proof.
  unfold _extract_summary.
  destruct (extract_summary_body w path) as [v|e]; eauto.
Qed.

End SummaryFacts.

(** The message carries [embedded_summary] and nothing else of the
    summary. *)
Lemma format_completion_message_embeds
  (worker_name duration : string) (summary : pyval) (message : string) :
  Notifier._format_completion_message worker_name summary duration = Ok message ->
  let head := "🎯 Worker **" ++ worker_name ++ "** completed ("
              ++ duration ++ ")" in
  let nl := String PyStr.LF "" in
  match Notifier.embedded_summary summary with
  | None => message = head
  | Some c => message = head ++ nl ++ "```" ++ nl ++ c ++ nl ++ "```"
              \/ message = head ++ nl ++ nl ++ c
  end.
Proof.
  unfold Notifier._format_completion_message, Notifier.embedded_summary.
  destruct summary; try discriminate.
  destruct (Notifier.shown (Notifier.clean_summary s)).
  - destruct (PyStr.contains_any _ _); intros H; [left | right]; congruence.
  - intros H; congruence.
Qed.

(** C7 (amended). For a log file that can be read, with its lines scanned
    from the end; a line is passed over when it does not hold the text
    [RESULT_MARKER], or [json.loads] raises [JSONDecodeError] on it, or
    [json.loads] returns a value without [result] in it.  When the first
    line that is not passed over is an object whose [result] is text, the
    summary is that text, cut to 300 characters with [...] appended when
    it is longer.  When [json.loads] raises anything else on that line
    ([RecursionError], a plain [ValueError]), the summary is
    [Error reading output: ] followed by the text of the error.  When
    every line is passed over, the summary is the last 20 lines without
    the lines that are empty or white space only and the ones starting
    with [2026-], the last 5 of those joined by newlines, cut to 200
    characters. *)
Theorem C7_summary_of_readable_log
  (w : World) (path content : string) :
  fs w path = Readable content ->
  let lines := PyStr.split PyStr.LF content in
  (forall (before : list string) (line : string) (later : list string)
          (kvs : list (string * pyval)) (s : string),
      lines = (before ++ line :: later)%list ->
      (forall l, In l later -> passed_over w l = true) ->
      PyStr.contains RESULT_MARKER line = true ->
      json_loads w line = Parsed (PDict kvs) ->
      Dict.get "result" kvs = Some (PStr s) ->
      _extract_summary w path
      = Ok (PStr (if 300 <? String.length s
                  then PyStr.slice_to 300 s ++ "..." else s)))
  /\ (forall (before : list string) (line : string) (later : list string)
             (e : exn),
      lines = (before ++ line :: later)%list ->
      (forall l, In l later -> passed_over w l = true) ->
      PyStr.contains RESULT_MARKER line = true ->
      json_loads w line = ParseRaises e ->
      _extract_summary w path
      = Ok (PStr ("Error reading output: " ++ str_exn w e)))
  /\ ((forall l, In l lines -> passed_over w l = true) ->
      _extract_summary w path
      = Ok (PStr (PyStr.slice_to 200
                    (PyStr.join (String PyStr.LF "")
                       (last_n 5 (filter meaningful (last_n 20 lines))))))).
Proof.
  intros Hfs lines. unfold _extract_summary, extract_summary_body.
  rewrite Hfs. unfold summarize_content. fold lines. split; [|split].
  - intros before line later kvs s Hsplit Hlater Hmark Hjson Hres.
    rewrite Hsplit, rev_app_distr. simpl. rewrite <- app_assoc. simpl.
    rewrite scan_result_passes
      by (intros l Hl; apply Hlater; now apply in_rev).
    now rewrite (@scan_result_hit w line (rev before) kvs s Hmark Hjson Hres).
  - intros before line later e Hsplit Hlater Hmark Hjson.
    rewrite Hsplit, rev_app_distr. simpl. rewrite <- app_assoc. simpl.
    rewrite scan_result_passes
      by (intros l Hl; apply Hlater; now apply in_rev).
    now rewrite (@scan_result_raises w line (rev before) e Hmark Hjson).
  - intros Hall.
    rewrite scan_result_none
      by (intros l Hl; apply Hall; now apply in_rev).
    reflexivity.
Qed.

Lemma C7_summary_of_readable_log_witness :
  _extract_summary done_world t1_log = Ok (PStr "Done")
  /\ _extract_summary long_number_world t1_log
     = Ok (PStr ("Error reading output: " ++ DIGIT_LIMIT_MESSAGE))
  /\ _extract_summary
       (mk_world (one_file t1_log
                    (Readable ("2026-03-01 start" ++ String PyStr.LF "all good")))
                 no_json true true) t1_log
     = Ok (PStr "all good").
Proof.
  split; [|split].
  - apply (proj1 (C7_summary_of_readable_log done_world t1_log eq_refl)
             ["starting"] done_line [""] [("result", PStr "Done")] "Done");
      try reflexivity.
    intros l [<-|[]]. reflexivity.
  - apply (proj1 (proj2 (C7_summary_of_readable_log long_number_world t1_log
                           eq_refl))
             ["starting"] long_number_line []
             (ValueError DIGIT_LIMIT_MESSAGE));
      try reflexivity.
    intros l [].
  - apply (proj2 (proj2 (C7_summary_of_readable_log
                    (mk_world (one_file t1_log
                       (Readable ("2026-03-01 start"
                                  ++ String PyStr.LF "all good")))
                       no_json true true) t1_log eq_refl))).
    intros l [<-|[<-|[]]]; reflexivity.
Defined.

(** C7, as stated, fails: an object with a [result] field whose line does
    not hold the text [RESULT_MARKER] is not looked at. *)
Lemma C7_counterexample :
  fs spaced_world t1_log = Readable done_line_spaced
  /\ json_loads spaced_world done_line_spaced
     = Parsed (PDict [("result", PStr "Done")])
  /\ _extract_summary spaced_world t1_log = Ok (PStr done_line_spaced)
  /\ _extract_summary spaced_world t1_log <> Ok (PStr "Done").
Proof.
  repeat split; try reflexivity. vm_compute. discriminate.
Qed.

(** C8 (amended). The summariser never raises. For a file that does not
    exist it returns the fixed text [NO_OUTPUT]; for one that cannot be
    read, and whenever something raises while the log is gone through, it
    returns [Error reading output: ] followed by the text of the error. *)
Theorem C8_summary_never_raises (w : World) (path : string) :
  (exists v, _extract_summary w path = Ok v)
  /\ (fs w path = Missing -> _extract_summary w path = Ok (PStr NO_OUTPUT))
  /\ (forall e, fs w path = Unreadable e ->
        _extract_summary w path
        = Ok (PStr ("Error reading output: " ++ str_exn w e)))
  /\ (forall e, extract_summary_body w path = Raise e ->
        _extract_summary w path
        = Ok (PStr ("Error reading output: " ++ str_exn w e))).
Proof.
  split; [apply extract_summary_ok|].
  unfold _extract_summary. split; [|split].
  - intros H. unfold extract_summary_body. now rewrite H.
  - intros e H. unfold extract_summary_body. now rewrite H.
  - intros e H. now rewrite H.
Qed.

Lemma C8_summary_never_raises_witness :
  _extract_summary (mk_world no_files no_json true true) t1_log
  = Ok (PStr NO_OUTPUT)
  /\ _extract_summary denied_world t1_log
     = Ok (PStr "Error reading output: [Errno 13] Permission denied").
Proof.
  split.
  - apply (proj1 (proj2 (C8_summary_never_raises
                           (mk_world no_files no_json true true) t1_log))).
    reflexivity.
  - apply (proj1 (proj2 (proj2 (C8_summary_never_raises denied_world t1_log)))
             (OSError "[Errno 13] Permission denied")).
    reflexivity.
Defined.

(** C8, as stated, fails: a file that cannot be read does not give the
    fixed placeholder. *)
Lemma C8_counterexample :
  fs denied_world t1_log = Unreadable (OSError "[Errno 13] Permission denied")
  /\ _extract_summary denied_world t1_log <> Ok (PStr NO_OUTPUT).
Proof.
  split; [reflexivity|]. vm_compute. discriminate.
Qed.

(** C9 (amended). The summary text carried by the completion message is at
    most 503 characters long: the 500 the dispatcher keeps and its [...].
    It is at most 303 characters long whenever the summariser got through
    the log without an exception, whatever the size and content of the
    log. *)
Theorem C9_embedded_summary_bound
  (w : World) (path : string) (v : pyval) (c : string) :
  _extract_summary w path = Ok v ->
  Notifier.embedded_summary v = Some c ->
  String.length c <= 503
  /\ (extract_summary_body w path = Ok v -> String.length c <= 303).
Proof.
  intros _ Hemb. unfold Notifier.embedded_summary in Hemb.
  destruct v; try discriminate.
  destruct (Notifier.shown (Notifier.clean_summary s)); [|discriminate].
  assert (Hc : c = Notifier.clean_summary s) by congruence. subst c.
  destruct (length_clean_summary s) as [H503 Hle]. split; [exact H503|].
  intros Hbody. apply extract_summary_body_bound in Hbody.
  specialize (Hle ltac:(lia)). lia.
Qed.

Lemma C9_embedded_summary_bound_witness :
  _extract_summary done_world t1_log = Ok (PStr "Done")
  /\ Notifier.embedded_summary (PStr "Done") = Some "Done"
  /\ String.length "Done" <= 503
  /\ String.length "Done" <= 303.
Proof.
  assert (H1 : _extract_summary done_world t1_log = Ok (PStr "Done"))
    by reflexivity.
  assert (H2 : Notifier.embedded_summary (PStr "Done") = Some "Done")
    by reflexivity.
  destruct (C9_embedded_summary_bound done_world t1_log H1 H2) as [Ha Hb].
  repeat split; [exact Ha | apply Hb; reflexivity].
Defined.

(** C9, as stated, fails: when the log cannot be read and the text of the
    error is long, the message carries 503 characters of summary. *)
Lemma C9_counterexample :
  exists s c : string,
    _extract_summary deep_log_denied_world deep_log = Ok (PStr s)
    /\ Notifier.embedded_summary (PStr s) = Some c
    /\ String.length c = 503.
Proof.
  eexists; eexists. split; [reflexivity|]. split; vm_compute; reflexivity.
Qed.

(* ------------------------------------------------------------------ *)
(** ** Dictionaries *)

Section DictFacts.

Context {V : Type}.
Implicit Types (d : dict V) (k : string) (v : V).

Lemma get_set_same k v d : Dict.get k (Dict.set k v d) = Some v.
Proof.
  induction d as [|[k' v'] d IH]; simpl.
  - now rewrite String.eqb_refl.
  - destruct (String.eqb k' k) eqn:E; simpl.
    + now rewrite String.eqb_refl.
    + now rewrite E.
Qed.

Lemma get_set_other k k' v d :
  k' <> k -> Dict.get k' (Dict.set k v d) = Dict.get k' d.
Proof.
  intros Hne. induction d as [|[k0 v0] d IH]; simpl.
  - apply String.eqb_neq in Hne. rewrite String.eqb_sym in Hne.
    now rewrite Hne.
  - destruct (String.eqb k0 k) eqn:E; simpl.
    + apply String.eqb_eq in E; subst k0.
      apply String.eqb_neq in Hne. rewrite String.eqb_sym in Hne.
      now rewrite Hne.
    + now rewrite IH.
Qed.

Lemma set_set_same k v1 v2 d :
  Dict.set k v2 (Dict.set k v1 d) = Dict.set k v2 d.
Proof.
  induction d as [|[k' v'] d IH]; simpl.
  - now rewrite String.eqb_refl.
  - destruct (String.eqb k' k) eqn:E; simpl.
    + now rewrite String.eqb_refl.
    + now rewrite E, IH.
Qed.

Lemma keys_set_present k v d :
  Dict.mem k d = true -> map fst (Dict.set k v d) = map fst d.
Proof.
  unfold Dict.mem. induction d as [|[k' v'] d IH]; simpl; [discriminate|].
  destruct (String.eqb k' k) eqn:E; simpl.
  - apply String.eqb_eq in E. now subst.
  - intros H. now rewrite IH.
Qed.

Lemma get_del_same k d : Dict.get k (Dict.del k d) = None.
Proof.
  unfold Dict.del. induction d as [|[k' v'] d IH]; simpl; [reflexivity|].
  destruct (String.eqb k' k) eqn:E; simpl; [exact IH|].
  now rewrite E.
Qed.

Lemma get_del_other k k' d :
  k' <> k -> Dict.get k' (Dict.del k d) = Dict.get k' d.
Proof.
  intros Hne. unfold Dict.del.
  induction d as [|[k0 v0] d IH]; simpl; [reflexivity|].
  destruct (String.eqb k0 k) eqn:E; simpl.
  - apply String.eqb_eq in E; subst k0.
    apply String.eqb_neq in Hne. rewrite String.eqb_sym in Hne.
    now rewrite Hne.
  - now rewrite IH.
Qed.

Lemma get_mutate_same k (f : V -> V) d v :
  Dict.get k d = Some v -> Dict.get k (Dict.mutate k f d) = Some (f v).
Proof.
  intros H. unfold Dict.mutate. rewrite H. apply get_set_same.
Qed.

Lemma get_mutate_other k k' (f : V -> V) d :
  k' <> k -> Dict.get k' (Dict.mutate k f d) = Dict.get k' d.
Proof.
  intros Hne. unfold Dict.mutate.
  destruct (Dict.get k d); [now apply get_set_other | reflexivity].
Qed.

Lemma mutate_mutate k (f g : V -> V) d :
  Dict.mutate k g (Dict.mutate k f d) = Dict.mutate k (fun v => g (f v)) d.
Proof.
  unfold Dict.mutate at 2 3. destruct (Dict.get k d) as [v|] eqn:E.
  - unfold Dict.mutate. rewrite get_set_same. apply set_set_same.
  - unfold Dict.mutate. now rewrite E.
Qed.

Lemma keys_mutate k (f : V -> V) d :
  map fst (Dict.mutate k f d) = map fst d.
Proof.
  unfold Dict.mutate. destruct (Dict.get k d) eqn:E; [|reflexivity].
  apply keys_set_present. unfold Dict.mem. now rewrite E.
Qed.

Lemma get_in k v d : Dict.get k d = Some v -> In (k, v) d.
Proof.
  induction d as [|[k' v'] d IH]; simpl; [discriminate|].
  destruct (String.eqb k' k) eqn:E.
  - apply String.eqb_eq in E. intros [= ->]. left. now subst.
  - intros H. right. now apply IH.
Qed.

Lemma in_get k v d : Dict.wf d -> In (k, v) d -> Dict.get k d = Some v.
Proof.
  unfold Dict.wf. induction d as [|[k' v'] d IH]; simpl; [tauto|].
  intros Hnd [Heq|Hin].
  - inversion Heq; subst. now rewrite String.eqb_refl.
  - inversion Hnd as [|? ? Hnotin Hnd']; subst.
    destruct (String.eqb k' k) eqn:E.
    + apply String.eqb_eq in E; subst k'.
      exfalso. apply Hnotin. apply in_map_iff. now exists (k, v).
    + now apply IH.
Qed.

End DictFacts.

(* ------------------------------------------------------------------ *)
(** ** Spawning twice, killing what does not run *)

(** C2. A spawn under a name that has a record fails and changes nothing:
    the registry is the same, and the trace shows no process started and
    no save. *)
Theorem C2_duplicate_spawn_rejected
  (w : World) (name prompt model : string) (budget : Q) (target : string)
  (bg : bool) (r : Runner) (existing : Worker) :
  Dict.get name (workers r) = Some existing ->
  run w name prompt model budget target bg r = (Ok false, r).
Proof.
  intros H. unfold run, bind, gets, Dict.mem. simpl. now rewrite H.
Qed.

Lemma C2_duplicate_spawn_rejected_witness :
  Dict.get "t1" (workers t1_runner) = Some t1_running
  /\ run foreground_world "t1" "Fix the failing tests" "haiku" (2 # 1) "main"
         true t1_runner
     = (Ok false, t1_runner).
Proof.
  split; [reflexivity|].
  apply (@C2_duplicate_spawn_rejected foreground_world "t1"
           "Fix the failing tests" "haiku" (2 # 1) "main" true t1_runner
           t1_running).
  reflexivity.
Defined.

(** C4. A kill on a name that is absent, or whose record is not
    [running], fails and changes nothing: no signal and no save in the
    trace, the registry as it was. *)
Theorem C4_kill_guard (w : World) (name : string) (r : Runner) :
  (forall wk, Dict.get name (workers r) = Some wk -> status wk <> "running") ->
  kill_worker w name r = (Ok false, r).
Proof.
  intros H. unfold kill_worker, bind, gets. simpl.
  destruct (Dict.get name (workers r)) as [wk|]; [|reflexivity].
  specialize (H wk eq_refl). apply String.eqb_neq in H. now rewrite H.
Qed.

Lemma C4_kill_guard_witness :
  kill_worker kill_lands_world "t2" t1_runner = (Ok false, t1_runner)
  /\ kill_worker kill_lands_world "t1"
       {| workers := [("t1", set_status "completed" t1_running)];
          logs_dir := "/tmp/blaude-logs"; trace := [] |}
     = (Ok false,
        {| workers := [("t1", set_status "completed" t1_running)];
           logs_dir := "/tmp/blaude-logs"; trace := [] |}).
Proof.
  split; apply C4_kill_guard; intros wk; simpl; intros H.
  - discriminate.
  - injection H as <-. discriminate.
Defined.

(** C5. A kill on a [running] record whose signal does not find the
    process group succeeds: the record becomes [dead] with its [end_time]
    set, and the registry so changed is saved. *)
Theorem C5_kill_finds_process_gone
  (w : World) (name : string) (r : Runner) (wk : Worker) (p : Z) :
  Dict.get name (workers r) = Some wk ->
  status wk = "running" ->
  live_pid wk = Some p ->
  killpg w p = false ->
  let gone := set_end_time (now w) (set_status "dead" wk) in
  let ws' := Dict.set name gone (workers r) in
  kill_worker w name r
  = (Ok true, {| workers := ws'; logs_dir := logs_dir r;
                 trace := trace r ++ [EvKillpg p; EvSave ws'] |})
  /\ Dict.get name ws' = Some gone
  /\ status gone = "dead"
  /\ end_time gone = Some (now w).
Proof.
  intros Hget Hrun Hpid Hsig gone ws'. split.
  - unfold kill_worker, bind, gets. simpl.
    rewrite Hget, Hrun, Hpid. simpl.
    unfold finish, bind, emit, modify_workers, save_workers, bind, gets,
      emit, ret.
    simpl. rewrite Hsig. simpl.
    rewrite mutate_mutate. unfold Dict.mutate. rewrite Hget.
    fold gone. fold ws'. now rewrite <- app_assoc.
  - split; [apply get_set_same | split; reflexivity].
Qed.

Lemma C5_kill_finds_process_gone_witness :
  let gone := set_end_time (1700 # 1) (set_status "dead" t1_running) in
  kill_worker already_gone_world "t1" t1_runner
  = (Ok true,
     {| workers := [("t1", gone)]; logs_dir := "/tmp/blaude-logs";
        trace := [EvKillpg 4242; EvSave [("t1", gone)]] |}).
Proof.
  apply (proj1 (@C5_kill_finds_process_gone already_gone_world "t1" t1_runner
                  t1_running 4242%Z eq_refl eq_refl eq_refl eq_refl)).
Defined.

(* ------------------------------------------------------------------ *)
(** ** Cleanup *)

Lemma str_in_In (s : string) (names : list string) :
  str_in s names = true <-> In s names.
Proof.
  unfold str_in. rewrite existsb_exists. split.
  - intros [x [Hin Heq]]. apply String.eqb_eq in Heq. now subst.
  - intros Hin. exists s. split; [exact Hin | apply String.eqb_refl].
Qed.

Section CleanupFacts.

Context {V : Type}.

Lemma del_all_filter (names : list string) (d : dict V) :
  Dict.del_all names d
  = filter (fun kv => negb (str_in (fst kv) names)) d.
Proof.
  unfold Dict.del_all. revert d.
  induction names as [|n names IH]; intros d; simpl.
  - symmetry. apply forallb_filter_id. now apply forallb_forall.
  - rewrite IH. unfold Dict.del.
    induction d as [|[k v] d IHd]; simpl; [reflexivity|].
    rewrite (String.eqb_sym k n).
    destruct (String.eqb n k); simpl; [exact IHd|].
    destruct (str_in k names); simpl; [exact IHd | now rewrite IHd].
Qed.

Lemma get_filter_keys (keep : string -> bool) (k : string) (d : dict V) :
  Dict.get k (filter (fun kv => keep (fst kv)) d)
  = if keep k then Dict.get k d else None.
Proof.
  induction d as [|[k' v] d IH]; simpl; [now destruct (keep k)|].
  destruct (String.eqb k' k) eqn:E.
  - apply String.eqb_eq in E; subst k'.
    destruct (keep k) eqn:Ek; simpl.
    + now rewrite String.eqb_refl.
    + exact IH.
  - destruct (keep k'); simpl; [now rewrite E|]; exact IH.
Qed.

Lemma get_del_all (names : list string) (k : string) (d : dict V) :
  Dict.get k (Dict.del_all names d)
  = if str_in k names then None else Dict.get k d.
Proof.
  rewrite del_all_filter.
  rewrite (get_filter_keys (fun key => negb (str_in key names))).
  now destruct (str_in k names).
Qed.

(** In a dictionary, the names picked by a test on the records are the
    names of the records that pass it. *)
Lemma picked_names (test : V -> bool) (d : dict V) (k : string) (v : V) :
  Dict.wf d -> In (k, v) d ->
  str_in k (map fst (filter (fun kv => test (snd kv)) d)) = test v.
Proof.
  intros Hwf Hin. destruct (test v) eqn:Et.
  - apply str_in_In. apply in_map_iff. exists (k, v). split; [reflexivity|].
    apply filter_In. now split.
  - destruct (str_in k _) eqn:Es; [|reflexivity].
    apply str_in_In in Es. apply in_map_iff in Es.
    destruct Es as [[k' v'] [Hk Hin']]. simpl in Hk; subst k'.
    apply filter_In in Hin'. destruct Hin' as [Hin' Ht]. simpl in Ht.
    apply in_get in Hin; [|exact Hwf].
    apply in_get in Hin'; [|exact Hwf].
    congruence.
Qed.

Lemma del_all_picked (test : V -> bool) (d : dict V) :
  Dict.wf d ->
  Dict.del_all (map fst (filter (fun kv => test (snd kv)) d)) d
  = filter (fun kv => negb (test (snd kv))) d.
Proof.
  intros Hwf. rewrite del_all_filter. apply filter_ext_in.
  intros [k v] Hin. simpl. now rewrite (@picked_names test d k v Hwf Hin).
Qed.

End CleanupFacts.

(** C6. Cleanup removes the records whose status is [completed], [killed]
    or [dead], keeps every other record as it is, and returns the number
    of records it removed. *)
Theorem C6_cleanup_selective (r : Runner) :
  Dict.wf (workers r) ->
  exists (n : nat) (r' : Runner),
    cleanup_completed r = (Ok n, r')
    /\ (forall name wk, Dict.get name (workers r) = Some wk ->
          (In (status wk) ["completed"; "killed"; "dead"] ->
             Dict.get name (workers r') = None)
          /\ (~ In (status wk) ["completed"; "killed"; "dead"] ->
                Dict.get name (workers r') = Some wk))
    /\ (forall name, Dict.get name (workers r) = None ->
          Dict.get name (workers r') = None)
    /\ n + List.length (workers r') = List.length (workers r).
Proof.
  intros Hwf.
  set (test := fun wk : Worker => str_in (status wk) TERMINAL_FOR_CLEANUP).
  set (to_remove := map fst (filter (fun kv => test (snd kv)) (workers r))).
  assert (Hrun : exists tr,
    cleanup_completed r
    = (Ok (List.length to_remove),
       {| workers := Dict.del_all to_remove (workers r);
          logs_dir := logs_dir r;
          trace := tr |})).
  { unfold cleanup_completed, save_workers, bind, gets, modify_workers.
    cbv beta iota zeta.
    change (map fst (filter (fun kv => str_in (status (snd kv))
                                         TERMINAL_FOR_CLEANUP) (workers r)))
      with to_remove.
    generalize to_remove. intros [|n names]; eexists; reflexivity. }
  destruct Hrun as [tr Hrun].
  eexists; eexists. split; [exact Hrun|]. cbn [workers].
  change ["completed"; "killed"; "dead"] with TERMINAL_FOR_CLEANUP.
  split; [|split].
  - intros name wk Hget.
    rewrite get_del_all. unfold to_remove.
    rewrite (@picked_names _ test (workers r) name wk Hwf (get_in _ _ Hget)).
    unfold test. split.
    + intros Hin. apply str_in_In in Hin. now rewrite Hin.
    + intros Hnot. destruct (str_in (status wk) TERMINAL_FOR_CLEANUP) eqn:E.
      * apply str_in_In in E. contradiction.
      * exact Hget.
  - intros name Hnone. rewrite get_del_all, Hnone.
    now destruct (str_in name to_remove).
  - unfold to_remove at 2. rewrite (@del_all_picked _ test (workers r) Hwf).
    unfold to_remove. rewrite length_map. apply filter_length.
Qed.

Lemma C6_cleanup_selective_witness :
  exists r' : Runner,
    cleanup_completed
      {| workers := [("t1", set_status "completed" t1_running);
                     ("t3", t1_running)];
         logs_dir := "/tmp/blaude-logs"; trace := [] |}
    = (Ok 1, r')
    /\ workers r' = [("t3", t1_running)].
Proof.
  destruct (@C6_cleanup_selective
              {| workers := [("t1", set_status "completed" t1_running);
                             ("t3", t1_running)];
                 logs_dir := "/tmp/blaude-logs"; trace := [] |})
    as [n [r' [Hrun _]]].
  - unfold Dict.wf. simpl.
    repeat constructor; simpl; intuition discriminate.
  - exists r'. revert Hrun. vm_compute. intros [= <- <-]. split; reflexivity.
Defined.

(* ------------------------------------------------------------------ *)
(** ** What a method preserves *)

Section Preservation.

Variable R : Runner -> Runner -> Prop.
Hypothesis R_refl : forall r, R r r.
Hypothesis R_trans : forall r1 r2 r3, R r1 r2 -> R r2 r3 -> R r1 r3.

Lemma preserves_ret {A} (a : A) : preserves R (ret a).
Proof. intros r. apply R_refl. Qed.

Lemma preserves_raise {A} (e : exn) : preserves R (@raise A e).
Proof. intros r. apply R_refl. Qed.

Lemma preserves_lift {A} (o : outcome A) : preserves R (lift o).
Proof. intros r. apply R_refl. Qed.

Lemma preserves_gets {A} (f : Runner -> A) : preserves R (gets f).
Proof. intros r. apply R_refl. Qed.

Lemma preserves_bind {A B} (m : M A) (k : A -> M B) :
  preserves R m -> (forall a, preserves R (k a)) -> preserves R (bind m k).
Proof.
  intros Hm Hk r. unfold bind. specialize (Hm r).
  destruct (m r) as [[a|e] r1]; simpl in *.
  - eapply R_trans; [exact Hm | apply Hk].
  - exact Hm.
Qed.

Lemma preserves_try {A} (m : M A) (handler : exn -> M A) :
  preserves R m -> (forall e, preserves R (handler e)) ->
  preserves R (try_except m handler).
Proof.
  intros Hm Hh r. unfold try_except. specialize (Hm r).
  destruct (m r) as [[a|e] r1]; simpl in *.
  - exact Hm.
  - eapply R_trans; [exact Hm | apply Hh].
Qed.

End Preservation.

(* ------------------------------------------------------------------ *)
(** ** What the methods do to the registry *)

Section RegistryRelation.

Variable Rd : dict Worker -> dict Worker -> Prop.
Hypothesis Rd_refl : forall d, Rd d d.
Hypothesis Rd_trans : forall d1 d2 d3, Rd d1 d2 -> Rd d2 d3 -> Rd d1 d3.

Lemma on_registry_refl (r : Runner) : on_registry Rd r r.
Proof. apply Rd_refl. Qed.

Lemma on_registry_trans (r1 r2 r3 : Runner) :
  on_registry Rd r1 r2 -> on_registry Rd r2 r3 -> on_registry Rd r1 r3.
Proof. apply Rd_trans. Qed.

Lemma keeps_emit (ev : event) : preserves (on_registry Rd) (emit ev).
Proof. intros r. apply Rd_refl. Qed.

Lemma keeps_modify (f : dict Worker -> dict Worker) :
  (forall d, Rd d (f d)) -> preserves (on_registry Rd) (modify_workers f).
Proof. intros H r. apply H. Qed.

(** One step through the text of a method. *)
Local Ltac keeps_step :=
  lazymatch goal with
  | |- preserves _ (bind _ _) =>
      apply preserves_bind; [exact on_registry_trans | | intro]
  | |- preserves _ (try_except _ _) =>
      apply preserves_try; [exact on_registry_trans | | intro]
  | |- preserves _ (ret _) => apply preserves_ret; exact on_registry_refl
  | |- preserves _ (gets _) => apply preserves_gets; exact on_registry_refl
  | |- preserves _ (lift _) => apply preserves_lift; exact on_registry_refl
  | |- preserves _ (emit _) => apply keeps_emit
  | |- preserves _ (match ?x with _ => _ end) => destruct x
  end.

Lemma keeps_save : preserves (on_registry Rd) save_workers.
Proof. unfold save_workers. repeat keeps_step. Qed.

Variable w : World.

Lemma keeps_handle_completion (name : string) :
  preserves (on_registry Rd) (_handle_completion w name).
Proof. unfold _handle_completion, notify_completion. repeat keeps_step. Qed.

Lemma keeps_launch (bg : bool) (cmd : list string) :
  preserves (on_registry Rd) (launch w bg cmd).
Proof. unfold launch. repeat keeps_step. Qed.

Lemma keeps_finish (name s : string) :
  (forall d, Rd d (Dict.mutate name (finished w s) d)) ->
  preserves (on_registry Rd) (finish w name s).
Proof.
  intros H r. unfold finish, bind, modify_workers, on_registry. simpl.
  rewrite mutate_mutate. apply H.
Qed.

Lemma keeps_kill (name : string) :
  (forall s d, In s ["killed"; "dead"] ->
               Rd d (Dict.mutate name (finished w s) d)) ->
  preserves (on_registry Rd) (kill_worker w name).
Proof.
  intros H. unfold kill_worker. repeat keeps_step;
    try apply keeps_save; apply keeps_finish; intros d; apply H; simpl; auto.
Qed.

Lemma keeps_cleanup :
  (forall names d, Rd d (Dict.del_all names d)) ->
  preserves (on_registry Rd) cleanup_completed.
Proof.
  intros H. unfold cleanup_completed. repeat keeps_step;
    try apply keeps_save. apply keeps_modify. apply H.
Qed.

Lemma keeps_check_loop (items : list (string * Worker)) (updated : bool) :
  (forall name d, Rd d (Dict.mutate name (finished w "completed") d)) ->
  preserves (on_registry Rd) (check_loop w items updated).
Proof.
  intros H. revert updated.
  induction items as [|[name wk] items IH]; intros updated; simpl;
    repeat keeps_step; try apply IH;
    [apply keeps_finish, H | apply keeps_handle_completion].
Qed.

Lemma keeps_check :
  (forall name d, Rd d (Dict.mutate name (finished w "completed") d)) ->
  preserves (on_registry Rd) (_check_worker_statuses w).
Proof.
  intros H. unfold _check_worker_statuses. repeat keeps_step;
    try apply keeps_save. now apply keeps_check_loop.
Qed.

Lemma keeps_run
  (name prompt model : string) (budget : Q) (target : string) (bg : bool) :
  (forall p sid lf d,
      Rd d (Dict.set name (new_worker w p sid model budget target prompt lf bg)
                     d)) ->
  preserves (on_registry Rd) (run w name prompt model budget target bg).
Proof.
  intros H. unfold run, set_env_wizard. repeat keeps_step;
    try apply keeps_save; try apply keeps_launch;
    try apply keeps_handle_completion.
  all: apply keeps_modify, H.
Qed.

End RegistryRelation.

(* ------------------------------------------------------------------ *)
(** ** The completion pipeline leaves the registry alone *)

Lemma same_registry_handle_completion (w : World) (name : string) :
  preserves same_registry (_handle_completion w name).
Proof.
  apply keeps_handle_completion; [reflexivity | intros; congruence].
Qed.

(* ------------------------------------------------------------------ *)
(** ** The statuses that get stored *)







(* ------------------------------------------------------------------ *)
(** ** A spawn in the foreground *)

Lemma end_time_rule_set (w : World) (name : string) (p : option Z)
  (sid model : string) (budget : Q) (target prompt lf : string)
  (d : dict Worker) :
  end_time_iff_terminal d ->
  end_time_iff_terminal
    (Dict.set name (new_worker w p sid model budget target prompt lf true) d).
Proof.
  intros Hd n wk. destruct (String.eqb n name) eqn:E.
  - apply String.eqb_eq in E; subst n. rewrite get_set_same.
    intros [= <-]. simpl. split; [congruence|].
    intros [H|[H|[H|[H|[]]]]]; discriminate.
  - apply String.eqb_neq in E. rewrite (get_set_other _ _ E). apply Hd.
Qed.

Lemma end_time_rule_finished (w : World) (name s : string) (d : dict Worker) :
  In s ["completed"; "killed"; "dead"] ->
  end_time_iff_terminal d ->
  end_time_iff_terminal (Dict.mutate name (finished w s) d).
Proof.
  intros Hs Hd n wk. destruct (String.eqb n name) eqn:E.
  - apply String.eqb_eq in E; subst n.
    destruct (Dict.get name d) as [v|] eqn:Hget.
    + rewrite (get_mutate_same name _ _ Hget). intros [= <-]. simpl.
      split; [intros _ | discriminate]. simpl in Hs. tauto.
    + unfold Dict.mutate. rewrite Hget. apply Hd.
  - apply String.eqb_neq in E. rewrite (get_mutate_other _ _ E). apply Hd.
Qed.

(** Every operation but a spawn in the foreground keeps the rule that a
    record has an [end_time] exactly when its status is terminal. *)
Lemma end_time_rule_kept_elsewhere (w : World) (op : operation) (r : Runner) :
  foreground_spawn op = false ->
  end_time_iff_terminal (workers r) ->
  end_time_iff_terminal (workers (after w op r)).
Proof.
  set (Rd := fun d d' : dict Worker =>
               end_time_iff_terminal d -> end_time_iff_terminal d').
  assert (Hrefl : forall d, Rd d d) by (intros d H; exact H).
  assert (Htrans : forall d1 d2 d3, Rd d1 d2 -> Rd d2 d3 -> Rd d1 d3)
    by (intros d1 d2 d3 H12 H23 H; auto).
  intros Hop.
  change (on_registry Rd r (after w op r)).
  destruct op as [name prompt model budget target bg|name| |]; simpl.
  - simpl in Hop. destruct bg; [|discriminate].
    apply keeps_run; auto. intros p sid lf d Hd.
    now apply end_time_rule_set.
  - apply keeps_kill; auto. intros s d Hs Hd.
    apply end_time_rule_finished; [simpl in *; tauto | exact Hd].
  - apply keeps_cleanup; auto. intros names d Hd n wk.
    rewrite get_del_all. destruct (str_in n names); [discriminate | apply Hd].
  - apply keeps_check; auto. intros name d Hd.
    apply end_time_rule_finished; [simpl; auto | exact Hd].
Qed.

Lemma foreground_record_breaks_rule (w : World) (name : string)
  (p : option Z) (sid model : string) (budget : Q) (target prompt lf : string)
  (d : dict Worker) :
  ~ end_time_iff_terminal
      (Dict.set name (new_worker w p sid model budget target prompt lf false) d).
Proof.
  intros Hrule.
  destruct (Hrule name _ (get_set_same _ _ _)) as [_ Hback].
  apply Hback; [simpl; auto | reflexivity].
Qed.

(** C3, where the code departs from it. A foreground spawn that succeeds
    leaves a record whose status is [completed] and which has no
    [end_time]: the registry no longer has an [end_time] exactly on its
    terminal records. *)
Theorem C3_foreground_record_without_end_time
  (w : World) (name prompt model : string) (budget : Q) (target : string)
  (r : Runner) :
  Dict.get name (workers r) = None ->
  auth_ok w = true ->
  subprocess_run w
    (claude_cmd w (uuid4 w) model budget (log_path w (logs_dir r) name) prompt)
  = Ok 0%Z ->
  exists (returned : outcome bool) (r' : Runner) (wk : Worker),
    run w name prompt model budget target false r = (returned, r')
    /\ Dict.get name (workers r') = Some wk
    /\ status wk = "completed"
    /\ end_time wk = None
    /\ ~ end_time_iff_terminal (workers r').
Proof.
  intros Hnew Hauth Hrun.
  unfold run, set_env_wizard, launch, try_except, save_workers, bind, gets,
    emit, lift, ret, modify_workers, Dict.mem.
  cbn [workers logs_dir trace]. rewrite Hnew, Hauth. cbn [negb].
  cbn [workers logs_dir trace]. rewrite Hrun. simpl.
  match goal with
  | |- context [_handle_completion w name ?r4] =>
      pose proof (same_registry_handle_completion w name r4) as Hsame;
    unfold same_registry, on_registry in Hsame;
      destruct (_handle_completion w name r4) as [[[]|e] r5]
  end; simpl in *.
  all: do 3 eexists; split; [reflexivity|]; rewrite Hsame, get_set_same;
    split; [reflexivity|]; split; [reflexivity|]; split; [reflexivity|];
    apply foreground_record_breaks_rule.
Qed.

Lemma C3_foreground_record_without_end_time_witness :
  exists (returned : outcome bool) (r' : Runner) (wk : Worker),
    run foreground_world "fg" "Count from 1 to 3" "haiku" (1 # 5) "main"
        false empty_runner = (returned, r')
    /\ Dict.get "fg" (workers r') = Some wk
    /\ status wk = "completed"
    /\ end_time wk = None
    /\ ~ end_time_iff_terminal (workers r').
Proof.
  apply (@C3_foreground_record_without_end_time foreground_world "fg"
           "Count from 1 to 3" "haiku" (1 # 5) "main" empty_runner);
    reflexivity.
Defined.

(* ------------------------------------------------------------------ *)
(** ** Notifications in the trace *)

Lemma notified_app (name : string) (tr1 tr2 : list event) :
  notified name (tr1 ++ tr2) = notified name tr1 + notified name tr2.
Proof.
  induction tr1 as [|ev tr1 IH]; simpl; [reflexivity|].
  destruct ev; simpl; try exact IH. rewrite IH. lia.
Qed.

Section CompletionFacts.

Variable w : World.

(** What [_handle_completion name] does to the runner: the registry is
    untouched, no notification for another worker is sent, and at most
    one for [name], exactly one when it returns and [name] has a
    record. *)
Lemma handle_completion_effect (name : string) (r : Runner) :
  forall o r', _handle_completion w name r = (o, r') ->
    workers r' = workers r
    /\ (forall other, other <> name ->
          notified other (trace r') = notified other (trace r))
    /\ notified name (trace r') <= notified name (trace r) + 1
    /\ (forall wk, Dict.get name (workers r) = Some wk -> o = Ok tt ->
          notified name (trace r') = notified name (trace r) + 1).
Proof.
  intros o r' Hrun.
  assert (Hsame : workers r' = workers r).
  { pose proof (same_registry_handle_completion w name r) as H.
    now rewrite Hrun in H. }
  split; [exact Hsame|].
  unfold _handle_completion, notify_completion, bind, gets, lift, emit, ret
    in Hrun.
  cbn [workers logs_dir trace] in Hrun.
  destruct (Dict.get name (workers r)) as [wk|].
  - destruct (_extract_summary w (log_file wk)) as [summary|e].
    + destruct (Notifier._format_completion_message _ _ _) as [message|e].
      * injection Hrun as <- <-. cbn [trace].
        split; [|split].
        -- intros other Hne. rewrite notified_app. simpl.
           apply String.eqb_neq in Hne. rewrite String.eqb_sym in Hne.
           rewrite Hne. lia.
        -- rewrite notified_app. simpl. rewrite String.eqb_refl. lia.
        -- intros _ _ _. rewrite notified_app. simpl.
           rewrite String.eqb_refl. lia.
      * injection Hrun as <- <-.
        split; [|split]; [reflexivity | lia | discriminate].
    + injection Hrun as <- <-.
      split; [|split]; [reflexivity | lia | discriminate].
  - injection Hrun as <- <-.
    split; [|split]; [reflexivity | lia | discriminate].
Qed.

(** One turn of the loop of the monitor. *)
Lemma check_loop_skip (name : string) (wk : Worker)
  (items : list (string * Worker)) (updated : bool) (r : Runner) :
  String.eqb (status wk) "running" = false \/ live_pid wk = None ->
  check_loop w ((name, wk) :: items) updated r = check_loop w items updated r.
Proof.
  intros [H|H]; simpl; rewrite H; [reflexivity|].
  now destruct (String.eqb (status wk) "running").
Qed.

Lemma check_loop_alive (name : string) (wk : Worker) (p : Z)
  (items : list (string * Worker)) (updated : bool) (r : Runner) :
  status wk = "running" -> live_pid wk = Some p -> kill0 w p = true ->
  check_loop w ((name, wk) :: items) updated r
  = check_loop w items updated (probed p r).
Proof.
  intros Hs Hp Hk. simpl. rewrite Hs, Hp. simpl.
  unfold bind at 1. unfold emit. now rewrite Hk.
Qed.

Lemma check_loop_gone (name : string) (wk : Worker) (p : Z)
  (items : list (string * Worker)) (updated : bool) (r : Runner) :
  status wk = "running" -> live_pid wk = Some p -> kill0 w p = false ->
  check_loop w ((name, wk) :: items) updated r
  = match _handle_completion w name (flipped w name "completed" (probed p r))
    with
    | (Ok _, r2) => check_loop w items true r2
    | (Raise e, r2) => (Raise e, r2)
    end.
Proof.
  intros Hs Hp Hk. simpl. rewrite Hs, Hp. simpl.
  unfold bind at 1. unfold emit. rewrite Hk.
  unfold bind at 1. unfold finish, bind at 1, modify_workers.
  cbn [workers logs_dir trace]. rewrite mutate_mutate.
  unfold bind at 1. reflexivity.
Qed.

End CompletionFacts.

(* ------------------------------------------------------------------ *)
(** ** A sweep of the monitor, one worker at a time *)

Lemma untouched_refl (name : string) (r : Runner) : untouched name r r.
Proof. now split. Qed.

Lemma untouched_trans (name : string) (r1 r2 r3 : Runner) :
  untouched name r1 r2 -> untouched name r2 r3 -> untouched name r1 r3.
Proof. intros [H1 H2] [H3 H4]. split; congruence. Qed.

Lemma untouched_probed (name : string) (p : Z) (r : Runner) :
  untouched name r (probed p r).
Proof.
  split; [reflexivity|]. unfold probed. cbn [trace].
  rewrite notified_app. simpl. lia.
Qed.

Section SweepFacts.

Variable w : World.

Lemma check_loop_spec (items : list (string * Worker)) :
  forall (updated : bool) (r : Runner) (o : outcome bool) (r' : Runner),
    NoDup (map fst items) ->
    (forall n v, In (n, v) items -> Dict.get n (workers r) = Some v) ->
    check_loop w items updated r = (o, r') ->
    forall name,
      (~ In name (map fst items) -> untouched name r r')
      /\ (forall v, In (name, v) items ->
            untouched name r r'
            \/ completed_by_monitor w name v (returns o) r r').
Proof.
  induction items as [|[n wk] items IH];
    intros updated r o r' Hnd Hcoh Hrun name.
  { simpl in Hrun. injection Hrun as <- <-.
    split; [intros _; apply untouched_refl | intros v []]. }
  simpl in Hnd. inversion Hnd as [|? ? Hfresh Hnd']; subst.
  assert (Hwk : Dict.get n (workers r) = Some wk)
    by (apply Hcoh; now left).
  (* a turn that leaves the registry and the notifications as they are *)
  assert (Hpass : forall r1,
    workers r1 = workers r ->
    (forall k, notified k (trace r1) = notified k (trace r)) ->
    check_loop w items updated r1 = (o, r') ->
    (~ In name (map fst ((n, wk) :: items)) -> untouched name r r')
    /\ (forall v, In (name, v) ((n, wk) :: items) ->
          untouched name r r'
          \/ completed_by_monitor w name v (returns o) r r')).
  { intros r1 Hws Htr Hrest.
    assert (Hcoh1 : forall k v, In (k, v) items ->
                                Dict.get k (workers r1) = Some v)
      by (intros k v Hin; rewrite Hws; apply Hcoh; now right).
    destruct (IH updated r1 o r' Hnd' Hcoh1 Hrest name) as [Hout Hin].
    assert (Hlift : untouched name r1 r' -> untouched name r r').
    { intros [Ha Hb]. split; [now rewrite Ha, Hws | now rewrite Hb, Htr]. }
    split.
    - intros Hnot. apply Hlift, Hout. simpl in Hnot. tauto.
    - intros v [Heq|Hv].
      + injection Heq as <- <-. left. now apply Hlift, Hout.
      + destruct (Hin v Hv) as [Hu|Hc]; [left; now apply Hlift|].
        right. unfold completed_by_monitor in *.
        now rewrite <- (Htr name). }
  destruct (String.eqb (status wk) "running") eqn:Hs.
  2:{ rewrite check_loop_skip in Hrun by (now left).
      now apply (Hpass r). }
  destruct (live_pid wk) as [p|] eqn:Hp.
  2:{ rewrite check_loop_skip in Hrun by (now right).
      now apply (Hpass r). }
  apply String.eqb_eq in Hs.
  destruct (kill0 w p) eqn:Hk.
  { rewrite (@check_loop_alive w n wk p items updated r Hs Hp Hk) in Hrun.
    apply (Hpass (probed p r)); [reflexivity | | exact Hrun].
    intros k. apply untouched_probed. }
  (* the probe finds the process gone *)
  rewrite (@check_loop_gone w n wk p items updated r Hs Hp Hk) in Hrun.
  set (r1 := flipped w n "completed" (probed p r)) in *.
  assert (Hflip : Dict.get n (workers r1) = Some (finished w "completed" wk))
    by (unfold r1, flipped, probed; cbn [workers];
        now apply get_mutate_same).
  assert (Hother : forall k, k <> n ->
                   Dict.get k (workers r1) = Dict.get k (workers r))
    by (intros k Hne; unfold r1, flipped, probed; cbn [workers];
        now apply get_mutate_other).
  assert (Htr1 : forall k, notified k (trace r1) = notified k (trace r))
    by (intros k; apply (untouched_probed k p r)).
  destruct (_handle_completion w n r1) as [[u|e] r2] eqn:Hh;
    destruct (@handle_completion_effect w n r1 _ _ Hh)
      as [Hws2 [Hothers [Hle Hone]]].
  - (* the pipeline returns and the loop goes on *)
    assert (Hcoh2 : forall k v, In (k, v) items ->
                                Dict.get k (workers r2) = Some v).
    { intros k v Hin. rewrite Hws2, Hother; [apply Hcoh; now right|].
      intros ->. apply Hfresh. apply in_map_iff. now exists (n, v). }
    destruct (IH true r2 o r' Hnd' Hcoh2 Hrun name) as [Hout Hin].
    destruct (String.eqb name n) eqn:En.
    + apply String.eqb_eq in En; subst name.
      destruct (Hout Hfresh) as [Hg Hn].
      split; [intros Hnot; exfalso; apply Hnot; now left|].
      intros v [Heq|Hv].
      * injection Heq as <-. right.
        split; [exact Hs|]. split; [now exists p|].
        split; [now rewrite Hg, Hws2|].
        destruct u. rewrite Hn, <- (Htr1 n).
        split; [exact Hle | intros _; now apply (Hone _ Hflip)].
      * exfalso. apply Hfresh. apply in_map_iff. now exists (n, v).
    + apply String.eqb_neq in En.
      assert (Hlift : untouched name r2 r' -> untouched name r r').
      { intros [Ha Hb]. split.
        - now rewrite Ha, Hws2, Hother.
        - now rewrite Hb, (Hothers name En), Htr1. }
      split.
      * intros Hnot. apply Hlift, Hout. intros Hin'. apply Hnot. now right.
      * intros v [Heq|Hv]; [congruence|].
        destruct (Hin v Hv) as [Hu|Hc]; [left; now apply Hlift|].
        right. unfold completed_by_monitor in *.
        now rewrite <- (Htr1 name), <- (Hothers name En).
  - (* the pipeline raises and the sweep ends there *)
    injection Hrun as <- <-.
    destruct (String.eqb name n) eqn:En.
    + apply String.eqb_eq in En; subst name.
      split; [intros Hnot; exfalso; apply Hnot; now left|].
      intros v [Heq|Hv].
      * injection Heq as <-. right.
        split; [exact Hs|]. split; [now exists p|].
        split; [now rewrite Hws2|].
        rewrite <- (Htr1 n). split; [exact Hle | discriminate].
      * exfalso. apply Hfresh. apply in_map_iff. now exists (n, v).
    + apply String.eqb_neq in En.
      assert (Hu : untouched name r r2).
      { split.
        - now rewrite Hws2, Hother.
        - now rewrite (Hothers name En), Htr1. }
      split; [intros _; exact Hu | intros v _; now left].
Qed.

End SweepFacts.

Section RaceFacts.

Variable w : World.

(** A sweep, seen from one record of the registry. *)
Lemma sweep_spec (r : Runner) (o : outcome unit) (r' : Runner)
  (name : string) (v : Worker) :
  Dict.wf (workers r) ->
  _check_worker_statuses w r = (o, r') ->
  Dict.get name (workers r) = Some v ->
  untouched name r r' \/ completed_by_monitor w name v (returns o) r r'.
Proof.
  intros Hwf Hrun Hget.
  unfold _check_worker_statuses in Hrun.
  unfold bind at 1 in Hrun. unfold gets in Hrun. unfold bind at 1 in Hrun.
  destruct (check_loop w (workers r) false r) as [o1 r1] eqn:Hloop.
  assert (Hcoh : forall n x, In (n, x) (workers r) ->
                             Dict.get n (workers r) = Some x)
    by (intros n x Hin; now apply in_get).
  destruct (@check_loop_spec w (workers r) false r o1 r1 Hwf Hcoh Hloop name)
    as [_ Hin].
  specialize (Hin v (get_in _ _ Hget)).
  destruct o1 as [[|]|e].
  - unfold save_workers, bind, gets, emit in Hrun.
    injection Hrun as <- <-.
    assert (Hsave : untouched name r1
              {| workers := workers r1; logs_dir := logs_dir r1;
                 trace := trace r1 ++ [EvSave (workers r1)] |}).
    { split; [reflexivity|]. cbn [trace]. rewrite notified_app. simpl. lia. }
    destruct Hsave as [Hg Hn].
    destruct Hin as [[Ha Hb]|(Hs & Hp & Hc & Hle & Hone)].
    + left. split; congruence.
    + right. unfold completed_by_monitor.
      rewrite Hg, Hn. now repeat split.
  - injection Hrun as <- <-. exact Hin.
  - injection Hrun as <- <-. exact Hin.
Qed.

(** The guard of [kill_worker]. *)
Lemma kill_worker_refused (name : string) (r : Runner) :
  (forall wk, Dict.get name (workers r) = Some wk -> status wk <> "running") ->
  kill_worker w name r = (Ok false, r).
Proof.
  intros H. unfold kill_worker, bind, gets. simpl.
  destruct (Dict.get name (workers r)) as [wk|]; [|reflexivity].
  specialize (H wk eq_refl). apply String.eqb_neq in H. now rewrite H.
Qed.

(** [kill_worker] past its guard. *)
Lemma kill_worker_signals (name : string) (r : Runner) (wk : Worker) (p : Z) :
  Dict.get name (workers r) = Some wk ->
  status wk = "running" ->
  live_pid wk = Some p ->
  let s := if killpg w p then "killed" else "dead" in
  let ws' := Dict.set name (finished w s wk) (workers r) in
  kill_worker w name r
  = (Ok true, {| workers := ws'; logs_dir := logs_dir r;
                 trace := trace r ++ [EvKillpg p; EvSave ws'] |}).
Proof.
  intros Hget Hrun Hpid s ws'.
  unfold kill_worker, bind, gets. simpl.
  rewrite Hget, Hrun, Hpid. simpl.
  unfold finish, bind, emit, modify_workers, save_workers, bind, gets,
    emit, ret.
  simpl. subst ws' s.
  destruct (killpg w p); simpl; rewrite mutate_mutate; unfold Dict.mutate;
    rewrite Hget; now rewrite <- app_assoc.
Qed.

End RaceFacts.

(* ------------------------------------------------------------------ *)
(** ** The pieces make up the methods *)

Section PiecesFacts.

Variable w : World.

(** The pieces of [kill_worker], run with nothing in between, are
    [kill_worker]. *)
Lemma kill_alone_is_kill_worker (name : string) (r : Runner) :
  exists (b : bool) (r' : Runner),
    kill_worker w name r = (Ok b, r')
    /\ kill_alone w 5 name KGuard r = (KReturned b, r').
Proof.
  unfold kill_worker, finish, save_workers, kill_alone, kill_piece,
    save_workers, bind, gets, emit, modify_workers, ret.
  cbn [workers logs_dir trace].
  destruct (Dict.get name (workers r)) as [wk|]; [|now do 2 eexists].
  destruct (String.eqb (status wk) "running"); [|now do 2 eexists].
  destruct (live_pid wk) as [p|]; [|now do 2 eexists].
  destruct (killpg w p); now do 2 eexists.
Qed.

Lemma sweep_alone_returned (fuel : nat) (o : outcome unit) (r : Runner) :
  sweep_alone w fuel (SReturned o) r = (SReturned o, r).
Proof. induction fuel as [|fuel IH]; simpl; [reflexivity | exact IH]. Qed.

Lemma sweep_alone_S (fuel : nat) (pc : sweep_pc) (r : Runner) :
  sweep_alone w (S fuel) pc r
  = match sweep_piece w pc r with
    | (Ok pc', r') => sweep_alone w fuel pc' r'
    | (Raise e, r') => (SReturned (Raise e), r')
    end.
Proof. reflexivity. Qed.

(** The pieces of the sweep, one by one. *)
Lemma sweep_piece_turn (n : string) (snap wk : Worker)
  (rest : list (string * Worker)) (updated : bool) (r : Runner) :
  Dict.get n (workers r) = Some wk ->
  sweep_piece w (STurn ((n, snap) :: rest) updated) r
  = (Ok match String.eqb (status wk) "running", live_pid wk with
        | true, Some p => SProbe n p rest updated
        | _, _ => STurn rest updated
        end, r).
Proof.
  intros Hget. unfold sweep_piece, bind, gets, ret. rewrite Hget.
  destruct (String.eqb (status wk) "running"); [|reflexivity].
  now destruct (live_pid wk).
Qed.

Lemma sweep_piece_turn_cases (n : string) (snap : Worker)
  (rest : list (string * Worker)) (updated : bool) (r : Runner) :
  sweep_piece w (STurn ((n, snap) :: rest) updated) r
  = (Ok (STurn rest updated), r)
  \/ exists p, sweep_piece w (STurn ((n, snap) :: rest) updated) r
               = (Ok (SProbe n p rest updated), r).
Proof.
  unfold sweep_piece, bind, gets, ret.
  destruct (String.eqb _ "running"); [|now left].
  destruct (live_pid _) as [p|]; [right; now exists p | now left].
Qed.

Lemma sweep_piece_probe (n : string) (p : Z) (rest : list (string * Worker))
  (updated : bool) (r : Runner) :
  sweep_piece w (SProbe n p rest updated) r
  = (Ok (if kill0 w p then STurn rest updated else SStatus n rest),
     probed p r).
Proof.
  unfold sweep_piece, bind, emit, ret, probed. now destruct (kill0 w p).
Qed.

Lemma sweep_piece_status (n : string) (rest : list (string * Worker))
  (r : Runner) :
  sweep_piece w (SStatus n rest) r
  = (Ok (SEndTime n rest),
     {| workers := Dict.mutate n (set_status "completed") (workers r);
        logs_dir := logs_dir r; trace := trace r |}).
Proof. reflexivity. Qed.

Lemma sweep_piece_end_time (n : string) (rest : list (string * Worker))
  (r : Runner) :
  sweep_piece w (SEndTime n rest) r
  = (Ok (SHandle n rest),
     {| workers := Dict.mutate n (set_end_time (now w)) (workers r);
        logs_dir := logs_dir r; trace := trace r |}).
Proof. reflexivity. Qed.

Lemma sweep_piece_handle (n : string) (rest : list (string * Worker))
  (r : Runner) :
  sweep_piece w (SHandle n rest) r
  = match _handle_completion w n r with
    | (Ok _, r') => (Ok (STurn rest true), r')
    | (Raise e, r') => (Raise e, r')
    end.
Proof. reflexivity. Qed.

Lemma sweep_alone_loop (items : list (string * Worker)) :
  forall (updated : bool) (r : Runner),
    NoDup (map fst items) ->
    (forall n v, In (n, v) items -> Dict.get n (workers r) = Some v) ->
    exists fuel,
      sweep_alone w fuel (STurn items updated) r
      = (SReturned (fst (after_loop (check_loop w items updated r))),
         snd (after_loop (check_loop w items updated r))).
Proof.
  induction items as [|[n wk] items IH]; intros updated r Hnd Hcoh.
  { exists 1. simpl. unfold bind, ret, save_workers, bind, gets, emit.
    now destruct updated. }
  simpl in Hnd. inversion Hnd as [|? ? Hfresh Hnd']; subst.
  assert (Hwk : Dict.get n (workers r) = Some wk) by (apply Hcoh; now left).
  assert (Hrest : forall r1, workers r1 = workers r ->
            forall k v, In (k, v) items -> Dict.get k (workers r1) = Some v)
    by (intros r1 Hws k v Hin; rewrite Hws; apply Hcoh; now right).
  destruct (String.eqb (status wk) "running") eqn:Hs.
  2:{ destruct (IH updated r Hnd' (Hrest r eq_refl)) as [fuel Hfuel].
      exists (S fuel). rewrite check_loop_skip by (now left).
      rewrite sweep_alone_S, (@sweep_piece_turn n wk wk items updated r Hwk), Hs.
      exact Hfuel. }
  destruct (live_pid wk) as [p|] eqn:Hp.
  2:{ destruct (IH updated r Hnd' (Hrest r eq_refl)) as [fuel Hfuel].
      exists (S fuel). rewrite check_loop_skip by (now right).
      rewrite sweep_alone_S, (@sweep_piece_turn n wk wk items updated r Hwk), Hs, Hp.
      exact Hfuel. }
  pose proof Hs as Hsb. apply String.eqb_eq in Hs.
  destruct (kill0 w p) eqn:Hk.
  { destruct (IH updated (probed p r) Hnd' (Hrest (probed p r) eq_refl))
      as [fuel Hfuel].
    exists (S (S fuel)).
    rewrite (@check_loop_alive w n wk p items updated r Hs Hp Hk).
    rewrite sweep_alone_S, (@sweep_piece_turn n wk wk items updated r Hwk),
      Hsb, Hp.
    rewrite sweep_alone_S, sweep_piece_probe, Hk. exact Hfuel. }
  rewrite (@check_loop_gone w n wk p items updated r Hs Hp Hk).
  set (r1 := flipped w n "completed" (probed p r)).
  assert (Hpieces : forall fuel,
    sweep_alone w (4 + fuel) (STurn ((n, wk) :: items) updated) r
    = sweep_alone w fuel (SHandle n items) r1).
  { intros fuel. change (4 + fuel) with (S (S (S (S fuel)))).
    rewrite sweep_alone_S, (@sweep_piece_turn n wk wk items updated r Hwk),
      Hsb, Hp.
    rewrite sweep_alone_S, sweep_piece_probe, Hk.
    rewrite sweep_alone_S, sweep_piece_status.
    rewrite sweep_alone_S, sweep_piece_end_time.
    cbn [workers logs_dir trace]. rewrite mutate_mutate. reflexivity. }
  destruct (_handle_completion w n r1) as [[[]|e] r2] eqn:Hh.
  - assert (Hcoh2 : forall k v, In (k, v) items ->
                                Dict.get k (workers r2) = Some v).
    { intros k v Hin.
      destruct (@handle_completion_effect w n r1 _ _ Hh) as [Hws2 _].
      rewrite Hws2. unfold r1, flipped, probed. cbn [workers].
      rewrite get_mutate_other; [apply Hcoh; now right|].
      intros ->. apply Hfresh. apply in_map_iff. now exists (n, v). }
    destruct (IH true r2 Hnd' Hcoh2) as [fuel Hfuel].
    exists (4 + S fuel).
    rewrite Hpieces, sweep_alone_S, sweep_piece_handle, Hh. exact Hfuel.
  - exists (4 + 1).
    rewrite Hpieces, sweep_alone_S, sweep_piece_handle, Hh. reflexivity.
Qed.

(** The pieces of a sweep, run with nothing in between, are
    [_check_worker_statuses]. *)
Lemma sweep_alone_is_check_worker_statuses (r : Runner) :
  Dict.wf (workers r) ->
  exists fuel,
    sweep_alone w fuel SSnapshot r
    = (SReturned (fst (_check_worker_statuses w r)),
       snd (_check_worker_statuses w r)).
Proof.
  intros Hwf.
  assert (Hcoh : forall n v, In (n, v) (workers r) ->
                             Dict.get n (workers r) = Some v)
    by (intros n v Hin; now apply in_get).
  destruct (sweep_alone_loop (workers r) false r Hwf Hcoh) as [fuel Hfuel].
  exists (S fuel). rewrite sweep_alone_S.
  change (sweep_piece w SSnapshot r) with (Ok (STurn (workers r) false), r).
  cbv beta iota. rewrite Hfuel.
  unfold _check_worker_statuses, after_loop, bind, gets.
  destruct (check_loop w (workers r) false r) as [[[|]|e] r1]; reflexivity.
Qed.

End PiecesFacts.

(* ------------------------------------------------------------------ *)
(** ** The two threads taking turns *)

(** The parts of [race_invariant], with [wk] for the record. *)
Ltac race_parts wk :=
  unfold race_invariant; cbn [workers logs_dir trace];
  refine (conj (ex_intro _ wk
                  (conj _ (conj _ (conj _ (conj _ (conj _ _))))))
               (conj _ (conj _ _))).

Section InterleavingFacts.

Variables (name : string) (p : Z) (base : nat).

Lemma notified_snoc_silent (n : string) (tr : list event) (ev : event) :
  (forall a b c, ev <> EvNotify a b c) ->
  notified n (tr ++ [ev]) = notified n tr.
Proof.
  intros Hev. rewrite notified_app.
  destruct ev; simpl; try lia. now destruct (Hev worker_name target message).
Qed.

(** A piece of the kill call keeps the invariant. *)
Lemma kill_piece_keeps (w : World) (kpc kpc' : kill_pc) (spc : sweep_pc)
  (r r' : Runner) :
  race_invariant name p base (kpc, spc, r) ->
  kill_piece w name kpc r = (Ok kpc', r') ->
  race_invariant name p base (kpc', spc, r').
Proof.
  intros ((wk & Hget & Hpid & Hst & Hset & Hpast & Hrun) & Hk & Hcount & Hfly)
         Hpiece.
  destruct kpc; simpl in Hpiece.
  - (* the tests *)
    unfold bind, gets, ret in Hpiece. rewrite Hget, Hpid in Hpiece.
    destruct (String.eqb (status wk) "running") eqn:Hs;
      injection Hpiece as <- <-; race_parts wk; auto; try discriminate.
    intros _. apply String.eqb_neq in Hs.
    destruct Hst; [contradiction | assumption].
  - (* the signal *)
    unfold bind, emit, ret in Hpiece. injection Hpiece as <- <-.
    race_parts wk; auto; try discriminate;
      rewrite ?notified_snoc_silent by discriminate; auto.
    destruct (killpg w p0); auto.
  - (* the status *)
    unfold bind, modify_workers, ret in Hpiece. injection Hpiece as <- <-.
    assert (Hfinal : In s FINAL_STATUSES)
      by (destruct Hk as [-> | ->]; simpl; auto).
    race_parts (set_status s wk); auto.
    + now apply get_mutate_same.
    + simpl. intros ->. destruct Hk; discriminate.
  - (* the end time *)
    unfold bind, modify_workers, ret in Hpiece. injection Hpiece as <- <-.
    race_parts (set_end_time (now w) wk); auto.
    now apply get_mutate_same.
  - (* the save *)
    unfold bind, save_workers, bind, gets, emit, ret in Hpiece.
    injection Hpiece as <- <-.
    race_parts wk; auto; rewrite ?notified_snoc_silent by discriminate; auto.
  - injection Hpiece as <- <-. race_parts wk; auto.
Qed.

(** A piece of the sweep keeps the invariant, also when it raises. *)
Lemma sweep_piece_keeps (w : World) (kpc : kill_pc) (spc : sweep_pc)
  (r r' : Runner) (o : outcome sweep_pc) :
  race_invariant name p base (kpc, spc, r) ->
  sweep_piece w spc r = (o, r') ->
  race_invariant name p base
    (kpc, match o with Ok spc' => spc' | Raise e => SReturned (Raise e) end, r').
Proof.
  intros ((wk & Hget & Hpid & Hst & Hset & Hpast & Hrun) & Hk & Hcount & Hfly)
         Hpiece.
  destruct spc as [|items updated|n p0 rest updated|n rest|n rest|n rest|o0].
  - (* the snapshot *)
    injection Hpiece as <- <-. race_parts wk; auto.
  - destruct items as [|[n snap] rest].
    + (* the loop is over *)
      destruct updated; injection Hpiece as <- <-; race_parts wk; auto;
        rewrite ?notified_snoc_silent by discriminate; auto; discriminate.
    + (* the tests of a turn *)
      destruct (String.eqb n name) eqn:En.
      * apply String.eqb_eq in En; subst n.
        rewrite (@sweep_piece_turn w name snap wk rest updated r Hget),
          Hpid in Hpiece.
        destruct (String.eqb (status wk) "running") eqn:Hs;
          injection Hpiece as <- <-; race_parts wk; auto; try discriminate.
        intros _. apply Hrun. now apply String.eqb_eq.
      * destruct (sweep_piece_turn_cases w n snap rest updated r)
          as [Hskip | [p0 Hprobe]];
          [rewrite Hskip in Hpiece | rewrite Hprobe in Hpiece];
          injection Hpiece as <- <-; race_parts wk; auto; simpl;
          rewrite ?En; discriminate.
  - (* the probe *)
    rewrite sweep_piece_probe in Hpiece. injection Hpiece as <- <-.
    simpl in Hfly.
    destruct (kill0 w p0); race_parts wk; auto; simpl;
      rewrite ?notified_snoc_silent by discriminate; auto; discriminate.
  - (* the status *)
    rewrite sweep_piece_status in Hpiece. injection Hpiece as <- <-.
    simpl in Hfly. destruct (String.eqb n name) eqn:En.
    + apply String.eqb_eq in En; subst n.
      race_parts (set_status "completed" wk); auto; simpl; auto;
        try discriminate.
      now apply get_mutate_same.
    + pose proof En as Enb. apply String.eqb_neq in En.
      race_parts wk; auto; simpl; rewrite ?Enb; try discriminate.
      rewrite get_mutate_other; auto.
  - (* the end time *)
    rewrite sweep_piece_end_time in Hpiece. injection Hpiece as <- <-.
    simpl in Hfly, Hpast. destruct (String.eqb n name) eqn:En.
    + apply String.eqb_eq in En; subst n.
      race_parts (set_end_time (now w) wk); auto; simpl; auto.
      now apply get_mutate_same.
    + pose proof En as Enb. apply String.eqb_neq in En.
      race_parts wk; auto; simpl; rewrite ?Enb; try discriminate.
      rewrite get_mutate_other; auto.
  - (* the completion pipeline *)
    rewrite sweep_piece_handle in Hpiece.
    destruct (_handle_completion w n r) as [o1 r1] eqn:Hh.
    destruct (@handle_completion_effect w n r _ _ Hh)
      as [Hws [Hothers [Hle _]]].
    simpl in Hfly, Hpast.
    destruct (String.eqb n name) eqn:En.
    + apply String.eqb_eq in En; subst n.
      specialize (Hfly eq_refl). specialize (Hpast eq_refl).
      assert (Hnot : status wk <> "running")
        by (intros Heq; rewrite Heq in Hpast; simpl in Hpast;
            intuition discriminate).
      destruct o1 as [[]|e]; injection Hpiece as <- <-;
        race_parts wk; auto; rewrite ?Hws; auto; try lia; try discriminate;
        intros Heq; contradiction.
    + apply String.eqb_neq in En.
      assert (Hsame : notified name (trace r1) = notified name (trace r))
        by (apply Hothers; congruence).
      destruct o1 as [[]|e]; injection Hpiece as <- <-;
        race_parts wk; auto; rewrite ?Hws, ?Hsame; auto; discriminate.
  - injection Hpiece as <- <-. race_parts wk; auto.
Qed.

(** Every step of the two threads keeps the invariant. *)
Lemma thread_step_keeps (c c' : config) :
  race_invariant name p base c ->
  thread_step name c c' ->
  race_invariant name p base c'.
Proof.
  intros Hinv Hstep.
  destruct Hstep as [w ? ? ? ? ? H | w ? ? ? ? ? H | w ? ? ? ? ? H | ? ?].
  - eapply kill_piece_keeps; eassumption.
  - apply (@sweep_piece_keeps w _ _ _ _ (Ok _) Hinv H).
  - apply (@sweep_piece_keeps w _ _ _ _ (Raise _) Hinv H).
  - destruct Hinv as ((wk & Hget & Hpid & Hst & Hset & Hpast & Hrun)
                      & Hk & Hcount & Hfly).
    race_parts wk; auto; discriminate.
Qed.

Lemma interleaving_keeps (c c' : config) :
  interleaving name c c' ->
  race_invariant name p base c ->
  race_invariant name p base c'.
Proof.
  induction 1 as [|c1 c2 c3 Hstep _ IH]; intros Hinv; [exact Hinv|].
  apply IH. eapply thread_step_keeps; eassumption.
Qed.

End InterleavingFacts.

(** The loop of the monitor, when it returns: every record of the
    snapshot that was [running] with a process that is gone has been
    written. *)
Lemma check_loop_completes (w : World) (items : list (string * Worker)) :
  forall (updated : bool) (r : Runner) (b : bool) (r' : Runner),
    NoDup (map fst items) ->
    (forall n v, In (n, v) items -> Dict.get n (workers r) = Some v) ->
    check_loop w items updated r = (Ok b, r') ->
    forall name wk p,
      In (name, wk) items ->
      status wk = "running" -> live_pid wk = Some p -> kill0 w p = false ->
      Dict.get name (workers r') = Some (finished w "completed" wk).
Proof.
  induction items as [|[n v] items IH];
    intros updated r b r' Hnd Hcoh Hrun name wk p Hin Hs Hp Hk.
  { destruct Hin. }
  simpl in Hnd. inversion Hnd as [|? ? Hfresh Hnd']; subst.
  assert (Hv : Dict.get n (workers r) = Some v) by (apply Hcoh; now left).
  (* the head is passed over, or probed and found alive *)
  assert (Hpass : forall r1 u,
    workers r1 = workers r ->
    (status v <> "running" \/ live_pid v = None
     \/ exists q, live_pid v = Some q /\ kill0 w q = true) ->
    check_loop w items u r1 = (Ok b, r') ->
    Dict.get name (workers r') = Some (finished w "completed" wk)).
  { intros r1 u Hws Hhead Hrest.
    destruct Hin as [Heq|Hin].
    - injection Heq as -> ->. exfalso.
      destruct Hhead as [H|[H|[q [Hq Hkq]]]]; congruence.
    - assert (Hcoh1 : forall k x, In (k, x) items ->
                                  Dict.get k (workers r1) = Some x)
        by (intros k x Hx; rewrite Hws; apply Hcoh; now right).
      exact (IH u r1 b r' Hnd' Hcoh1 Hrest name wk p Hin Hs Hp Hk). }
  destruct (String.eqb (status v) "running") eqn:Hsv.
  2:{ rewrite check_loop_skip in Hrun by (now left).
      apply String.eqb_neq in Hsv. apply (Hpass r updated); auto. }
  destruct (live_pid v) as [q|] eqn:Hpv.
  2:{ rewrite check_loop_skip in Hrun by (now right).
      apply (Hpass r updated); auto. }
  apply String.eqb_eq in Hsv.
  destruct (kill0 w q) eqn:Hkq.
  { rewrite (@check_loop_alive w n v q items updated r Hsv Hpv Hkq) in Hrun.
    apply (Hpass (probed q r) updated); auto. right. right. now exists q. }
  rewrite (@check_loop_gone w n v q items updated r Hsv Hpv Hkq) in Hrun.
  set (r1 := flipped w n "completed" (probed q r)) in *.
  assert (Hflip : Dict.get n (workers r1) = Some (finished w "completed" v))
    by (unfold r1, flipped, probed; cbn [workers];
        now apply get_mutate_same).
  assert (Hother : forall k, k <> n ->
                   Dict.get k (workers r1) = Dict.get k (workers r))
    by (intros k Hne; unfold r1, flipped, probed; cbn [workers];
        now apply get_mutate_other).
  destruct (_handle_completion w n r1) as [[u|e] r2] eqn:Hh; [|discriminate].
  destruct (@handle_completion_effect w n r1 _ _ Hh) as [Hws2 _].
  assert (Hcoh2 : forall k x, In (k, x) items ->
                              Dict.get k (workers r2) = Some x).
  { intros k x Hx. rewrite Hws2, Hother; [apply Hcoh; now right|].
    intros ->. apply Hfresh. apply in_map_iff. now exists (n, x). }
  destruct Hin as [Heq|Hin].
  - injection Heq as -> ->.
    destruct (@check_loop_spec w items true r2 (Ok b) r' Hnd' Hcoh2 Hrun name)
      as [Hout _].
    destruct (Hout Hfresh) as [Hg _]. now rewrite Hg, Hws2.
  - exact (IH true r2 b r' Hnd' Hcoh2 Hrun name wk p Hin Hs Hp Hk).
Qed.

(** A sweep that returns has completed the record of a process that is
    gone. *)
Lemma sweep_returned_completes (w : World) (r r' : Runner) (name : string)
  (wk : Worker) (p : Z) :
  Dict.wf (workers r) ->
  _check_worker_statuses w r = (Ok tt, r') ->
  Dict.get name (workers r) = Some wk ->
  status wk = "running" -> live_pid wk = Some p -> kill0 w p = false ->
  Dict.get name (workers r') = Some (finished w "completed" wk).
Proof.
  intros Hwf Hrun Hget Hs Hp Hk.
  unfold _check_worker_statuses in Hrun.
  unfold bind at 1 in Hrun. unfold gets in Hrun. unfold bind at 1 in Hrun.
  destruct (check_loop w (workers r) false r) as [[b|e] r1] eqn:Hloop;
    [|discriminate].
  assert (Hcoh : forall n x, In (n, x) (workers r) ->
                             Dict.get n (workers r) = Some x)
    by (intros n x Hin; now apply in_get).
  pose proof (@check_loop_completes w (workers r) false r b r1 Hwf Hcoh
                Hloop name wk p (get_in _ _ Hget) Hs Hp Hk) as Hdone.
  assert (Hws : workers r' = workers r1).
  { destruct b; [|now injection Hrun as <-].
    unfold save_workers, bind, gets, emit in Hrun. now injection Hrun as <-. }
  now rewrite Hws.
Qed.

(* ------------------------------------------------------------------ *)
(** ** A kill and a sweep over the same worker *)

(** C1 (amended). For a running worker with a process, a kill call and
    the sweeps of the monitor dispatch at most one notification for it,
    and once the kill call has returned its record is [completed],
    [killed] or [dead], however the two threads take turns and whatever
    the signal, the probes and the clock answer at each of their pieces.
    When the kill call and a sweep run one after the other:
    - with the kill first, the record ends [killed] (signal delivered) or
      [dead] (process group gone), the sweep leaves it alone and no
      notification is sent;
    - with the sweep first and its probe finding the process alive, the
      sweep leaves the record [running], the kill ends it [killed] or
      [dead] and no notification is sent;
    - with the sweep first, its probe finding the process gone, and the
      sweep returning, the record ends [completed], exactly one
      notification is sent, and the kill is refused and changes nothing;
    - with the sweep first, its probe finding the process gone, and the
      sweep raising (its completion pipeline raises, for this worker or
      for one before it in the registry), either the record is
      [completed], the kill is refused and at most one notification has
      been sent, or the record is still [running], the kill ends it
      [killed] or [dead] and no notification is sent. *)
Theorem C1_completion_at_most_once
  (w_kill w_sweep : World) (name : string) (r : Runner) (wk : Worker) (p : Z) :
  Dict.wf (workers r) ->
  Dict.get name (workers r) = Some wk ->
  status wk = "running" ->
  live_pid wk = Some p ->
  let by_kill :=
    finished w_kill (if killpg w_kill p then "killed" else "dead") wk in
  let by_sweep := finished w_sweep "completed" wk in
  (forall b spc r',
      interleaving name (KGuard, SSnapshot, r) (KReturned b, spc, r') ->
      notified name (trace r') <= notified name (trace r) + 1
      /\ exists wk',
           Dict.get name (workers r') = Some wk'
           /\ In (status wk') ["completed"; "killed"; "dead"])
  /\ (forall killed r1 swept r2,
      kill_worker w_kill name r = (killed, r1) ->
      _check_worker_statuses w_sweep r1 = (swept, r2) ->
      killed = Ok true
      /\ Dict.get name (workers r2) = Some by_kill
      /\ notified name (trace r2) = notified name (trace r))
  /\ (forall swept r1 killed r2,
        _check_worker_statuses w_sweep r = (swept, r1) ->
        kill_worker w_kill name r1 = (killed, r2) ->
        let sweep_won :=
          Dict.get name (workers r1) = Some by_sweep
          /\ killed = Ok false
          /\ r2 = r1 in
        let kill_won :=
          Dict.get name (workers r1) = Some wk
          /\ killed = Ok true
          /\ Dict.get name (workers r2) = Some by_kill
          /\ notified name (trace r2) = notified name (trace r) in
        notified name (trace r2) <= notified name (trace r) + 1
        /\ (kill0 w_sweep p = true -> kill_won)
        /\ (kill0 w_sweep p = false -> returns swept = true ->
            sweep_won
            /\ notified name (trace r2) = notified name (trace r) + 1)
        /\ (kill0 w_sweep p = false -> returns swept = false ->
            sweep_won \/ kill_won)).
Proof.
  intros Hwf Hget Hs Hp by_kill by_sweep. split; [|split].
  - intros b spc r' Hrace.
    assert (Hstart : race_invariant name p (notified name (trace r))
                       (KGuard, SSnapshot, r)).
    { race_parts wk; auto; try discriminate; lia. }
    destruct (@interleaving_keeps name p _ _ _ Hrace Hstart)
      as ((wk' & Hget' & _ & _ & Hfinal & _) & _ & Hcount & _).
    split; [exact Hcount|].
    exists wk'. split; [exact Hget' | now apply Hfinal].
  - intros killed r1 swept r2 Hkill Hsweep.
    rewrite (@kill_worker_signals w_kill name r wk p Hget Hs Hp) in Hkill.
    fold by_kill in Hkill. injection Hkill as <- <-.
    split; [reflexivity|].
    match type of Hsweep with
    | _check_worker_statuses _ ?x = _ => set (r1 := x) in *
    end.
    assert (Hget1 : Dict.get name (workers r1) = Some by_kill)
      by apply get_set_same.
    assert (Hwf1 : Dict.wf (workers r1)).
    { unfold Dict.wf, r1. cbn [workers]. rewrite keys_set_present; [exact Hwf|].
      unfold Dict.mem. now rewrite Hget. }
    assert (Hn1 : notified name (trace r1) = notified name (trace r)).
    { unfold r1. cbn [trace]. rewrite notified_app. simpl. lia. }
    destruct (@sweep_spec w_sweep r1 swept r2 name by_kill Hwf1 Hsweep Hget1)
      as [[Hg Hn]|(Hrunning & _)].
    + split; congruence.
    + exfalso. unfold by_kill in Hrunning. simpl in Hrunning.
      destruct (killpg w_kill p); discriminate.
  - intros swept r1 killed r2 Hsweep Hkill sweep_won kill_won.
    destruct (@sweep_spec w_sweep r swept r1 name wk Hwf Hsweep Hget)
      as [[Hg Hn]|(_ & [p' [Hp' Hk']] & Hc & Hle & Hone)].
    + (* the sweep has left the record as it was *)
      rewrite Hget in Hg.
      rewrite (@kill_worker_signals w_kill name r1 wk p Hg Hs Hp) in Hkill.
      fold by_kill in Hkill. injection Hkill as <- <-. cbn [trace workers].
      assert (Hn2 : notified name
                      (trace r1 ++ [EvKillpg p;
                                    EvSave (Dict.set name by_kill (workers r1))])
                    = notified name (trace r))
        by (rewrite notified_app; simpl; lia).
      assert (Hwon : kill_won).
      { unfold kill_won. cbn [trace workers].
        split; [exact Hg|]. split; [reflexivity|].
        split; [apply get_set_same | exact Hn2]. }
      split; [lia|]. split; [intros _; exact Hwon|]. split.
      * intros Hgone Hret. exfalso.
        destruct swept as [[]|e]; [|discriminate].
        pose proof (@sweep_returned_completes w_sweep r r1 name wk p Hwf
                      Hsweep Hget Hs Hp Hgone) as Hdone.
        rewrite Hg in Hdone. injection Hdone as Hdone.
        apply (f_equal status) in Hdone. simpl in Hdone. congruence.
      * intros _ _. right. exact Hwon.
    + (* the sweep has completed the record *)
      assert (Hpp : p' = p) by congruence. subst p'.
      rewrite kill_worker_refused in Hkill
        by (intros x Hx; rewrite Hc in Hx; injection Hx as <-; discriminate).
      injection Hkill as <- <-.
      assert (Hwon : sweep_won) by (unfold sweep_won; now repeat split).
      split; [exact Hle|]. split; [intros Halive; congruence|]. split.
      * intros _ Hret. split; [exact Hwon | now apply Hone].
      * intros _ _. left. exact Hwon.
Qed.

Lemma C1_completion_at_most_once_witness :
  Dict.get "t1" (workers t1_runner) = Some t1_running
  /\ Dict.get "t1"
       (workers (snd (_check_worker_statuses kill_lands_world
                        (snd (kill_worker kill_lands_world "t1" t1_runner)))))
     = Some (finished kill_lands_world "killed" t1_running)
  /\ notified "t1"
       (trace (snd (_check_worker_statuses kill_lands_world
                      (snd (kill_worker kill_lands_world "t1" t1_runner)))))
     = notified "t1" (trace t1_runner)
  /\ notified "t1"
       (trace (snd (kill_worker kill_lands_world "t1"
                      (snd (_check_worker_statuses kill_lands_world
                              t1_runner)))))
     = notified "t1" (trace t1_runner) + 1.
Proof.
  assert (Hwf : Dict.wf (workers t1_runner)).
  { unfold Dict.wf. simpl. repeat constructor. simpl. tauto. }
  destruct (proj1 (proj2 (@C1_completion_at_most_once kill_lands_world
                            kill_lands_world "t1" t1_runner t1_running
                            4242%Z Hwf eq_refl eq_refl eq_refl))
              _ _ _ _ (surjective_pairing _) (surjective_pairing _))
    as (_ & Hrec & Hcount).
  destruct (proj2 (proj2 (@C1_completion_at_most_once kill_lands_world
                            kill_lands_world "t1" t1_runner t1_running
                            4242%Z Hwf eq_refl eq_refl eq_refl))
              _ _ _ _ (surjective_pairing _) (surjective_pairing _))
    as (_ & _ & Hgone & _).
  split; [reflexivity|]. split; [exact Hrec|]. split; [exact Hcount|].
  apply Hgone; reflexivity.
Defined.

(** C1, as stated, fails: the kill signal lands while the process is
    alive, the monitor then finds the record [killed], and no
    notification at all is dispatched for the worker. *)
Lemma C1_counterexample :
  exists r1 r2,
    kill_worker kill_lands_world "t1" t1_runner = (Ok true, r1)
    /\ _check_worker_statuses kill_lands_world r1 = (Ok tt, r2)
    /\ option_map status (Dict.get "t1" (workers r2)) = Some "killed"
    /\ notified "t1" (trace r2) = 0
    /\ notified "t1" (trace r2) <> 1.
Proof.
  do 2 eexists. split; [reflexivity|]. split; [reflexivity|].
  split; [reflexivity|]. split; [reflexivity | discriminate].
Qed.


Ltac sweep_turn W :=
  eapply interleaving_step; [apply sweep_moves with (w := W); reflexivity|].
Ltac kill_turn W :=
  eapply interleaving_step; [apply kill_moves with (w := W); reflexivity|].

(** When the two calls overlap, the status that stays is the one written
    last: here the process is gone, both calls pass their test on
    [running], the kill call writes [dead] first, the monitor writes
    [completed] over it and sends the one notification. *)
Lemma overlapping_race_last_writer :
  exists r',
    interleaving "t1"
      (KGuard, SSnapshot, t1_runner) (KReturned true, SReturned (Ok tt), r')
    /\ option_map status (Dict.get "t1" (workers r')) = Some "completed"
    /\ notified "t1" (trace r') = 1.
Proof.
  eexists. split.
  - sweep_turn already_gone_world. sweep_turn already_gone_world.
    kill_turn already_gone_world. kill_turn already_gone_world.
    kill_turn already_gone_world. kill_turn already_gone_world.
    kill_turn already_gone_world.
    sweep_turn already_gone_world. sweep_turn already_gone_world.
    sweep_turn already_gone_world. sweep_turn already_gone_world.
    sweep_turn already_gone_world.
    apply interleaving_done.
  - split; reflexivity.
Qed.

(** The two threads need not see the same world: the first sweep finds
    the process alive and leaves the record, the next one finds it gone,
    completes the record and notifies, and the kill call that comes after
    is refused. *)
Lemma alive_then_gone_sweeps :
  exists r',
    interleaving "t1"
      (KGuard, SSnapshot, t1_runner) (KReturned false, SReturned (Ok tt), r')
    /\ option_map status (Dict.get "t1" (workers r')) = Some "completed"
    /\ notified "t1" (trace r') = 1.
Proof.
  eexists. split.
  - sweep_turn foreground_world. sweep_turn foreground_world.
    sweep_turn foreground_world. sweep_turn foreground_world.
    eapply interleaving_step; [apply sweep_again|].
    sweep_turn kill_lands_world. sweep_turn kill_lands_world.
    sweep_turn kill_lands_world. sweep_turn kill_lands_world.
    sweep_turn kill_lands_world. sweep_turn kill_lands_world.
    sweep_turn kill_lands_world. sweep_turn kill_lands_world.
    kill_turn kill_lands_world.
    apply interleaving_done.
  - split; reflexivity.
Qed.

(** A sweep that raises, followed by a kill call. When the pipeline raises
    for the worker itself, its record is [completed], the kill call is
    refused and no notification has been sent; when it raises for a worker
    stored before it, its record is still [running] and the kill call
    ends it [killed]. *)
Lemma raising_sweep_then_kill :
  (let swept := _check_worker_statuses list_log_world t1_runner in
   let killed := kill_worker kill_lands_world "t1" (snd swept) in
   returns (fst swept) = false
   /\ option_map status (Dict.get "t1" (workers (snd swept)))
      = Some "completed"
   /\ fst killed = Ok false
   /\ notified "t1" (trace (snd killed)) = 0)
  /\ (let swept := _check_worker_statuses a_list_world a_t1_runner in
      let killed := kill_worker kill_lands_world "t1" (snd swept) in
      returns (fst swept) = false
      /\ option_map status (Dict.get "t1" (workers (snd swept)))
         = Some "running"
      /\ fst killed = Ok true
      /\ option_map status (Dict.get "t1" (workers (snd killed)))
         = Some "killed"
      /\ notified "t1" (trace (snd killed)) = 0).
Proof. cbv zeta. repeat split; vm_compute; reflexivity. Qed.

(* ------------------------------------------------------------------ *)
(** ** Names stay unique *)

Section KeysFacts.

Context {V : Type}.
Implicit Types (d : dict V) (k : string) (v : V).

Lemma keys_set_absent k v d :
  Dict.get k d = None -> map fst (Dict.set k v d) = (map fst d ++ [k])%list.
Proof.
  induction d as [|[k' v'] d IH]; simpl; [reflexivity|].
  destruct (String.eqb k' k); [discriminate|].
  intros H. simpl. now rewrite IH.
Qed.

Lemma get_none_not_in k d : Dict.get k d = None -> ~ In k (map fst d).
Proof.
  induction d as [|[k' v'] d IH]; simpl; [tauto|].
  destruct (String.eqb k' k) eqn:E; [discriminate|].
  apply String.eqb_neq in E. intros H [Hk|Hin]; [contradiction|].
  now apply IH.
Qed.

Lemma wf_set k v d : Dict.wf d -> Dict.wf (Dict.set k v d).
Proof.
  unfold Dict.wf. intros Hwf.
  destruct (Dict.get k d) as [v0|] eqn:E.
  - rewrite keys_set_present; [exact Hwf|]. unfold Dict.mem. now rewrite E.
  - rewrite keys_set_absent by exact E.
    apply NoDup_app; [exact Hwf | repeat constructor; simpl; tauto|].
    intros x Hx [<-|[]]. now apply (get_none_not_in _ _ E).
Qed.

Lemma wf_mutate k (f : V -> V) d : Dict.wf d -> Dict.wf (Dict.mutate k f d).
Proof. unfold Dict.wf. now rewrite keys_mutate. Qed.

Lemma wf_filter (keep : string * V -> bool) d :
  Dict.wf d -> Dict.wf (filter keep d).
Proof.
  unfold Dict.wf. induction d as [|[k v] d IH]; simpl; [auto|].
  intros Hnd. inversion Hnd as [|? ? Hfresh Hnd']; subst.
  destruct (keep (k, v)); simpl; [|now apply IH].
  constructor; [|now apply IH].
  intros Hin. apply Hfresh. apply in_map_iff in Hin.
  destruct Hin as [[k' v'] [Hk Hin]]. simpl in Hk; subst k'.
  apply filter_In in Hin. apply in_map_iff. now exists (k, v').
Qed.

Lemma wf_del_all (names : list string) d :
  Dict.wf d -> Dict.wf (Dict.del_all names d).
Proof. intros H. rewrite del_all_filter. now apply wf_filter. Qed.

End KeysFacts.

(** Every operation leaves a registry with unique names. *)
Lemma wf_after (w : World) (op : operation) (r : Runner) :
  Dict.wf (workers r) -> Dict.wf (workers (after w op r)).
Proof.
  set (Rd := fun d d' : dict Worker => Dict.wf d -> Dict.wf d').
  assert (Hrefl : forall d, Rd d d) by (intros d H; exact H).
  assert (Htrans : forall d1 d2 d3, Rd d1 d2 -> Rd d2 d3 -> Rd d1 d3)
    by (intros d1 d2 d3 H12 H23 H; auto).
  change (on_registry Rd r (after w op r)).
  destruct op as [name prompt model budget target bg|name| |]; simpl.
  - apply keeps_run; auto. intros p sid lf d Hd. now apply wf_set.
  - apply keeps_kill; auto. intros s d _ Hd. now apply wf_mutate.
  - apply keeps_cleanup; auto. intros names d Hd. now apply wf_del_all.
  - apply keeps_check; auto. intros name d Hd. now apply wf_mutate.
Qed.

Lemma wf_after_all (steps : list (World * operation)) (r : Runner) :
  Dict.wf (workers r) -> Dict.wf (workers (after_all steps r)).
Proof.
  revert r. induction steps as [|[w op] steps IH]; intros r H; simpl.
  - exact H.
  - apply IH. now apply wf_after.
Qed.

(* ------------------------------------------------------------------ *)
(** ** Calling twice *)

(** The guard of [kill_worker], on a record with no process to signal. *)
Lemma kill_worker_no_pid (w : World) (name : string) (r : Runner) :
  (forall wk, Dict.get name (workers r) = Some wk -> live_pid wk = None) ->
  kill_worker w name r = (Ok false, r).
Proof.
  intros H. unfold kill_worker, bind, gets. simpl.
  destruct (Dict.get name (workers r)) as [wk|]; [|reflexivity].
  rewrite (H wk eq_refl). now destruct (String.eqb (status wk) "running").
Qed.

(** X1. A second [kill_worker] on the same name is always refused and
    changes nothing, whatever the first one did and whatever has become
    of the process: a worker is signalled by at most one kill call. *)
Theorem kill_worker_twice (w1 w2 : World) (name : string) (r : Runner) :
  kill_worker w2 name (snd (kill_worker w1 name r))
  = (Ok false, snd (kill_worker w1 name r)).
Proof.
  destruct (Dict.get name (workers r)) as [wk|] eqn:Hget.
  2:{ rewrite (@kill_worker_refused w1 name r)
        by (intros wk H; congruence).
      apply kill_worker_refused. simpl. intros wk H; congruence. }
  destruct (String.eqb (status wk) "running") eqn:Hs.
  2:{ apply String.eqb_neq in Hs.
      rewrite (@kill_worker_refused w1 name r)
        by (intros x H; congruence).
      apply kill_worker_refused. simpl. intros x H; congruence. }
  apply String.eqb_eq in Hs.
  destruct (live_pid wk) as [p|] eqn:Hp.
  2:{ rewrite (@kill_worker_no_pid w1 name r)
        by (intros x H; congruence).
      apply kill_worker_no_pid. simpl. intros x H; congruence. }
  rewrite (@kill_worker_signals w1 name r wk p Hget Hs Hp). cbn [snd].
  apply kill_worker_refused. cbn [workers]. intros x.
  rewrite get_set_same. intros [= <-]. simpl.
  destruct (killpg w1 p); discriminate.
Qed.

Lemma filter_nil {A : Type} (p : A -> bool) (l : list A) :
  (forall x, In x l -> p x = false) -> filter p l = [].
Proof.
  induction l as [|a l IH]; simpl; [reflexivity|].
  intros H. rewrite (H a) by now left. apply IH. intros x Hx. apply H.
  now right.
Qed.

(** Once the picked names are deleted, no record is left to pick. *)
Lemma nothing_left_to_remove (d : dict Worker) :
  let picked := fun kv : string * Worker =>
                  str_in (status (snd kv)) TERMINAL_FOR_CLEANUP in
  filter picked (Dict.del_all (map fst (filter picked d)) d) = [].
Proof.
  intros picked. rewrite del_all_filter. apply filter_nil.
  intros [k v] Hin. apply filter_In in Hin. destruct Hin as [Hin Hkeep].
  simpl in Hkeep. destruct (picked (k, v)) eqn:Ep; [|reflexivity].
  exfalso. apply negb_true_iff in Hkeep.
  assert (Hk : str_in k (map fst (filter picked d)) = true).
  { apply str_in_In. apply in_map_iff. exists (k, v). split; [reflexivity|].
    apply filter_In. now split. }
  congruence.
Qed.

(** The registry [cleanup_completed] leaves. *)
Lemma cleanup_registry (r : Runner) :
  workers (snd (cleanup_completed r))
  = Dict.del_all
      (map fst (filter (fun kv => str_in (status (snd kv)) TERMINAL_FOR_CLEANUP)
                       (workers r)))
      (workers r).
Proof.
  unfold cleanup_completed, save_workers, bind, gets, modify_workers.
  cbv beta iota zeta.
  now destruct (map fst (filter _ (workers r))).
Qed.

(** X2. A second [cleanup_completed] finds nothing to remove: it returns
    0, leaves the registry as the first one left it, and does not save. *)
Theorem cleanup_completed_twice (r : Runner) :
  cleanup_completed (snd (cleanup_completed r))
  = (Ok 0, snd (cleanup_completed r)).
Proof.
  set (picked := fun kv : string * Worker =>
                   str_in (status (snd kv)) TERMINAL_FOR_CLEANUP).
  pose proof (cleanup_registry r) as Hfirst. fold picked in Hfirst.
  destruct (snd (cleanup_completed r)) as [ws dir tr]. cbn [workers] in Hfirst.
  unfold cleanup_completed, bind, gets, modify_workers.
  cbv beta iota zeta. cbn [workers logs_dir trace]. fold picked.
  rewrite Hfirst, nothing_left_to_remove. reflexivity.
Qed.

(* ------------------------------------------------------------------ *)
(** ** What a call on one worker does to the others *)

Lemma notified_snoc (name : string) (tr : list event) (ev : event) :
  notified name (tr ++ [ev]) = notified name tr + notified name [ev].
Proof. apply notified_app. Qed.

Section OthersFacts.

Variable other : string.

Lemma untouched_emit (ev : event) :
  notified other [ev] = 0 -> preserves (untouched other) (emit ev).
Proof.
  intros H r. split; [reflexivity|]. unfold emit. cbn [snd trace].
  rewrite notified_snoc, H. lia.
Qed.

Lemma untouched_modify (f : dict Worker -> dict Worker) :
  (forall d, Dict.get other (f d) = Dict.get other d) ->
  preserves (untouched other) (modify_workers f).
Proof. intros H r. split; [apply H | reflexivity]. Qed.

(** One step through the text of a method. *)
Local Ltac untouched_step :=
  lazymatch goal with
  | |- preserves _ (bind _ _) =>
      apply preserves_bind; [exact (@untouched_trans other) | | intro]
  | |- preserves _ (try_except _ _) =>
      apply preserves_try; [exact (@untouched_trans other) | | intro]
  | |- preserves _ (ret _) => apply preserves_ret; exact (@untouched_refl other)
  | |- preserves _ (gets _) =>
      apply preserves_gets; exact (@untouched_refl other)
  | |- preserves _ (lift _) =>
      apply preserves_lift; exact (@untouched_refl other)
  | |- preserves _ (emit _) => apply untouched_emit; reflexivity
  | |- preserves _ (match ?x with _ => _ end) => destruct x
  end.

Lemma untouched_save : preserves (untouched other) save_workers.
Proof. unfold save_workers. repeat untouched_step. Qed.

Variable w : World.

Lemma untouched_handle_completion (name : string) :
  other <> name -> preserves (untouched other) (_handle_completion w name).
Proof.
  intros Hne r.
  destruct (_handle_completion w name r) as [o r'] eqn:Hrun.
  destruct (@handle_completion_effect w name r o r' Hrun) as [Hws [Hn _]].
  split; cbn [snd]; [now rewrite Hws | now apply Hn].
Qed.

Lemma untouched_launch (bg : bool) (cmd : list string) :
  preserves (untouched other) (launch w bg cmd).
Proof. unfold launch. repeat untouched_step. Qed.

Lemma untouched_finish (name s : string) :
  other <> name -> preserves (untouched other) (finish w name s).
Proof.
  intros Hne. unfold finish. repeat untouched_step;
    apply untouched_modify; intros d; now apply get_mutate_other.
Qed.

(** [kill_worker name] leaves the record of another worker, and the count
    of its notifications, as they are. *)
Lemma untouched_kill (name : string) :
  other <> name -> preserves (untouched other) (kill_worker w name).
Proof.
  intros Hne. unfold kill_worker. repeat untouched_step;
    try apply untouched_save; now apply untouched_finish.
Qed.

(** So does a spawn under another name. *)
Lemma untouched_run
  (name prompt model : string) (budget : Q) (target : string) (bg : bool) :
  other <> name ->
  preserves (untouched other) (run w name prompt model budget target bg).
Proof.
  intros Hne. unfold run, set_env_wizard. repeat untouched_step;
    try apply untouched_save; try apply untouched_launch;
    try (now apply untouched_handle_completion).
  all: apply untouched_modify; intros d; now apply get_set_other.
Qed.

End OthersFacts.

(** No method but the completion pipeline notifies. *)
Section SilentFacts.

Variable name : string.

Lemma same_count_refl (r : Runner) : same_count name r r.
Proof. reflexivity. Qed.

Lemma same_count_trans (r1 r2 r3 : Runner) :
  same_count name r1 r2 -> same_count name r2 r3 -> same_count name r1 r3.
Proof. unfold same_count. congruence. Qed.

Local Ltac silent_step :=
  lazymatch goal with
  | |- preserves _ (bind _ _) =>
      apply preserves_bind; [exact same_count_trans | | intro]
  | |- preserves _ (ret _) => apply preserves_ret; exact same_count_refl
  | |- preserves _ (gets _) => apply preserves_gets; exact same_count_refl
  | |- preserves _ (modify_workers _) => intros ?; reflexivity
  | |- preserves _ (emit _) =>
      intros ?; unfold same_count, emit; cbn [snd trace];
      rewrite notified_snoc; simpl; lia
  | |- preserves _ (match ?x with _ => _ end) => destruct x
  end.

Lemma silent_save : preserves (same_count name) save_workers.
Proof. unfold save_workers. repeat silent_step. Qed.

Lemma silent_kill (w : World) (n : string) :
  preserves (same_count name) (kill_worker w n).
Proof.
  unfold kill_worker, finish. repeat silent_step; apply silent_save.
Qed.

Lemma silent_cleanup : preserves (same_count name) cleanup_completed.
Proof. unfold cleanup_completed. repeat silent_step; apply silent_save. Qed.

End SilentFacts.

(* ------------------------------------------------------------------ *)
(** ** Records that are not supervised *)

Lemma not_supervised (wk : Worker) :
  supervised wk = false <-> status wk <> "running" \/ live_pid wk = None.
Proof.
  unfold supervised. split.
  - intros H. apply andb_false_iff in H. destruct H as [H|H].
    + left. now apply String.eqb_neq.
    + right. now destruct (live_pid wk).
  - intros [H|H].
    + apply String.eqb_neq in H. now rewrite H.
    + rewrite H. apply andb_false_r.
Qed.

(** A spawn under a name that is taken. *)
Lemma run_refused_taken
  (w : World) (name prompt model : string) (budget : Q) (target : string)
  (bg : bool) (r : Runner) (existing : Worker) :
  Dict.get name (workers r) = Some existing ->
  run w name prompt model budget target bg r = (Ok false, r).
Proof.
  intros H. unfold run, bind, gets, Dict.mem. simpl. now rewrite H.
Qed.

(** A kill on a record that is not supervised. *)
Lemma kill_refused_unsupervised (w : World) (name : string) (r : Runner)
  (wk : Worker) :
  Dict.get name (workers r) = Some wk -> supervised wk = false ->
  kill_worker w name r = (Ok false, r).
Proof.
  intros Hget Hs. apply not_supervised in Hs. destruct Hs as [Hs|Hp].
  - apply kill_worker_refused. intros x Hx. congruence.
  - apply kill_worker_no_pid. intros x Hx. congruence.
Qed.


Lemma sweep_unsupervised (w : World) (r : Runner) (name : string)
  (wk : Worker) :
  Dict.wf (workers r) -> Dict.get name (workers r) = Some wk ->
  supervised wk = false ->
  untouched name r (snd (_check_worker_statuses w r)).
Proof.
  intros Hwf Hget Hs.
  destruct (@sweep_spec w r _ _ name wk Hwf (surjective_pairing _) Hget)
    as [Hu|(Hrun & [p [Hp _]] & _)]; [exact Hu|].
  apply not_supervised in Hs. destruct Hs; congruence.
Qed.

(** One operation, seen from a record that is not supervised. *)
Lemma unsupervised_step (w : World) (op : operation) (r : Runner)
  (name : string) (wk : Worker) :
  Dict.wf (workers r) ->
  Dict.get name (workers r) = Some wk ->
  supervised wk = false ->
  notified name (trace (after w op r)) = notified name (trace r)
  /\ (Dict.get name (workers (after w op r)) = Some wk
      \/ (op = OpCleanup
          /\ In (status wk) ["completed"; "killed"; "dead"]
          /\ Dict.get name (workers (after w op r)) = None)).
Proof.
  intros Hwf Hget Hs.
  destruct op as [name0 prompt model budget target bg|name0| |]; simpl.
  - destruct (String.eqb name name0) eqn:E.
    + apply String.eqb_eq in E; subst name0.
      rewrite (@run_refused_taken w name prompt model budget target bg r wk Hget).
      split; [reflexivity | left; exact Hget].
    + apply String.eqb_neq in E.
      destruct (@untouched_run name w name0 prompt model budget target bg E r)
        as [Hg Hn].
      split; [exact Hn | left; congruence].
  - destruct (String.eqb name name0) eqn:E.
    + apply String.eqb_eq in E; subst name0.
      rewrite (@kill_refused_unsupervised w name r wk Hget Hs).
      split; [reflexivity | left; exact Hget].
    + apply String.eqb_neq in E.
      destruct (@untouched_kill name w name0 E r) as [Hg Hn].
      split; [exact Hn | left; congruence].
  - split; [apply silent_cleanup|].
    rewrite cleanup_registry, get_del_all.
    rewrite (@picked_names _ (fun x => str_in (status x) TERMINAL_FOR_CLEANUP)
               (workers r) name wk Hwf (get_in _ _ Hget)).
    destruct (str_in (status wk) TERMINAL_FOR_CLEANUP) eqn:Et.
    + right. apply str_in_In in Et. now repeat split.
    + left. exact Hget.
  - destruct (@sweep_unsupervised w r name wk Hwf Hget Hs) as [Hg Hn].
    split; [exact Hn | left; congruence].
Qed.

(** X3. A record that is not [running] with a live [pid] (it has reached
    [completed], [killed] or [dead], or it is [running] with no [pid]) is
    final: through any sequence of spawns, kills, sweeps of the monitor
    and cleanups it stays exactly as it is and no notification is sent
    for it, unless its status is one that cleanup removes and a cleanup
    is among the calls. In particular a [running] record without a [pid]
    can be neither killed, completed nor cleaned up. *)
Theorem unsupervised_record_is_final
  (steps : list (World * operation)) (r : Runner) (name : string)
  (wk : Worker) :
  Dict.wf (workers r) ->
  Dict.get name (workers r) = Some wk ->
  supervised wk = false ->
  ~ In (status wk) ["completed"; "killed"; "dead"]
  \/ ~ In OpCleanup (map snd steps) ->
  Dict.get name (workers (after_all steps r)) = Some wk
  /\ notified name (trace (after_all steps r)) = notified name (trace r).
Proof.
  revert r. induction steps as [|[w op] steps IH];
    intros r Hwf Hget Hs Hkeep; simpl; [now split|].
  destruct (@unsupervised_step w op r name wk Hwf Hget Hs)
    as [Hn [Hsame|(Hop & Hterm & _)]].
  - destruct (IH (after w op r)) as [Hg' Hn']; auto using wf_after.
    + destruct Hkeep as [H|H]; [now left|]. right. simpl in H. tauto.
    + split; [exact Hg' | congruence].
  - exfalso. destruct Hkeep as [H|H]; [contradiction|].
    apply H. simpl. now left.
Qed.

Lemma unsupervised_record_is_final_witness :
  let stuck :=
    {| pid := None; session_id := "6f1c0a52-3f0e-4b7a-9d55-0c8f2a1e7b90";
       model := "haiku"; budget := 2 # 1; notify_target := "main";
       prompt := "Fix the failing tests"; start_time := 1600 # 1;
       status := "running"; log_file := t1_log; background := true;
       end_time := None |} in
  let r := {| workers := [("t1", stuck)]; logs_dir := "/tmp/blaude-logs";
              trace := [] |} in
  let steps :=
    [(already_gone_world, OpKill "t1"); (already_gone_world, OpCheck);
     (already_gone_world, OpCleanup);
     (already_gone_world, OpRun "t1" "Fix the failing tests" "haiku" (2 # 1)
                            "main" true)] in
  Dict.get "t1" (workers (after_all steps r)) = Some stuck
  /\ notified "t1" (trace (after_all steps r)) = notified "t1" (trace r).
Proof.
  intros stuck r steps.
  apply (@unsupervised_record_is_final steps r "t1" stuck).
  - unfold Dict.wf. simpl. repeat constructor. simpl. tauto.
  - reflexivity.
  - reflexivity.
  - left. simpl. intuition discriminate.
Defined.

(* ------------------------------------------------------------------ *)
(** ** The registry after a spawn *)

(** The registry a spawn leaves: as it was, or with the new record stored
    under a name that was free. *)
Lemma run_registry_cases
  (w : World) (name prompt model : string) (budget : Q) (target : string)
  (bg : bool) (r : Runner) :
  workers (snd (run w name prompt model budget target bg r)) = workers r
  \/ (Dict.get name (workers r) = None
      /\ exists p,
           workers (snd (run w name prompt model budget target bg r))
           = Dict.set name
               (new_worker w p (uuid4 w) model budget target prompt
                  (log_path w (logs_dir r) name) bg)
               (workers r)).
Proof.
  unfold run, set_env_wizard, launch, try_except, save_workers, bind, gets,
    emit, lift, ret, modify_workers, Dict.mem.
  cbn [workers logs_dir trace].
  destruct (Dict.get name (workers r)) as [wk|] eqn:Hget; [now left|].
  destruct (auth_ok w); cbn [negb]; [|now left].
  cbn [workers logs_dir trace].
  destruct bg.
  - destruct (popen w _) as [p|e]; [|now left].
    right. split; [reflexivity|]. now exists (Some p).
  - destruct (subprocess_run w _) as [rc|e]; [|now left].
    destruct (rc =? 0)%Z; [|now left].
    right. split; [reflexivity|]. exists None.
    match goal with
    | |- context [_handle_completion w name ?r4] =>
        pose proof (same_registry_handle_completion w name r4) as Hsame;
        unfold same_registry, on_registry in Hsame;
        destruct (_handle_completion w name r4) as [[[]|e] r5]
    end; simpl in *; exact Hsame.
Qed.

(** X4. A spawn or a kill of one worker leaves every other worker alone:
    the record of any other name is the same afterwards and no
    notification is sent for it. A kill keeps the order of the names in
    the registry; a spawn keeps it too and at most adds its own name at
    the end. *)
Theorem other_workers_left_alone
  (w : World) (name other prompt model : string) (budget : Q)
  (target : string) (bg : bool) (r : Runner) :
  other <> name ->
  let spawned := snd (run w name prompt model budget target bg r) in
  let killed := snd (kill_worker w name r) in
  untouched other r spawned
  /\ untouched other r killed
  /\ map fst (workers killed) = map fst (workers r)
  /\ (map fst (workers spawned) = map fst (workers r)
      \/ map fst (workers spawned) = (map fst (workers r) ++ [name])%list).
Proof.
  intros Hne spawned killed.
  split; [now apply untouched_run|].
  split; [now apply untouched_kill|].
  split.
  - set (Rd := fun d d' : dict Worker => map fst d' = map fst d).
    change (on_registry Rd r (snd (kill_worker w name r))).
    apply keeps_kill; unfold Rd; [reflexivity | congruence|].
    intros s d _. apply keys_mutate.
  - subst spawned.
    destruct (run_registry_cases w name prompt model budget target bg r)
      as [Hsame|[Hfree [p Hset]]].
    + left. now rewrite Hsame.
    + right. rewrite Hset. now apply keys_set_absent.
Qed.

Lemma other_workers_left_alone_witness :
  untouched "t1" t1_runner
    (snd (run foreground_world "t2" "Deploy to staging" "haiku" (5 # 1)
              "ops" true t1_runner))
  /\ untouched "t1" t1_runner (snd (kill_worker kill_lands_world "t2" t1_runner)).
Proof.
  split.
  - apply (proj1 (@other_workers_left_alone foreground_world "t2" "t1"
                    "Deploy to staging" "haiku" (5 # 1) "ops" true t1_runner
                    ltac:(discriminate))).
  - apply (proj1 (proj2 (@other_workers_left_alone kill_lands_world "t2" "t1"
                    "Deploy to staging" "haiku" (5 # 1) "ops" true t1_runner
                    ltac:(discriminate)))).
Defined.

(* ------------------------------------------------------------------ *)
(** ** The monitor's thread *)





(* ------------------------------------------------------------------ *)
(** ** What is saved *)

Lemma saved_snoc (tr : list event) (ev : event) :
  saved (tr ++ [ev])
  = (saved tr ++ match ev with EvSave s => [s] | _ => [] end)%list.
Proof.
  unfold saved. rewrite flat_map_app. simpl. now rewrite app_nil_r.
Qed.

Lemma last_saved_save (tr : list event) (s : dict Worker) :
  last_saved (tr ++ [EvSave s]) = Some s.
Proof.
  unfold last_saved. rewrite saved_snoc, map_app. simpl. apply last_last.
Qed.

Lemma same_saved_refl (r : Runner) : same_saved r r.
Proof. reflexivity. Qed.

Lemma same_saved_trans (r1 r2 r3 : Runner) :
  same_saved r1 r2 -> same_saved r2 r3 -> same_saved r1 r3.
Proof. unfold same_saved. congruence. Qed.

Lemma same_saved_last (r r' : Runner) :
  same_saved r r' -> last_saved (trace r') = last_saved (trace r).
Proof. unfold same_saved, last_saved. now intros ->. Qed.

Section SavedFacts.

Variable w : World.

Local Ltac saved_step :=
  lazymatch goal with
  | |- preserves _ (bind _ _) =>
      apply preserves_bind; [exact same_saved_trans | | intro]
  | |- preserves _ (ret _) => apply preserves_ret; exact same_saved_refl
  | |- preserves _ (gets _) => apply preserves_gets; exact same_saved_refl
  | |- preserves _ (lift _) => apply preserves_lift; exact same_saved_refl
  | |- preserves _ (modify_workers _) => intros ?; reflexivity
  | |- preserves _ (emit _) =>
      intros ?; unfold same_saved, emit; cbn [snd trace];
      rewrite saved_snoc; apply app_nil_r
  | |- preserves _ (match ?x with _ => _ end) => destruct x
  end.

Lemma unsaved_handle_completion (name : string) :
  preserves same_saved (_handle_completion w name).
Proof. unfold _handle_completion, notify_completion. repeat saved_step. Qed.

Lemma unsaved_launch (bg : bool) (cmd : list string) :
  preserves same_saved (launch w bg cmd).
Proof. unfold launch. repeat saved_step. Qed.

(** The loop of the monitor does not save. *)
Lemma unsaved_check_loop (items : list (string * Worker)) (updated : bool) :
  preserves same_saved (check_loop w items updated).
Proof.
  revert updated.
  induction items as [|[name wk] items IH]; intros updated; simpl;
    unfold finish; repeat saved_step; try apply IH;
    apply unsaved_handle_completion.
Qed.

(** The flag the loop returns is set whenever it changed the registry. *)
Lemma check_loop_flag (items : list (string * Worker)) :
  forall (updated : bool) (r : Runner) (b : bool) (r' : Runner),
    check_loop w items updated r = (Ok b, r') ->
    b = true \/ (b = updated /\ workers r' = workers r).
Proof.
  induction items as [|[n wk] items IH]; intros updated r b r' Hrun.
  { simpl in Hrun. injection Hrun as <- <-. now right. }
  destruct (String.eqb (status wk) "running") eqn:Hs.
  2:{ rewrite check_loop_skip in Hrun by (now left). now apply IH. }
  destruct (live_pid wk) as [p|] eqn:Hp.
  2:{ rewrite check_loop_skip in Hrun by (now right). now apply IH. }
  apply String.eqb_eq in Hs.
  destruct (kill0 w p) eqn:Hk.
  - rewrite (@check_loop_alive w n wk p items updated r Hs Hp Hk) in Hrun.
    now apply IH in Hrun.
  - rewrite (@check_loop_gone w n wk p items updated r Hs Hp Hk) in Hrun.
    destruct (_handle_completion w n _) as [[u|e] r2]; [|discriminate].
    apply IH in Hrun. destruct Hrun as [H|[H _]]; now left.
Qed.

End SavedFacts.

(** X6. Whatever [run], [kill_worker] and [cleanup_completed] change in
    the registry they save, and so does a sweep of the monitor that
    returns: after the call either the registry is as it was and nothing
    was saved, or the last registry handed to [json.dump] is the registry
    in memory. So the registry last saved stays the one in memory from one
    call to the next. *)
Theorem changes_are_saved (w : World) (op : operation) (r : Runner) :
  (op = OpCheck -> returns (fst (_check_worker_statuses w r)) = true) ->
  persisted r (after w op r)
  /\ (last_saved (trace r) = Some (workers r) ->
      last_saved (trace (after w op r)) = Some (workers (after w op r))).
Proof.
  intros Hret.
  assert (Hmain : persisted r (after w op r)).
  2:{ split; [exact Hmain|]. intros Hsync.
      destruct Hmain as [[Hws Hsv]|Hlast]; [|exact Hlast].
      now rewrite (same_saved_last Hsv), Hws. }
  destruct op as [name prompt model budget target bg|name| |]; simpl.
  - (* run *)
    unfold run, set_env_wizard, launch, try_except, save_workers, bind, gets,
      emit, lift, ret, modify_workers, Dict.mem, persisted, same_saved.
    cbn [workers logs_dir trace].
    destruct (Dict.get name (workers r)) as [wk|] eqn:Hget; [now left|].
    destruct (auth_ok w); cbn [negb snd workers logs_dir trace].
    2:{ left. split; [reflexivity|]. rewrite saved_snoc. apply app_nil_r. }
    destruct bg.
    + destruct (popen w _) as [p|e]; cbn [snd workers logs_dir trace].
      * right. apply last_saved_save.
      * left. split; [reflexivity|].
        rewrite !saved_snoc, !app_nil_r. reflexivity.
    + destruct (subprocess_run w _) as [rc|e];
        cbn [snd workers logs_dir trace].
      2:{ left. split; [reflexivity|].
          rewrite !saved_snoc, !app_nil_r. reflexivity. }
      destruct (rc =? 0)%Z; cbn [snd workers logs_dir trace].
      2:{ left. split; [reflexivity|].
          rewrite !saved_snoc, !app_nil_r. reflexivity. }
      right.
      match goal with
      | |- context [_handle_completion w name ?r4] =>
          pose proof (same_registry_handle_completion w name r4) as Hsame;
          pose proof (unsaved_handle_completion w name r4) as Hquiet;
          unfold same_registry, on_registry in Hsame;
          destruct (_handle_completion w name r4) as [[[]|e] r5]
      end; cbn [snd workers logs_dir trace] in *.
      all: rewrite (same_saved_last Hquiet), Hsame; cbn [trace workers];
        apply last_saved_save.
  - (* kill_worker *)
    destruct (Dict.get name (workers r)) as [wk|] eqn:Hget.
    2:{ rewrite (@kill_worker_refused w name r) by (intros x H; congruence).
        left. now split. }
    destruct (supervised wk) eqn:Hs.
    2:{ rewrite (@kill_refused_unsupervised w name r wk Hget Hs).
        left. now split. }
    unfold supervised in Hs. apply andb_true_iff in Hs. destruct Hs as [Hs Hp].
    apply String.eqb_eq in Hs.
    destruct (live_pid wk) as [p|] eqn:Hpid; [|discriminate].
    rewrite (@kill_worker_signals w name r wk p Hget Hs Hpid).
    right. cbn [snd trace workers].
    change [EvKillpg p; EvSave ?s] with ([EvKillpg p] ++ [EvSave s])%list.
    rewrite app_assoc. apply last_saved_save.
  - (* cleanup_completed *)
    unfold cleanup_completed, save_workers, bind, gets, modify_workers, emit,
      ret, persisted, same_saved.
    cbv beta iota zeta. cbn [workers logs_dir trace].
    destruct (map fst (filter _ (workers r))) as [|n names];
      cbn [snd workers logs_dir trace].
    + left. now split.
    + right. apply last_saved_save.
  - (* a sweep *)
    specialize (Hret eq_refl).
    unfold _check_worker_statuses in *.
    unfold bind at 1 in Hret. unfold gets in Hret. unfold bind at 1 in Hret.
    unfold bind at 1. unfold gets. unfold bind at 1.
    pose proof (unsaved_check_loop w (workers r) false r) as Hquiet.
    destruct (check_loop w (workers r) false r) as [[b|e] r1] eqn:Hloop;
      [|discriminate].
    cbn [snd] in Hquiet.
    destruct (check_loop_flag w (workers r) false r Hloop) as [->|[-> Hws]].
    + right. unfold save_workers, bind, gets, emit.
      cbn [snd workers trace]. apply last_saved_save.
    + left. unfold ret. cbn [snd]. now split.
Qed.

Lemma changes_are_saved_witness :
  persisted t1_runner (after kill_lands_world OpCheck t1_runner)
  /\ last_saved (trace (after kill_lands_world OpCheck t1_runner))
     = Some (workers (after kill_lands_world OpCheck t1_runner)).
Proof.
  split.
  - apply (proj1 (@changes_are_saved kill_lands_world OpCheck t1_runner
                    (fun _ => eq_refl))).
  - reflexivity.
Defined.

(* ------------------------------------------------------------------ *)
(** ** A sweep that raises *)

(** The completion pipeline raises before anything is sent. *)
Lemma handle_completion_raises (w : World) (name : string) (r : Runner)
  (e : exn) (r' : Runner) :
  _handle_completion w name r = (Raise e, r') -> r' = r.
Proof.
  unfold _handle_completion, notify_completion, bind, gets, lift, emit, ret.
  cbn [workers logs_dir trace].
  destruct (Dict.get name (workers r)) as [wk|]; [|discriminate].
  destruct (_extract_summary w (log_file wk)) as [summary|e1];
    [|now intros [= _ <-]].
  destruct (Notifier._format_completion_message _ _ _) as [message|e2];
    [discriminate | now intros [= _ <-]].
Qed.

(** The loop of the monitor, when it raises: the record it was at has
    been written, and nothing was sent for it. *)
Lemma check_loop_raises (w : World) (items : list (string * Worker)) :
  forall (updated : bool) (r : Runner) (e : exn) (r' : Runner),
    NoDup (map fst items) ->
    (forall n v, In (n, v) items -> Dict.get n (workers r) = Some v) ->
    check_loop w items updated r = (Raise e, r') ->
    exists name wk,
      In (name, wk) items
      /\ supervised wk = true
      /\ Dict.get name (workers r') = Some (finished w "completed" wk)
      /\ notified name (trace r') = notified name (trace r).
Proof.
  induction items as [|[n wk] items IH]; intros updated r e r' Hnd Hcoh Hrun.
  { discriminate. }
  simpl in Hnd. inversion Hnd as [|? ? Hfresh Hnd']; subst.
  assert (Hpass : forall r1,
    (forall k, k <> n -> untouched k r r1) ->
    check_loop w items updated r1 = (Raise e, r') \/
    check_loop w items true r1 = (Raise e, r') ->
    exists name v,
      In (name, v) ((n, wk) :: items)
      /\ supervised v = true
      /\ Dict.get name (workers r') = Some (finished w "completed" v)
      /\ notified name (trace r') = notified name (trace r)).
  { intros r1 Hsame Hrest.
    assert (Hcoh1 : forall k v, In (k, v) items ->
                                Dict.get k (workers r1) = Some v).
    { intros k v Hin.
      assert (Hne : k <> n).
      { intros ->. apply Hfresh. apply in_map_iff. now exists (n, v). }
      destruct (Hsame k Hne) as [Hg _]. rewrite Hg. apply Hcoh. now right. }
    assert (Hex : exists name v,
      In (name, v) items
      /\ supervised v = true
      /\ Dict.get name (workers r') = Some (finished w "completed" v)
      /\ notified name (trace r') = notified name (trace r1)).
    { destruct Hrest as [Hrest|Hrest]; eapply IH; eauto. }
    destruct Hex as (name & v & Hin & Hs & Hg & Hn).
    exists name, v. split; [now right|]. split; [exact Hs|].
    split; [exact Hg|].
    assert (Hne : name <> n).
    { intros ->. apply Hfresh. apply in_map_iff. now exists (n, v). }
    destruct (Hsame name Hne) as [_ Hn1]. congruence. }
  destruct (String.eqb (status wk) "running") eqn:Hs.
  2:{ rewrite check_loop_skip in Hrun by (now left).
      apply (Hpass r); [intros; apply untouched_refl | now left]. }
  destruct (live_pid wk) as [p|] eqn:Hp.
  2:{ rewrite check_loop_skip in Hrun by (now right).
      apply (Hpass r); [intros; apply untouched_refl | now left]. }
  apply String.eqb_eq in Hs.
  destruct (kill0 w p) eqn:Hk.
  { rewrite (@check_loop_alive w n wk p items updated r Hs Hp Hk) in Hrun.
    apply (Hpass (probed p r)); [intros; apply untouched_probed | now left]. }
  rewrite (@check_loop_gone w n wk p items updated r Hs Hp Hk) in Hrun.
  set (r1 := flipped w n "completed" (probed p r)) in *.
  assert (Hflip : Dict.get n (workers r1) = Some (finished w "completed" wk)).
  { unfold r1, flipped, probed; cbn [workers]. apply get_mutate_same.
    apply Hcoh. now left. }
  assert (Hu1 : forall k, k <> n -> untouched k r r1).
  { intros k Hne. split.
    - unfold r1, flipped, probed; cbn [workers]. now apply get_mutate_other.
    - apply (untouched_probed k p r). }
  destruct (_handle_completion w n r1) as [[u|e1] r2] eqn:Hh.
  - apply (Hpass r2); [|now right].
    intros k Hne. eapply untouched_trans; [now apply Hu1|].
    pose proof (@untouched_handle_completion k w n Hne r1) as Hu.
    now rewrite Hh in Hu.
  - injection Hrun as <- <-.
    apply handle_completion_raises in Hh. subst r2.
    exists n, wk. split; [now left|].
    split; [unfold supervised; rewrite Hs, Hp; reflexivity|].
    split; [exact Hflip|].
    apply (untouched_probed n p r).
Qed.

(* ------------------------------------------------------------------ *)
(** ** What a spawn that returns [False] has stored *)


(** A spawn in the foreground whose launch succeeds can still return
    [False]: here the summary is a list, formatting the message raises,
    and [run] catches that after the record has been stored. *)
Lemma late_failure_keeps_record :
  let res := run list_result_world "fg" "Count from 1 to 3" "haiku" (1 # 5)%Q
                 "main" false empty_runner in
  fst res = Ok false
  /\ option_map status (Dict.get "fg" (workers (snd res))) = Some "completed"
  /\ notified "fg" (trace (snd res)) = 0.
Proof. cbv zeta. repeat split; vm_compute; reflexivity. Qed.



(** X7. When a sweep of the monitor raises (the completion pipeline does
    when the summary it gets is not text), it has marked a worker that
    was [running] with a live [pid] as [completed], with its [end_time],
    in memory, has sent no notification for it, and has saved nothing. *)
Theorem raising_sweep_drops_completion
  (w : World) (r : Runner) (e : exn) (r' : Runner) :
  Dict.wf (workers r) ->
  _check_worker_statuses w r = (Raise e, r') ->
  same_saved r r'
  /\ exists name wk,
       Dict.get name (workers r) = Some wk
       /\ supervised wk = true
       /\ Dict.get name (workers r') = Some (finished w "completed" wk)
       /\ status (finished w "completed" wk) = "completed"
       /\ end_time (finished w "completed" wk) = Some (now w)
       /\ notified name (trace r') = notified name (trace r).
Proof.
  intros Hwf Hrun.
  unfold _check_worker_statuses in Hrun.
  unfold bind at 1 in Hrun. unfold gets in Hrun. unfold bind at 1 in Hrun.
  pose proof (unsaved_check_loop w (workers r) false r) as Hquiet.
  destruct (check_loop w (workers r) false r) as [[b|e1] r1] eqn:Hloop.
  { exfalso. destruct b; [|discriminate].
    unfold save_workers, bind, gets, emit in Hrun. discriminate. }
  injection Hrun as <- <-. cbn [snd] in Hquiet.
  split; [exact Hquiet|].
  assert (Hcoh : forall n x, In (n, x) (workers r) ->
                             Dict.get n (workers r) = Some x)
    by (intros n x Hin; now apply in_get).
  destruct (@check_loop_raises w (workers r) false r e1 r1 Hwf Hcoh Hloop)
    as (name & wk & Hin & Hs & Hg & Hn).
  exists name, wk. split; [now apply Hcoh|]. now repeat split.
Qed.

Lemma raising_sweep_drops_completion_witness :
  let res := _check_worker_statuses list_log_world t1_runner in
  fst res = Raise AttributeError
  /\ same_saved t1_runner (snd res)
  /\ exists name wk,
       Dict.get name (workers t1_runner) = Some wk
       /\ supervised wk = true
       /\ Dict.get name (workers (snd res))
          = Some (finished list_log_world "completed" wk)
       /\ status (finished list_log_world "completed" wk) = "completed"
       /\ end_time (finished list_log_world "completed" wk)
          = Some (now list_log_world)
       /\ notified name (trace (snd res)) = notified name (trace t1_runner).
Proof.
  intros res. split; [reflexivity|].
  apply (@raising_sweep_drops_completion list_log_world t1_runner
           AttributeError (snd res)).
  - unfold Dict.wf. simpl. repeat constructor. simpl. tauto.
  - reflexivity.
Defined.

(* ------------------------------------------------------------------ *)
(** ** A spawn, and what follows it *)

Lemma app_assoc3 {A : Type} (l : list A) (a b c : A) :
  (((l ++ [a]) ++ [b]) ++ [c] = l ++ [a; b; c])%list.
Proof. now rewrite <- !app_assoc. Qed.

(** A spawn in the background that starts its process. *)
Lemma run_background_started
  (w : World) (name prompt model : string) (budget : Q) (target : string)
  (r : Runner) (p : Z) :
  Dict.get name (workers r) = None ->
  auth_ok w = true ->
  let lf := log_path w (logs_dir r) name in
  let cmd := "nohup" :: claude_cmd w (uuid4 w) model budget lf prompt in
  popen w cmd = Ok p ->
  let ws' := Dict.set name
               (new_worker w (Some p) (uuid4 w) model budget target prompt
                  lf true) (workers r) in
  run w name prompt model budget target true r
  = (Ok true, {| workers := ws'; logs_dir := logs_dir r;
                 trace := trace r ++ [EvAuthStatus; EvPopen cmd; EvSave ws'] |}).
Proof.
  intros Hnew Hauth lf cmd Hpopen ws'.
  unfold run, set_env_wizard, launch, try_except, save_workers, bind, gets,
    emit, lift, ret, modify_workers, Dict.mem.
  cbn [workers logs_dir trace]. rewrite Hnew, Hauth. cbn [negb].
  cbn [workers logs_dir trace]. fold lf. fold cmd. rewrite Hpopen.
  cbn [workers logs_dir trace]. fold ws'. now rewrite app_assoc3.
Qed.

(** X8. A kill that follows a spawn in the background signals the process
    group the spawn started: the record ends [killed] (or [dead] when the
    group is already gone) with the [pid] [Popen] returned and its
    [end_time] set, it is saved, and no notification is sent. *)
Theorem kill_after_spawn
  (w w' : World) (name prompt model : string) (budget : Q) (target : string)
  (r : Runner) (p : Z) :
  Dict.get name (workers r) = None ->
  auth_ok w = true ->
  popen w ("nohup" :: claude_cmd w (uuid4 w) model budget
                        (log_path w (logs_dir r) name) prompt) = Ok p ->
  p <> 0%Z ->
  let spawned := run w name prompt model budget target true r in
  let killed := kill_worker w' name (snd spawned) in
  fst spawned = Ok true
  /\ fst killed = Ok true
  /\ trace (snd killed)
     = (trace (snd spawned)
        ++ [EvKillpg p; EvSave (workers (snd killed))])%list
  /\ notified name (trace (snd killed)) = notified name (trace r)
  /\ exists wk,
       Dict.get name (workers (snd killed)) = Some wk
       /\ status wk = (if killpg w' p then "killed" else "dead")
       /\ pid wk = Some p
       /\ end_time wk = Some (now w').
Proof.
  intros Hnew Hauth Hpopen Hp spawned killed.
  subst killed spawned.
  rewrite (@run_background_started w name prompt model budget target r p
             Hnew Hauth Hpopen).
  cbn [fst snd]. split; [reflexivity|].
  match goal with
  | |- context [kill_worker w' name ?x] => set (r1 := x)
  end.
  set (rec := new_worker w (Some p) (uuid4 w) model budget target prompt
                (log_path w (logs_dir r) name) true) in *.
  assert (Hget1 : Dict.get name (workers r1) = Some rec)
    by apply get_set_same.
  assert (Hpid : live_pid rec = Some p).
  { unfold live_pid, rec. simpl. apply Z.eqb_neq in Hp. now rewrite Hp. }
  rewrite (@kill_worker_signals w' name r1 rec p Hget1 eq_refl Hpid).
  cbn [fst snd trace workers].
  split; [reflexivity|]. split; [reflexivity|]. split.
  - unfold r1. cbn [trace]. rewrite !notified_app. simpl. lia.
  - eexists. split; [apply get_set_same|]. simpl.
    now destruct (killpg w' p).
Qed.

Lemma kill_after_spawn_witness :
  let spawned := run foreground_world "t2" "Deploy to staging" "haiku" (5 # 1)
                     "ops" true empty_runner in
  let killed := kill_worker already_gone_world "t2" (snd spawned) in
  fst spawned = Ok true
  /\ fst killed = Ok true
  /\ notified "t2" (trace (snd killed)) = notified "t2" (trace empty_runner).
Proof.
  intros spawned killed.
  destruct (@kill_after_spawn foreground_world already_gone_world "t2"
              "Deploy to staging" "haiku" (5 # 1) "ops" empty_runner 4242%Z
              eq_refl eq_refl eq_refl ltac:(discriminate))
    as (H1 & H2 & _ & H3 & _).
  split; [exact H1|]. split; [exact H2 | exact H3].
Defined.

Lemma py_int_zero (q : Q) : py_int (Qminus q q) = 0%Z.
Proof.
  unfold py_int, Qminus, Qplus, Qopp. simpl.
  replace (Qnum q * Z.pos (Qden q) + - Qnum q * Z.pos (Qden q))%Z with 0%Z
    by ring.
  apply Z.quot_0_l. discriminate.
Qed.

Lemma prefix_app (a b : string) : prefix a (a ++ b) = true.
Proof.
  induction a as [|c a IH]; simpl; [now destruct b|].
  destruct (ascii_dec c c); [exact IH | contradiction].
Qed.

Lemma prefix_refl (a : string) : prefix a a = true.
Proof.
  induction a as [|c a IH]; simpl; [reflexivity|].
  destruct (ascii_dec c c); [exact IH | contradiction].
Qed.

(** The message always opens with its header. *)
Lemma format_completion_message_header
  (worker_name duration : string) (summary : pyval) (message : string) :
  Notifier._format_completion_message worker_name summary duration = Ok message ->
  prefix ("🎯 Worker **" ++ worker_name ++ "** completed (" ++ duration ++ ")")
         message = true.
Proof.
  intros H. apply format_completion_message_embeds in H. cbv zeta in H.
  destruct (Notifier.embedded_summary summary) as [c|].
  - destruct H as [-> | ->]; apply prefix_app.
  - subst message. apply prefix_refl.
Qed.

(** A summary that is text is always formatted. *)
Lemma format_completion_message_text (worker_name s duration : string) :
  exists message,
    Notifier._format_completion_message worker_name (PStr s) duration
    = Ok message.
Proof.
  unfold Notifier._format_completion_message.
  destruct (Notifier.shown _); [|now eexists].
  destruct (PyStr.contains_any _ _); now eexists.
Qed.

(** X9. A spawn in the foreground that succeeds sends exactly one
    notification, and the duration it reports is [0s] whatever time the
    agent took: the record's [start_time] is taken once the agent has
    exited, and the record has no [end_time]. *)
Theorem foreground_spawn_reports_no_duration
  (w : World) (name prompt model : string) (budget : Q) (target : string)
  (r : Runner) (s : string) :
  Dict.get name (workers r) = None ->
  auth_ok w = true ->
  let lf := log_path w (logs_dir r) name in
  let cmd := claude_cmd w (uuid4 w) model budget lf prompt in
  subprocess_run w cmd = Ok 0%Z ->
  _extract_summary w lf = Ok (PStr s) ->
  exists (message : string) (ws' : dict Worker),
    run w name prompt model budget target false r
    = (Ok true,
       {| workers := ws'; logs_dir := logs_dir r;
          trace := trace r ++ [EvAuthStatus; EvRun cmd; EvSave ws';
                               EvNotify name target message] |})
    /\ prefix ("🎯 Worker **" ++ name ++ "** completed (0s)") message = true.
Proof.
  intros Hnew Hauth lf cmd Hrun Hsum.
  destruct (format_completion_message_text name s (Notifier.duration_str 0))
    as [message Hfmt].
  exists message. eexists. split.
  - unfold run, set_env_wizard, launch, try_except, save_workers, bind, gets,
      emit, lift, ret, modify_workers, Dict.mem.
    cbn [workers logs_dir trace]. rewrite Hnew, Hauth. cbn [negb].
    cbn [workers logs_dir trace]. fold lf. fold cmd. rewrite Hrun.
    change (0 =? 0)%Z with true. cbv iota.
    unfold _handle_completion, notify_completion, bind, gets, lift, emit, ret.
    cbn [workers logs_dir trace]. rewrite get_set_same.
    cbn [end_time start_time log_file notify_target new_worker].
    rewrite py_int_zero, Hsum, Hfmt. cbn [workers logs_dir trace].
    rewrite app_assoc3, <- app_assoc. reflexivity.
  - apply format_completion_message_header in Hfmt. exact Hfmt.
Qed.

Lemma foreground_spawn_reports_no_duration_witness :
  exists (message : string) (ws' : dict Worker),
    run foreground_world "fg" "Count from 1 to 3" "haiku" (1 # 5) "main"
        false empty_runner
    = (Ok true,
       {| workers := ws'; logs_dir := "/tmp/blaude-logs";
          trace := [EvAuthStatus;
                    EvRun (claude_cmd foreground_world (uuid4 foreground_world)
                             "haiku" (1 # 5) "/tmp/blaude-logs/fg.log"
                             "Count from 1 to 3");
                    EvSave ws'; EvNotify "fg" "main" message] |})
    /\ prefix "🎯 Worker **fg** completed (0s)" message = true.
Proof.
  apply (@foreground_spawn_reports_no_duration foreground_world "fg"
           "Count from 1 to 3" "haiku" (1 # 5) "main" empty_runner
           NO_OUTPUT); reflexivity.
Defined.

(* ------------------------------------------------------------------ *)
(** ** The notification for a worker whose log cannot be used *)

Lemma rstrip_nonspace (c : ascii) (s : string) :
  PyStr.isspace c = false -> PyStr.rstrip (String c s) = String c (PyStr.rstrip s).
Proof.
  intros H. simpl. destruct (PyStr.rstrip s); [now rewrite H | reflexivity].
Qed.

Lemma rstrip_app_nonspace (a : string) (c : ascii) (b : string) :
  PyStr.isspace c = false ->
  PyStr.rstrip (a ++ String c b) = a ++ String c (PyStr.rstrip b).
Proof.
  intros H. induction a as [|a0 a IH].
  - now apply rstrip_nonspace.
  - change (PyStr.rstrip (String a0 (a ++ String c b))
            = String a0 (a ++ String c (PyStr.rstrip b))).
    simpl. rewrite IH. now destruct a.
Qed.

(** What the dispatcher keeps of an error text. *)
Lemma clean_error_summary (x : string) :
  exists t, Notifier.clean_summary ("Error reading output: " ++ x)
            = "Error reading output:" ++ t.
Proof.
  unfold Notifier.clean_summary, PyStr.strip.
  change (PyStr.lstrip ("Error reading output: " ++ x))
    with ("Error reading output" ++ String ":" (" " ++ x)).
  rewrite rstrip_app_nonspace by reflexivity.
  destruct (500 <? _).
  - exists (PyStr.slice_to 479 (PyStr.rstrip (" " ++ x)) ++ "...").
    reflexivity.
  - now exists (PyStr.rstrip (" " ++ x)).
Qed.

Lemma error_summary_is_fenced (x : string) :
  let clean := Notifier.clean_summary ("Error reading output: " ++ x) in
  Notifier.shown clean = true
  /\ PyStr.contains_any ["{"%char; "["%char; ":"%char; PyStr.LF] clean = true.
Proof.
  intros clean. subst clean.
  destruct (clean_error_summary x) as [t ->]. split.
  - reflexivity.
  - unfold PyStr.contains_any. apply existsb_exists.
    exists ":"%char. split; [simpl; tauto|]. simpl. now destruct t.
Qed.

(** X10. The notification for a worker whose log does not exist is the
    bare header, with no summary; for one whose log cannot be read it is
    the header followed by the text of the error, cut to 500 characters,
    in a code block. *)
Theorem notification_without_log
  (w : World) (name : string) (r : Runner) (wk : Worker) :
  Dict.get name (workers r) = Some wk ->
  let ended := match end_time wk with Some t => t | None => now w end in
  let head := "🎯 Worker **" ++ name ++ "** completed ("
              ++ Notifier.duration_str (py_int (Qminus ended (start_time wk)))
              ++ ")" in
  let nl := String PyStr.LF "" in
  let sent := fun message =>
    (Ok tt, {| workers := workers r; logs_dir := logs_dir r;
               trace := trace r ++ [EvNotify name (notify_target wk) message] |}) in
  (fs w (log_file wk) = Missing -> _handle_completion w name r = sent head)
  /\ (forall e, fs w (log_file wk) = Unreadable e ->
        _handle_completion w name r
        = sent (head ++ nl ++ "```" ++ nl
                ++ Notifier.clean_summary
                     ("Error reading output: " ++ str_exn w e)
                ++ nl ++ "```")).
Proof.
  intros Hget ended head nl sent. split.
  - intros Hfs.
    unfold _handle_completion, notify_completion, bind, gets, lift, emit, ret.
    cbn [workers logs_dir trace]. rewrite Hget.
    unfold _extract_summary, extract_summary_body. rewrite Hfs.
    reflexivity.
  - intros e Hfs.
    unfold _handle_completion, notify_completion, bind, gets, lift, emit, ret.
    cbn [workers logs_dir trace]. rewrite Hget.
    unfold _extract_summary, extract_summary_body. rewrite Hfs.
    unfold Notifier._format_completion_message.
    destruct (error_summary_is_fenced (str_exn w e)) as [Hshown Hany].
    cbv zeta in Hshown, Hany. rewrite Hshown, Hany. reflexivity.
Qed.

Lemma notification_without_log_witness :
  _handle_completion denied_world "t1" t1_runner
  = (Ok tt,
     {| workers := workers t1_runner; logs_dir := "/tmp/blaude-logs";
        trace := [EvNotify "t1" "main"
                    ("🎯 Worker **t1** completed (1m 40s)"
                     ++ String PyStr.LF ("```" ++ String PyStr.LF
                          ("Error reading output: [Errno 13] Permission denied"
                           ++ String PyStr.LF "```")))] |}).
Proof.
  apply (proj2 (@notification_without_log denied_world "t1" t1_runner
                  t1_running eq_refl) (OSError "[Errno 13] Permission denied")).
  reflexivity.
Defined.

(* ------------------------------------------------------------------ *)
(** ** Listing the workers *)

Lemma list_loop_map (w : World) (items : list (string * Worker))
  (workers_list : list (dict pyval)) :
  list_loop w items workers_list
  = (workers_list
     ++ map (fun kv => worker_row w (fst kv) (snd kv)) items)%list.
Proof.
  revert workers_list.
  induction items as [|[name wk] items IH]; intros acc; simpl.
  - now rewrite app_nil_r.
  - rewrite IH, <- app_assoc. reflexivity.
Qed.

(** [list_workers] gives one row per record, in the order of the
    registry, and changes nothing. *)
Lemma list_workers_rows (w : World) (r : Runner) :
  list_workers w r
  = (Ok (map (fun kv => worker_row w (fst kv) (snd kv)) (workers r)), r).
Proof.
  unfold list_workers, bind, gets, ret. now rewrite list_loop_map.
Qed.

Lemma count_equal_status (w : World) (s : string) (d : dict Worker) :
  Blaude.count_equal "status" s
    (map (fun kv => worker_row w (fst kv) (snd kv)) d)
  = Ok (count_status s d).
Proof.
  unfold count_status.
  induction d as [|[name wk] d IH]; [reflexivity|].
  cbn [map Blaude.count_equal fst snd]. rewrite IH.
  cbn [filter snd]. unfold worker_row. simpl.
  now destruct (String.eqb (status wk) s).
Qed.

Lemma count_status_le (s1 s2 : string) (d : dict Worker) :
  s1 <> s2 -> count_status s1 d + count_status s2 d <= List.length d.
Proof.
  intros Hne. unfold count_status.
  induction d as [|[name wk] d IH]; simpl; [lia|].
  destruct (String.eqb (status wk) s1) eqn:E1;
    destruct (String.eqb (status wk) s2) eqn:E2; simpl; try lia.
  apply String.eqb_eq in E1, E2. congruence.
Qed.

(** The counts once the terminal records are filtered out. *)
Lemma count_status_kept (s : string) (d : dict Worker) :
  count_status s
    (filter (fun kv => negb (str_in (status (snd kv)) TERMINAL_FOR_CLEANUP)) d)
  = if str_in s TERMINAL_FOR_CLEANUP then 0 else count_status s d.
Proof.
  unfold count_status.
  induction d as [|[name wk] d IH]; cbn [filter snd].
  - now destruct (str_in s TERMINAL_FOR_CLEANUP).
  - destruct (String.eqb (status wk) s) eqn:E.
    + apply String.eqb_eq in E. rewrite E.
      destruct (str_in s TERMINAL_FOR_CLEANUP) eqn:Et; cbn [negb filter snd].
      * exact IH.
      * rewrite E, String.eqb_refl. cbn [List.length]. now rewrite IH.
    + destruct (str_in (status wk) TERMINAL_FOR_CLEANUP);
        cbn [negb filter snd]; [exact IH|]. rewrite E. exact IH.
Qed.

(** X11. [Blaude.status] changes nothing and never fails; the numbers it
    prints are the count of [running] records, the count of [completed]
    records and the size of the registry, so [Running + Completed] is at
    most [Total] ([killed] and [dead] workers are in the total only); and
    right after a cleanup [Running] is what it was and [Completed] is
    0. *)
Theorem blaude_status_numbers (w : World) (r : Runner) :
  Blaude.status w r
  = (Ok (count_status "running" (workers r),
         count_status "completed" (workers r),
         List.length (workers r)), r)
  /\ count_status "running" (workers r) + count_status "completed" (workers r)
     <= List.length (workers r)
  /\ (Dict.wf (workers r) ->
      fst (Blaude.status w (snd (cleanup_completed r)))
      = Ok (count_status "running" (workers r), 0,
            List.length (workers (snd (cleanup_completed r))))).
Proof.
  assert (Hstatus : forall r0,
    Blaude.status w r0
    = (Ok (count_status "running" (workers r0),
           count_status "completed" (workers r0),
           List.length (workers r0)), r0)).
  { intros r0. unfold Blaude.status. unfold bind at 1.
    rewrite list_workers_rows. unfold bind, lift, ret.
    rewrite !count_equal_status. now rewrite length_map. }
  split; [apply Hstatus|]. split; [apply count_status_le; discriminate|].
  intros Hwf. rewrite Hstatus. cbn [fst]. rewrite cleanup_registry.
  rewrite (@del_all_picked _ (fun x => str_in (status x) TERMINAL_FOR_CLEANUP)
             (workers r) Hwf).
  now rewrite !count_status_kept.
Qed.

Lemma blaude_status_numbers_witness :
  let r := {| workers := [("t1", set_status "completed" t1_running);
                          ("t3", t1_running)];
              logs_dir := "/tmp/blaude-logs"; trace := [] |} in
  fst (Blaude.status foreground_world r) = Ok (1, 1, 2)
  /\ fst (Blaude.status foreground_world (snd (cleanup_completed r)))
     = Ok (1, 0, 1).
Proof.
  intros r.
  destruct (blaude_status_numbers foreground_world r) as [H1 [_ H3]].
  split; [now rewrite H1|].
  apply H3. unfold Dict.wf. simpl.
  repeat constructor; simpl; intuition discriminate.
Defined.

(* ------------------------------------------------------------------ *)
(** ** The dashboard *)

Lemma selected_cases (z : Z) :
  (0 <= z < 8)%Z ->
  z = 0%Z \/ z = 1%Z \/ z = 2%Z \/ z = 3%Z
  \/ z = 4%Z \/ z = 5%Z \/ z = 6%Z \/ z = 7%Z.
Proof. lia. Qed.

(** X12. The keys [h], [l], [j], [k] keep the selection on the eight
    boxes and never wrap around: [l] and [h] move by one and undo each
    other, [j] and [k] move by a row of four and undo each other, at the
    edges the key does nothing, and any other key leaves the selection
    where it is. *)
Theorem on_key_stays_on_grid (key : string) (selected : Z) :
  (0 <= selected < 8)%Z ->
  (0 <= BlaudeTUI.on_key key selected < 8)%Z
  /\ BlaudeTUI.on_key "l" selected
     = (if (selected <? 7)%Z then selected + 1 else selected)%Z
  /\ BlaudeTUI.on_key "h" selected
     = (if (0 <? selected)%Z then selected - 1 else selected)%Z
  /\ BlaudeTUI.on_key "j" selected
     = (if (selected <? 4)%Z then selected + 4 else selected)%Z
  /\ BlaudeTUI.on_key "k" selected
     = (if (4 <=? selected)%Z then selected - 4 else selected)%Z
  /\ ((selected < 7)%Z ->
      BlaudeTUI.on_key "h" (BlaudeTUI.on_key "l" selected) = selected)
  /\ ((selected < 4)%Z ->
      BlaudeTUI.on_key "k" (BlaudeTUI.on_key "j" selected) = selected)
  /\ (~ In key ["h"; "l"; "j"; "k"] -> BlaudeTUI.on_key key selected = selected).
Proof.
  intros Hsel.
  split; [|split; [|split; [|split; [|split; [|split; [|split]]]]]].
  - unfold BlaudeTUI.on_key.
    destruct (String.eqb key "h"), (String.eqb key "l"),
      (String.eqb key "j"), (String.eqb key "k");
      destruct (selected_cases Hsel)
        as [->|[->|[->|[->|[->|[->|[->| ->]]]]]]];
      vm_compute; split; congruence.
  - destruct (selected_cases Hsel)
      as [->|[->|[->|[->|[->|[->|[->| ->]]]]]]]; reflexivity.
  - destruct (selected_cases Hsel)
      as [->|[->|[->|[->|[->|[->|[->| ->]]]]]]]; reflexivity.
  - destruct (selected_cases Hsel)
      as [->|[->|[->|[->|[->|[->|[->| ->]]]]]]]; reflexivity.
  - destruct (selected_cases Hsel)
      as [->|[->|[->|[->|[->|[->|[->| ->]]]]]]]; reflexivity.
  - intros Hlt.
    destruct (selected_cases Hsel)
      as [->|[->|[->|[->|[->|[->|[->| ->]]]]]]]; try reflexivity; lia.
  - intros Hlt.
    destruct (selected_cases Hsel)
      as [->|[->|[->|[->|[->|[->|[->| ->]]]]]]]; try reflexivity; lia.
  - intros Hother. unfold BlaudeTUI.on_key.
    destruct (String.eqb key "h") eqn:Eh;
      [apply String.eqb_eq in Eh; exfalso; apply Hother; simpl; auto|].
    destruct (String.eqb key "l") eqn:El;
      [apply String.eqb_eq in El; exfalso; apply Hother; simpl; auto|].
    destruct (String.eqb key "j") eqn:Ej;
      [apply String.eqb_eq in Ej; exfalso; apply Hother; simpl; auto|].
    destruct (String.eqb key "k") eqn:Ek;
      [apply String.eqb_eq in Ek; exfalso; apply Hother; simpl; auto|].
    reflexivity.
Qed.

Lemma on_key_stays_on_grid_witness :
  (0 <= BlaudeTUI.on_key "l" 3 < 8)%Z
  /\ BlaudeTUI.on_key "h" (BlaudeTUI.on_key "l" 3) = 3%Z.
Proof.
  destruct (@on_key_stays_on_grid "l" 3%Z ltac:(lia))
    as (Hin & _ & _ & _ & _ & Hback & _).
  split; [exact Hin | apply Hback; lia].
Defined.

(** X13. A box of the dashboard is fed a row of [list_workers], which has
    no [log_file], [start_time] or [budget] entry: whatever the worker,
    its box shows the budget [0.00], the duration [0s] and
    [No log file available], with the icon and the controls of its
    status. *)
Theorem box_of_listed_worker
  (w : World) (format_2f : pyval -> outcome string) (py_str : pyval -> string)
  (r : Runner) (rows : list (dict pyval)) (row : dict pyval) :
  (forall s, py_str (PStr s) = s) ->
  format_2f (PInt 0) = Ok "0.00" ->
  fst (list_workers w r) = Ok rows ->
  In row rows ->
  exists (name : string) (wk : Worker),
    In (name, wk) (workers r)
    /\ WorkerBox.update_worker w format_2f py_str (Some row)
       = Ok {| WorkerBox.header :=
                 WorkerBox.icon_for (status wk) ++ " " ++ name ++ " | "
                 ++ model wk ++ " | $0.00 | 0s";
               WorkerBox.content := "No log file available";
               WorkerBox.controls :=
                 WorkerBox.controls_for (PStr (status wk)) |}.
Proof.
  intros Hstr Hfmt Hrows Hin.
  rewrite list_workers_rows in Hrows. cbn [fst] in Hrows.
  injection Hrows as <-.
  apply in_map_iff in Hin. destruct Hin as [[name wk] [<- Hin]].
  exists name, wk. split; [exact Hin|]. cbn [fst snd].
  unfold WorkerBox.update_worker, worker_row.
  cbn [PyVal.getitem find fst snd String.eqb Ascii.eqb Bool.eqb and_then
       WorkerBox.get_or Dict.get WorkerBox.as_number WorkerBox.status_icon].
  rewrite py_int_zero, Hfmt. cbn [and_then]. rewrite !Hstr.
  reflexivity.
Qed.

Lemma box_of_listed_worker_witness :
  let format_2f := fun _ : pyval => Ok "0.00" in
  let py_str := fun v => match v with PStr s => s | _ => "None" end in
  exists (name : string) (wk : Worker),
    In (name, wk) (workers t1_runner)
    /\ WorkerBox.update_worker foreground_world format_2f py_str
         (Some (worker_row foreground_world "t1" t1_running))
       = Ok {| WorkerBox.header :=
                 WorkerBox.icon_for (status wk) ++ " " ++ name ++ " | "
                 ++ model wk ++ " | $0.00 | 0s";
               WorkerBox.content := "No log file available";
               WorkerBox.controls :=
                 WorkerBox.controls_for (PStr (status wk)) |}.
Proof.
  intros format_2f py_str.
  apply (@box_of_listed_worker foreground_world format_2f py_str t1_runner
           [worker_row foreground_world "t1" t1_running]
           (worker_row foreground_world "t1" t1_running)).
  - reflexivity.
  - reflexivity.
  - reflexivity.
  - now left.
Defined.

(* ------------------------------------------------------------------ *)
(** ** What a spawn that succeeds has done *)

(** X14. When [run] returns [True] the name was free, the agent was
    authenticated, and the worker is registered and saved: its record is
    [running] with the [pid] of the process started (background) or
    [completed] with no [pid] (foreground), and the registry last saved is
    the one in memory. A background spawn sends no notification, a
    foreground one exactly one. *)
Theorem spawn_success_means_registered
  (w : World) (name prompt model : string) (budget : Q) (target : string)
  (bg : bool) (r r' : Runner) :
  run w name prompt model budget target bg r = (Ok true, r') ->
  Dict.get name (workers r) = None
  /\ auth_ok w = true
  /\ last_saved (trace r') = Some (workers r')
  /\ exists wk,
       Dict.get name (workers r') = Some wk
       /\ status wk = (if bg then "running" else "completed")
       /\ notify_target wk = target
       /\ log_file wk = log_path w (logs_dir r) name
       /\ end_time wk = None
       /\ (if bg
           then exists p,
                  pid wk = Some p
                  /\ popen w ("nohup" :: claude_cmd w (uuid4 w) model budget
                                           (log_file wk) prompt) = Ok p
                  /\ notified name (trace r') = notified name (trace r)
           else pid wk = None
                /\ notified name (trace r') = notified name (trace r) + 1).
Proof.
  unfold run, set_env_wizard, launch, try_except, save_workers, bind, gets,
    emit, lift, ret, modify_workers, Dict.mem.
  cbn [workers logs_dir trace].
  destruct (Dict.get name (workers r)) as [wk0|] eqn:Hget; [discriminate|].
  destruct (auth_ok w); cbn [negb]; [|discriminate].
  cbn [workers logs_dir trace].
  destruct bg.
  - destruct (popen w _) as [p|e] eqn:Hpopen; [|discriminate].
    intros [= <-]. cbn [workers trace].
    split; [reflexivity|]. split; [reflexivity|].
    split; [apply last_saved_save|].
    eexists. split; [apply get_set_same|]. cbn.
    repeat (split; [reflexivity|]).
    exists p. split; [reflexivity|]. split; [exact Hpopen|].
    rewrite !notified_app. simpl. lia.
  - destruct (subprocess_run w _) as [rc|e]; [|discriminate].
    destruct (rc =? 0)%Z; [|discriminate].
    cbn [workers logs_dir trace].
    match goal with
    | |- context [_handle_completion w name ?rr] =>
        set (r4 := rr);
        pose proof (unsaved_handle_completion w name r4) as Hquiet;
        assert (Hget4 : Dict.get name (workers r4)
                        = Some (new_worker w None (uuid4 w) model budget
                                  target prompt
                                  (log_path w (logs_dir r) name) false))
          by apply get_set_same;
        destruct (_handle_completion w name r4) as [[[]|e] r5] eqn:Hh;
        [|discriminate]
    end.
    destruct (@handle_completion_effect w name r4 _ _ Hh)
      as [Hws [_ [_ Hone]]].
    intros [= <-]. cbn [snd] in Hquiet.
    split; [reflexivity|]. split; [reflexivity|].
    split.
    { rewrite (same_saved_last Hquiet), Hws. apply last_saved_save. }
    eexists. split; [rewrite Hws; exact Hget4|]. cbn.
    repeat (split; [reflexivity|]).
    rewrite (Hone _ Hget4 eq_refl). unfold r4. cbn [trace].
    rewrite !notified_app. simpl. lia.
Qed.

Lemma spawn_success_means_registered_witness :
  let res := run foreground_world "t2" "Deploy to staging" "haiku" (5 # 1)
                 "ops" true t1_runner in
  Dict.get "t2" (workers t1_runner) = None
  /\ last_saved (trace (snd res)) = Some (workers (snd res)).
Proof.
  intros res.
  destruct (@spawn_success_means_registered foreground_world "t2"
              "Deploy to staging" "haiku" (5 # 1) "ops" true t1_runner
              (snd res) eq_refl) as (H1 & _ & H3 & _).
  split; [exact H1 | exact H3].
Defined.

(* ------------------------------------------------------------------ *)
(** ** Who sends signals *)

Lemma signalled_snoc (tr : list event) (ev : event) :
  signalled (tr ++ [ev])
  = (signalled tr ++ match ev with EvKillpg p => [p] | _ => [] end)%list.
Proof.
  unfold signalled. rewrite flat_map_app. simpl. now rewrite app_nil_r.
Qed.

Lemma same_signalled_refl (r : Runner) : same_signalled r r.
Proof. reflexivity. Qed.

Lemma same_signalled_trans (r1 r2 r3 : Runner) :
  same_signalled r1 r2 -> same_signalled r2 r3 -> same_signalled r1 r3.
Proof. unfold same_signalled. congruence. Qed.

Section SignalFacts.

Variable w : World.

Local Ltac signal_step :=
  lazymatch goal with
  | |- preserves _ (bind _ _) =>
      apply preserves_bind; [exact same_signalled_trans | | intro]
  | |- preserves _ (try_except _ _) =>
      apply preserves_try; [exact same_signalled_trans | | intro]
  | |- preserves _ (ret _) => apply preserves_ret; exact same_signalled_refl
  | |- preserves _ (gets _) => apply preserves_gets; exact same_signalled_refl
  | |- preserves _ (lift _) => apply preserves_lift; exact same_signalled_refl
  | |- preserves _ (modify_workers _) => intros ?; reflexivity
  | |- preserves _ (emit _) =>
      intros ?; unfold same_signalled, emit; cbn [snd trace];
      rewrite signalled_snoc; apply app_nil_r
  | |- preserves _ (match ?x with _ => _ end) => destruct x
  end.

Lemma unsignalled_handle_completion (name : string) :
  preserves same_signalled (_handle_completion w name).
Proof. unfold _handle_completion, notify_completion. repeat signal_step. Qed.

Lemma unsignalled_run
  (name prompt model : string) (budget : Q) (target : string) (bg : bool) :
  preserves same_signalled (run w name prompt model budget target bg).
Proof.
  unfold run, set_env_wizard, launch, save_workers. repeat signal_step;
    apply unsignalled_handle_completion.
Qed.

Lemma unsignalled_cleanup : preserves same_signalled cleanup_completed.
Proof. unfold cleanup_completed, save_workers. repeat signal_step. Qed.

Lemma unsignalled_check_loop (items : list (string * Worker)) (updated : bool) :
  preserves same_signalled (check_loop w items updated).
Proof.
  revert updated.
  induction items as [|[name wk] items IH]; intros updated; simpl;
    unfold finish; repeat signal_step; try apply IH;
    apply unsignalled_handle_completion.
Qed.

Lemma unsignalled_check : preserves same_signalled (_check_worker_statuses w).
Proof.
  unfold _check_worker_statuses, save_workers. repeat signal_step.
  apply unsignalled_check_loop.
Qed.

End SignalFacts.

(** X15. [os.killpg] is called by [kill_worker] only, at most once per
    call, and on the [pid] of the record named, which is [running] then:
    a spawn, a cleanup and a sweep of the monitor signal no process
    group. *)
Theorem only_kill_signals (w : World) (op : operation) (r : Runner) :
  signalled (trace (after w op r)) = signalled (trace r)
  \/ exists name wk p,
       op = OpKill name
       /\ Dict.get name (workers r) = Some wk
       /\ status wk = "running"
       /\ live_pid wk = Some p
       /\ signalled (trace (after w op r)) = (signalled (trace r) ++ [p])%list.
Proof.
  destruct op as [name prompt model budget target bg|name| |]; simpl.
  - left. apply unsignalled_run.
  - destruct (Dict.get name (workers r)) as [wk|] eqn:Hget.
    2:{ left. rewrite (@kill_worker_refused w name r)
          by (intros x H; congruence). reflexivity. }
    destruct (supervised wk) eqn:Hs.
    2:{ left. now rewrite (@kill_refused_unsupervised w name r wk Hget Hs). }
    unfold supervised in Hs. apply andb_true_iff in Hs. destruct Hs as [Hs Hp].
    apply String.eqb_eq in Hs.
    destruct (live_pid wk) as [p|] eqn:Hpid; [|discriminate].
    right. exists name, wk, p. repeat (split; [reflexivity || assumption|]).
    rewrite (@kill_worker_signals w name r wk p Hget Hs Hpid).
    cbn [snd trace]. unfold signalled. rewrite flat_map_app. reflexivity.
  - left. apply unsignalled_cleanup.
  - left. apply unsignalled_check.
Qed.

(* ------------------------------------------------------------------ *)
(** ** The text of a duration *)

Lemma uint_digits (u : Decimal.uint) :
  all_digits (NilEmpty.string_of_uint u) = true.
Proof. induction u; simpl; auto. Qed.

Lemma of_int_digits (z : Z) : (0 <= z)%Z -> all_digits (PyStr.of_int z) = true.
Proof.
  intros Hz. unfold PyStr.of_int. destruct z as [|p|p]; [reflexivity| |lia].
  simpl. unfold NilZero.string_of_uint.
  destruct (Pos.to_uint p) eqn:E; try (rewrite <- E; apply uint_digits).
  reflexivity.
Qed.

Lemma of_int_inj (a b : Z) : PyStr.of_int a = PyStr.of_int b -> a = b.
Proof.
  assert (Hback : forall z,
    NilZero.int_of_string (PyStr.of_int z) = Some (Z.to_int z)).
  { intros z. unfold PyStr.of_int. apply NilZero.isi.
    - destruct z; simpl; intros [= H]; try discriminate.
      now apply Unsigned.to_uint_nonnil in H.
    - destruct z; simpl; intros [= H].
      now apply Unsigned.to_uint_nonnil in H. }
  intros H. apply DecimalZ.to_int_inj.
  pose proof (Hback a) as Ha. rewrite H, Hback in Ha. congruence.
Qed.

(** Two texts that open with digits and go on with something else are
    equal part by part. *)
Lemma digits_then_other (a b : string) (c c' : ascii) (r r' : string) :
  all_digits a = true -> all_digits b = true ->
  isdigit c = false -> isdigit c' = false ->
  a ++ String c r = b ++ String c' r' -> a = b /\ c = c' /\ r = r'.
Proof.
  revert b. induction a as [|a0 a IH]; intros [|b0 b] Ha Hb Hc Hc' H;
    simpl in *.
  - injection H as -> ->. auto.
  - injection H as -> _. apply andb_true_iff in Hb. destruct Hb. congruence.
  - injection H as -> _. apply andb_true_iff in Ha. destruct Ha. congruence.
  - injection H as -> H.
    apply andb_true_iff in Ha, Hb. destruct Ha as [_ Ha], Hb as [_ Hb].
    destruct (IH b Ha Hb Hc Hc' H) as [-> [-> ->]]. auto.
Qed.

(** X16. Below one hour the duration text of a notification tells the
    duration exactly: two durations with the same text are equal. From
    one hour on the seconds are dropped: the text is the one of the
    duration rounded down to the minute. The header of a dashboard box
    formats a duration in the same way. *)
Theorem duration_text (d d' : Z) :
  ((0 <= d < 3600)%Z -> (0 <= d' < 3600)%Z ->
   Notifier.duration_str d = Notifier.duration_str d' -> d = d')
  /\ ((3600 <= d)%Z ->
      Notifier.duration_str d = Notifier.duration_str (d - d mod 60))
  /\ WorkerBox.duration d = Notifier.duration_str d.
Proof.
  split; [|split; [|reflexivity]].
  - intros Hd Hd'. unfold Notifier.duration_str.
    assert (H3600 : forall z, (0 <= z < 3600)%Z -> (z <? 3600)%Z = true)
      by (intros z Hz; apply Z.ltb_lt; lia).
    destruct (Z.ltb_spec d 60) as [H|H]; destruct (Z.ltb_spec d' 60) as [H'|H'];
      rewrite ?(H3600 d Hd), ?(H3600 d' Hd'); intros Heq.
    + apply digits_then_other in Heq;
        try (apply of_int_digits; lia); try reflexivity.
      destruct Heq as [Heq _]. now apply of_int_inj.
    + apply digits_then_other in Heq;
        try (apply of_int_digits; lia); try reflexivity.
      * destruct Heq as [_ [Heq _]]. discriminate.
      * apply of_int_digits. apply Z.div_pos; lia.
    + apply digits_then_other in Heq;
        try (apply of_int_digits; lia); try reflexivity.
      * destruct Heq as [_ [Heq _]]. discriminate.
      * apply of_int_digits. apply Z.div_pos; lia.
    + apply digits_then_other in Heq;
        try (apply of_int_digits; apply Z.div_pos; lia); try reflexivity.
      destruct Heq as [Hm [_ Hrest]]. apply of_int_inj in Hm.
      injection Hrest as Hrest.
      apply digits_then_other in Hrest;
        try (apply of_int_digits; apply Z.mod_pos_bound; lia);
        try reflexivity.
      destruct Hrest as [Hs _]. apply of_int_inj in Hs.
      rewrite (Z.div_mod d 60), (Z.div_mod d' 60) by lia. congruence.
  - intros Hd. unfold Notifier.duration_str.
    assert (Hm : (0 <= d mod 60 < 60)%Z) by (apply Z.mod_pos_bound; lia).
    assert (H60 : (d <? 60)%Z = false) by (apply Z.ltb_ge; lia).
    assert (H3600 : (d <? 3600)%Z = false) by (apply Z.ltb_ge; lia).
    assert (Hbig : (3600 <= d - d mod 60)%Z).
    { assert (Hq : (60 <= d / 60)%Z) by (apply Z.div_le_lower_bound; lia).
      pose proof (Z.div_mod d 60 ltac:(lia)). lia. }
    assert (H60' : (d - d mod 60 <? 60)%Z = false) by (apply Z.ltb_ge; lia).
    assert (H3600' : (d - d mod 60 <? 3600)%Z = false)
      by (apply Z.ltb_ge; lia).
    rewrite H60, H3600, H60', H3600'.
    assert (Hh : ((d - d mod 60) / 3600 = d / 3600)%Z).
    { Z.div_mod_to_equations. lia. }
    assert (Hmin : (((d - d mod 60) mod 3600) / 60 = (d mod 3600) / 60)%Z).
    { Z.div_mod_to_equations. lia. }
    now rewrite Hh, Hmin.
Qed.

Lemma duration_text_witness :
  Notifier.duration_str 100 = "1m 40s"
  /\ Notifier.duration_str 3725 = Notifier.duration_str 3720.
Proof.
  split; [reflexivity|].
  apply (proj1 (proj2 (duration_text 3725 0))). lia.
Defined.

(* ------------------------------------------------------------------ *)
(** ** The test for an authenticated agent *)

Lemma lower_app (a b : string) : lower (a ++ b) = lower a ++ lower b.
Proof. induction a as [|c a IH]; simpl; [reflexivity | now rewrite IH]. Qed.

Lemma contains_prefix (needle hay : string) :
  prefix needle hay = true -> PyStr.contains needle hay = true.
Proof. intros H. destruct hay; cbn [PyStr.contains]; now rewrite H. Qed.

Lemma contains_app (needle before later : string) :
  PyStr.contains needle (before ++ needle ++ later) = true.
Proof.
  induction before as [|c before IH].
  - change (EmptyString ++ needle ++ later) with (needle ++ later).
    apply contains_prefix. apply prefix_app.
  - simpl. rewrite IH. apply orb_true_r.
Qed.

(** X17. The test [set_env_wizard] makes for an authenticated agent
    accepts any output that holds the word [authenticated], in any case
    and anywhere: it accepts [Not authenticated] too. *)
Theorem auth_test_accepts_any_mention (before word later : string) :
  lower word = "authenticated" ->
  reports_authenticated (before ++ word ++ later) = true.
Proof.
  intros H. unfold reports_authenticated.
  rewrite !lower_app, H. apply contains_app.
Qed.

Lemma auth_test_accepts_any_mention_witness :
  reports_authenticated "Not authenticated. Run claude auth" = true.
Proof.
  apply (@auth_test_accepts_any_mention "Not " "authenticated"
           ". Run claude auth").
  reflexivity.
Defined.

(* ------------------------------------------------------------------ *)
(** ** What a sweep that returns has done *)

(** X18. A sweep of the monitor that returns has dealt with every worker:
    a record that was [running] with a live [pid] whose process is gone is
    now [completed] with its [end_time] set and exactly one notification
    was sent for it; every other record is as it was, with no
    notification. *)
Theorem sweep_completes_exited_workers
  (w : World) (r r' : Runner) (name : string) (wk : Worker) :
  Dict.wf (workers r) ->
  _check_worker_statuses w r = (Ok tt, r') ->
  Dict.get name (workers r) = Some wk ->
  if supervised wk
     && match live_pid wk with Some p => negb (kill0 w p) | None => false end
  then Dict.get name (workers r') = Some (finished w "completed" wk)
       /\ notified name (trace r') = notified name (trace r) + 1
  else untouched name r r'.
Proof.
  intros Hwf Hrun Hget.
  destruct (@sweep_spec w r (Ok tt) r' name wk Hwf Hrun Hget)
    as [Hu|(Hs & [p [Hp Hk]] & Hc & _ & Hone)].
  - (* the record is as it was: its process cannot be gone *)
    destruct (supervised wk) eqn:Hsup; [|exact Hu].
    destruct (live_pid wk) as [p|] eqn:Hp; [|exact Hu].
    destruct (kill0 w p) eqn:Hk; [exact Hu|]. exfalso.
    unfold supervised in Hsup. apply andb_true_iff in Hsup.
    destruct Hsup as [Hs _]. apply String.eqb_eq in Hs.
    unfold _check_worker_statuses in Hrun.
    unfold bind at 1 in Hrun. unfold gets in Hrun. unfold bind at 1 in Hrun.
    destruct (check_loop w (workers r) false r) as [[b|e] r1] eqn:Hloop;
      [|discriminate].
    assert (Hcoh : forall n x, In (n, x) (workers r) ->
                               Dict.get n (workers r) = Some x)
      by (intros n x Hin; now apply in_get).
    pose proof (@check_loop_completes w (workers r) false r b r1 Hwf Hcoh
                  Hloop name wk p (get_in _ _ Hget) Hs Hp Hk) as Hdone.
    assert (Hws : workers r' = workers r1).
    { destruct b; [|now injection Hrun as <-].
      unfold save_workers, bind, gets, emit in Hrun. now injection Hrun as <-. }
    destruct Hu as [Hg _]. rewrite Hws, Hdone, Hget in Hg.
    injection Hg as Hg. apply (f_equal status) in Hg. simpl in Hg.
    congruence.
  - unfold supervised. rewrite Hs, Hp, Hk. cbn.
    split; [exact Hc | now apply Hone].
Qed.

Lemma sweep_completes_exited_workers_witness :
  let r' := snd (_check_worker_statuses kill_lands_world t1_runner) in
  Dict.get "t1" (workers r')
  = Some (finished kill_lands_world "completed" t1_running)
  /\ notified "t1" (trace r') = notified "t1" (trace t1_runner) + 1.
Proof.
  intros r'.
  assert (Hwf : Dict.wf (workers t1_runner)).
  { unfold Dict.wf. simpl. repeat constructor. simpl. tauto. }
  apply (@sweep_completes_exited_workers kill_lands_world t1_runner r' "t1"
           t1_running Hwf eq_refl eq_refl).
Defined.

(* ------------------------------------------------------------------ *)
(** ** Using a name again *)

Lemma cleanup_logs_dir (r : Runner) :
  logs_dir (snd (cleanup_completed r)) = logs_dir r.
Proof.
  unfold cleanup_completed, save_workers, bind, gets, modify_workers, emit,
    ret.
  cbv beta iota zeta.
  now destruct (map fst (filter _ (workers r))).
Qed.

(** X19. The name of a worker that is [completed], [killed] or [dead]
    stays taken until a cleanup: a spawn under it is refused while the
    record is there, and goes through right after [cleanup_completed]. *)
Theorem cleanup_frees_name
  (w : World) (name prompt model : string) (budget : Q) (target : string)
  (r : Runner) (wk : Worker) (p : Z) :
  Dict.wf (workers r) ->
  Dict.get name (workers r) = Some wk ->
  In (status wk) ["completed"; "killed"; "dead"] ->
  auth_ok w = true ->
  popen w ("nohup" :: claude_cmd w (uuid4 w) model budget
                        (log_path w (logs_dir r) name) prompt) = Ok p ->
  run w name prompt model budget target true r = (Ok false, r)
  /\ fst (run w name prompt model budget target true
            (snd (cleanup_completed r))) = Ok true.
Proof.
  intros Hwf Hget Hterm Hauth Hpopen.
  split; [now apply (run_refused_taken w name prompt model budget target true
                       r Hget)|].
  assert (Hfree : Dict.get name (workers (snd (cleanup_completed r))) = None).
  { rewrite cleanup_registry, get_del_all.
    rewrite (@picked_names _ (fun x => str_in (status x) TERMINAL_FOR_CLEANUP)
               (workers r) name wk Hwf (get_in _ _ Hget)).
    apply str_in_In in Hterm.
    change (str_in (status wk) TERMINAL_FOR_CLEANUP = true) in Hterm.
    cbv beta. now rewrite Hterm. }
  rewrite (@run_background_started w name prompt model budget target
             (snd (cleanup_completed r)) p Hfree Hauth).
  - reflexivity.
  - now rewrite cleanup_logs_dir.
Qed.

Lemma cleanup_frees_name_witness :
  let r := {| workers := [("t1", set_status "completed" t1_running)];
              logs_dir := "/tmp/blaude-logs"; trace := [] |} in
  run foreground_world "t1" "Fix the failing tests" "haiku" (2 # 1) "main"
      true r = (Ok false, r)
  /\ fst (run foreground_world "t1" "Fix the failing tests" "haiku" (2 # 1)
            "main" true (snd (cleanup_completed r))) = Ok true.
Proof.
  intros r.
  apply (@cleanup_frees_name foreground_world "t1" "Fix the failing tests"
           "haiku" (2 # 1) "main" r (set_status "completed" t1_running)
           4242%Z).
  - unfold Dict.wf. simpl. repeat constructor. simpl. tauto.
  - reflexivity.
  - simpl. auto.
  - reflexivity.
  - reflexivity.
Defined.
